(** * Farm report statistics (report_farm_streamlit.py)

    A shallow embedding of the derived-state and aggregation logic of the
    farm report: the scope resolver [get_filtered_ear_tags], the scope-based
    aggregations, the heifer count, the two classifiers, the average parity
    and the trailing 12-month yield series.

    The SQLite store is a record of tables, each table a list of rows in
    storage order.  A nullable column is an [option]; SQL comparisons follow
    the three-valued logic (a comparison with NULL never selects a row).
    TEXT values are byte strings (UTF-8) and are ordered as SQLite's BINARY
    collation orders them (bytewise, a proper prefix first, NULL before
    every value).  A REAL value is the rational it denotes; the total that
    SQLite's [SUM] returns for REAL values is a rounded one and is taken
    from the runtime interface, so that no statement below depends on how
    a floating-point sum is rounded or in which order it is taken.

    Every function reads the store inside [try ... except Exception] and
    returns a default when the read fails.  The store below always answers,
    so those handlers are reached only by the exceptions the Python code
    itself can raise on the rows it fetched; each of these is modelled
    where it occurs.  The current date, [date.today()], is an argument. *)

From Stdlib Require Import String Ascii List ZArith QArith Lia Bool.
From Stdlib Require Import Sorted Permutation.
Import ListNotations.

Close Scope Q_scope.
Local Open Scope Z_scope.


(* ================================================================== *)
(** * Part I. The program *)
(* ================================================================== *)

(** ** Byte order on TEXT values *)

Definition str_leb (a b : string) : bool := String.leb a b.

(** NULL sorts before every TEXT value. *)
Definition null_leb (a b : option string) : bool :=
  match a, b with
  | None, _ => true
  | Some _, None => false
  | Some x, Some y => str_leb x y
  end.

(** The same for INTEGER keys. *)
Definition nullz_leb (a b : option Z) : bool :=
  match a, b with
  | None, _ => true
  | Some _, None => false
  | Some x, Some y => Z.leb x y
  end.

(** ** ORDER BY: a stable sort of the rows on a key *)

Section OrderBy.
Context {A K : Type} (leb : K -> K -> bool) (key : A -> K).

Fixpoint insert_row (x : A) (l : list A) : list A :=
  match l with
  | [] => [x]
  | y :: l' => if leb (key x) (key y) then x :: l else y :: insert_row x l'
  end.

Definition order_by (l : list A) : list A := fold_right insert_row [] l.

Definition key_le (x y : A) : Prop := leb (key x) (key y) = true.

End OrderBy.

(** [ORDER BY key DESC] compares the keys the other way round. *)
Definition desc {K : Type} (leb : K -> K -> bool) : K -> K -> bool :=
  fun a b => leb b a.

(** ** Python strings *)

(** [sep in s] for a one-character separator. *)
Fixpoint contains (sep : ascii) (s : string) : bool :=
  match s with
  | EmptyString => false
  | String c s' => Ascii.eqb c sep || contains sep s'
  end.

(** [s.split(sep)] for a one-character separator: never the empty list. *)
Fixpoint split_on (sep : ascii) (s : string) : list string :=
  match s with
  | EmptyString => [EmptyString]
  | String c s' =>
      if Ascii.eqb c sep then EmptyString :: split_on sep s'
      else match split_on sep s' with
           | h :: t => String c h :: t
           | [] => [String c EmptyString]
           end
  end.

(** SQLite's built-in [lower()]: only the ASCII letters are folded. *)
Definition lower_ascii (c : ascii) : ascii :=
  let n := N_of_ascii c in
  if ((65 <=? n) && (n <=? 90))%N then ascii_of_N (n + 32) else c.

Fixpoint lower (s : string) : string :=
  match s with
  | EmptyString => EmptyString
  | String c s' => String (lower_ascii c) (lower s')
  end.

(** ** The proleptic Gregorian calendar of [datetime.date]

    The standard library's date arithmetic goes through the ordinal of a
    date (day 1 is 0001-01-01); the functions below are those of
    CPython's [datetime] module, with [//] and [divmod] being floor
    division, as [Z.div] and [Z.modulo] are for a positive divisor. *)

Record date := mkdate { year : Z; month : Z; day : Z }.

Definition is_leap (y : Z) : bool :=
  (y mod 4 =? 0) && (negb (y mod 100 =? 0) || (y mod 400 =? 0)).

Definition days_before_year (y : Z) : Z :=
  let p := y - 1 in p * 365 + p / 4 - p / 100 + p / 400.

(** [_DAYS_IN_MONTH], index 0 unused. *)
Definition DAYS_IN_MONTH : list Z :=
  [-1; 31; 28; 31; 30; 31; 30; 31; 31; 30; 31; 30; 31].

(** [_DAYS_BEFORE_MONTH], index 0 unused. *)
Definition DAYS_BEFORE_MONTH : list Z :=
  [-1; 0; 31; 59; 90; 120; 151; 181; 212; 243; 273; 304; 334].

Definition b2z (b : bool) : Z := if b then 1 else 0.

Definition days_in_month (y m : Z) : Z :=
  if (m =? 2) && is_leap y then 29 else nth (Z.to_nat m) DAYS_IN_MONTH 0.

Definition days_before_month (y m : Z) : Z :=
  nth (Z.to_nat m) DAYS_BEFORE_MONTH 0 + b2z ((2 <? m) && is_leap y).

Definition ymd2ord (y m d : Z) : Z :=
  days_before_year y + days_before_month y m + d.

Definition DI400Y : Z := 146097.
Definition DI100Y : Z := 36524.
Definition DI4Y : Z := 1461.

(** Month and day from the zero-based day of the year. *)
Definition doy2md (leapyear : bool) (n : Z) : Z * Z :=
  let m := Z.shiftr (n + 50) 5 in
  let preceding := nth (Z.to_nat m) DAYS_BEFORE_MONTH 0 + b2z ((2 <? m) && leapyear) in
  if n <? preceding then
    let m' := m - 1 in
    let preceding' :=
      preceding - (nth (Z.to_nat m') DAYS_IN_MONTH 0 + b2z ((m' =? 2) && leapyear)) in
    (m', n - preceding' + 1)
  else (m, n - preceding + 1).

Definition ord2ymd (n : Z) : date :=
  let n0 := n - 1 in
  let n400 := n0 / DI400Y in
  let r400 := n0 mod DI400Y in
  let n100 := r400 / DI100Y in
  let r100 := r400 mod DI100Y in
  let n4 := r100 / DI4Y in
  let r4 := r100 mod DI4Y in
  let n1 := r4 / 365 in
  let r1 := r4 mod 365 in
  let y := n400 * 400 + 1 + n100 * 100 + n4 * 4 + n1 in
  if (n1 =? 4) || (n100 =? 4) then mkdate (y - 1) 12 31
  else
    let leapyear := (n1 =? 3) && (negb (n4 =? 24) || (n100 =? 3)) in
    let md := doy2md leapyear r1 in
    mkdate y (fst md) (snd md).

Definition toordinal (d : date) : Z := ymd2ord (year d) (month d) (day d).

(** [date.max.toordinal()], the ordinal of 9999-12-31. *)
Definition MAXORDINAL : Z := 3652059.

(** A date that [datetime.date] can hold. *)
Definition valid_date (d : date) : Prop :=
  1 <= year d <= 9999 /\ 1 <= month d <= 12 /\
  1 <= day d <= days_in_month (year d) (month d).

(** [d - timedelta(days=k)]; [None] is the [OverflowError] raised when
    the result leaves the supported range. *)
Definition date_sub_days (d : date) (k : Z) : option date :=
  let o := toordinal d - k in
  if (0 <? o) && (o <=? MAXORDINAL) then Some (ord2ymd o) else None.

(** [(a - b).days]. *)
Definition days_between (a b : date) : Z := toordinal a - toordinal b.

(** Zero-padded decimal fields of [strftime]: two digits for the month
    and the day, four for the year (the C library pads a year below 1000
    or not depending on the platform; the properties below do not depend
    on it). *)
Definition digit (z : Z) : ascii := ascii_of_N (Z.to_N (48 + z mod 10)).

Definition pad2 (z : Z) : string :=
  String (digit (z / 10)) (String (digit z) EmptyString).

Definition pad4 (z : Z) : string :=
  String (digit (z / 1000)) (String (digit (z / 100)) (pad2 z)).

(** [d.strftime("%Y-%m")] and [d.strftime("%Y-%m-%d")]. *)
Definition strftime_ym (d : date) : string :=
  (pad4 (year d) ++ "-" ++ pad2 (month d))%string.

Definition strftime_ymd (d : date) : string :=
  (pad4 (year d) ++ "-" ++ pad2 (month d) ++ "-" ++ pad2 (day d))%string.



(** ** Library functions taken as given

    The text functions whose full definition lives in the Python and
    SQLite runtimes are an interface; every statement below holds for
    any implementation of it.
    - [strip] is [str.strip()];
    - [strptime_ymd s] is [datetime.strptime(s, "%Y-%m-%d").date()],
      [None] standing for the [ValueError] of a failed parse;
    - [sqlite_month x] is SQLite's [strftime('%Y-%m', x)];
    - [real_sum vs] is the REAL that SQLite's [SUM] returns for the
      non-NULL REAL values [vs]: a floating-point total, which is the
      exact sum only where no partial sum is rounded;
    - [bare_row g] is the row of a group from which SQLite takes a bare
      column of an aggregate query: some row of the group, SQLite does
      not say which. *)
Class Runtime := {
  strip : string -> string;
  strptime_ymd : string -> option date;
  sqlite_month : option string -> option string;
  real_sum : list Q -> Q;
  bare_row : forall A : Type, list A -> option A;
  bare_row_In : forall (A : Type) (g : list A) (x : A),
      bare_row A g = Some x -> In x g;
  bare_row_nonempty : forall (A : Type) (g : list A),
      g <> [] -> bare_row A g <> None
}.

(** ** The store *)

(** Rows of the five tables, with the columns the report reads. *)

Record animal := {
  a_id : Z;
  a_ear_tag : option string;
  a_farm_name : option string;
  a_gender : option string;
  a_birth_date : option string
}.

Record issue := {
  i_farm_name : option string;
  i_ear_tag : option string;
  i_event_status : option string;
  i_event_date : option string
}.

Record repro := {
  r_animal_id : option Z;
  r_breeding_date : option string;
  r_parity : option Z;
  r_pregnancy_status : option string;
  r_delivery_status : option string;
  r_calving_date : option string
}.

Record lactation := {
  l_animal_id : option Z;
  l_period : option string
}.

Record milk_yield := {
  m_ear_tag : option string;
  m_record_date : option string;
  m_record_year : option Z;
  m_yield_value : option Q
}.

Record store := {
  animals : list animal;
  issues : list issue;
  repros : list repro;
  lactations : list lactation;
  milk_yields : list milk_yield
}.

(** SQL [=] on TEXT and on INTEGER: NULL on either side selects nothing. *)
Definition sql_eq (a b : option string) : bool :=
  match a, b with
  | Some x, Some y => String.eqb x y
  | _, _ => false
  end.

Definition sql_eqz (a b : option Z) : bool :=
  match a, b with
  | Some x, Some y => Z.eqb x y
  | _, _ => false
  end.

(** [COALESCE(x, d)]. *)
Definition coalesce (x : option string) (d : string) : string :=
  match x with Some s => s | None => d end.

(** [x IN (?, ?, ...)] against the bound ear tags. *)
Definition sql_in (x : option string) (tags : list string) : bool :=
  match x with
  | Some s => existsb (String.eqb s) tags
  | None => false
  end.

(** [x >= ?] on TEXT. *)
Definition sql_ge (x : option string) (bound : string) : bool :=
  match x with
  | Some s => str_leb bound s
  | None => false
  end.

(** The values of a nullable column that are not NULL. *)
Definition non_null {A : Type} (xs : list (option A)) : list A :=
  flat_map (fun x => match x with Some v => [v] | None => [] end) xs.

(** [SUM(x)] over a REAL column: NULL when no row has a value. *)
Definition sql_sum `{Runtime} (xs : list (option Q)) : option Q :=
  match non_null xs with
  | [] => None
  | vs => Some (real_sum vs)
  end.

Definition option_string_dec (a b : option string) : {a = b} + {a <> b}.
Proof. decide equality. apply string_dec. Defined.

Definition option_Z_dec (a b : option Z) : {a = b} + {a <> b}.
Proof. decide equality. apply Z.eq_dec. Defined.

(** ** Filter resolver: [get_filtered_ear_tags] *)

(** The issue rows joined to an animal by
    [a.farm_name = i.farm_name AND a.ear_tag = i.ear_tag]. *)
Definition events_of (db : store) (a : animal) : list issue :=
  filter (fun i => sql_eq (a_farm_name a) (i_farm_name i)
                   && sql_eq (a_ear_tag a) (i_ear_tag i)) (issues db).

(** The rows that [animals a LEFT JOIN issue i ON ...] makes of one animal:
    one per matching issue row, or one with a NULL issue side. *)
Definition joined_rows (db : store) (a : animal) : list (animal * option issue) :=
  match events_of db a with
  | [] => [(a, None)]
  | es => map (fun i => (a, Some i)) es
  end.

Definition left_join_issue (db : store) : list (animal * option issue) :=
  flat_map (joined_rows db) (animals db).

(** [i.event_status] of a joined row (NULL on the NULL side). *)
Definition joined_status (row : animal * option issue) : option string :=
  match snd row with
  | Some i => i_event_status i
  | None => None
  end.

(** [WHERE a.farm_name=? AND COALESCE(i.event_status, 'owned') = ?]. *)
Definition scope_where (farm status : string) (row : animal * option issue) : bool :=
  sql_eq (a_farm_name (fst row)) (Some farm)
  && String.eqb (coalesce (joined_status row) "owned") status.

(** [[row[0] for row in rows if row[0]]]: [None] and [""] are falsy. *)
Definition truthy_tags (rows : list (option string)) : list string :=
  flat_map (fun t => match t with
                     | Some s => if String.eqb s "" then [] else [s]
                     | None => []
                     end) rows.

Definition get_filtered_ear_tags (db : store) (farm status : string) : list string :=
  let rows :=
    if negb (String.eqb status "Total") then
      map (fun row => a_ear_tag (fst row))
          (order_by null_leb (fun row => a_ear_tag (fst row))
             (filter (scope_where farm status) (left_join_issue db)))
    else
      map a_ear_tag
          (order_by null_leb a_ear_tag
             (filter (fun a => sql_eq (a_farm_name a) (Some farm)) (animals db)))
  in
  truthy_tags rows.

Definition get_total_animals_filtered (db : store) (farm status : string) : nat :=
  length (get_filtered_ear_tags db farm status).

(** ** Scope-based aggregations *)

(** The milk-yield rows of the scope: [WHERE ear_tag IN (...)]. *)
Definition scope_yields (db : store) (ear_tags : list string) : list milk_yield :=
  filter (fun m => sql_in (m_ear_tag m) ear_tags) (milk_yields db).

Definition get_farm_total_milk_yield_filtered `{Runtime} (db : store)
  (farm status : string) : Q :=
  let ear_tags := get_filtered_ear_tags db farm status in
  match ear_tags with
  | [] => 0%Q
  | _ =>
      match sql_sum (map m_yield_value (scope_yields db ear_tags)) with
      | Some total => total
      | None => 0%Q
      end
  end.

Definition get_farm_total_lactation_days_filtered (db : store) (farm status : string) : nat :=
  let ear_tags := get_filtered_ear_tags db farm status in
  match ear_tags with
  | [] => 0%nat
  | _ =>
      length (nodup string_dec
                (non_null (map m_record_date (scope_yields db ear_tags))))
  end.

(** [rows.sort(key=lambda x: x[0])] on the grouped rows: Python refuses to
    compare [None] with an integer, so a NULL year among two rows or more
    raises [TypeError]; the function reports it and returns []. *)
Definition sort_by_year (rows : list (option Z * option Q)) : option (list (option Z * option Q)) :=
  if existsb (fun row => match fst row with None => true | Some _ => false end) rows
     && (2 <=? length rows)%nat
  then None
  else Some (order_by nullz_leb fst rows).

Definition get_farm_milk_yield_by_year_filtered `{Runtime} (db : store)
  (farm status : string) : list (option Z * option Q) :=
  let ear_tags := get_filtered_ear_tags db farm status in
  match ear_tags with
  | [] => []
  | _ =>
      let sel := scope_yields db ear_tags in
      let years := nodup option_Z_dec (map m_record_year sel) in
      let rows :=
        map (fun y =>
               (y, sql_sum (map m_yield_value
                              (filter (fun m => if option_Z_dec (m_record_year m) y
                                                then true else false) sel))))
            years in
      match sort_by_year rows with
      | Some sorted => sorted
      | None => []
      end
  end.

(** [animal_id IN (SELECT id FROM animals WHERE ear_tag IN (...))]. *)
Definition id_in_scope (db : store) (ear_tags : list string) (aid : option Z) : bool :=
  existsb (fun a => sql_in (a_ear_tag a) ear_tags && sql_eqz aid (Some (a_id a)))
          (animals db).

(** [lower(delivery_status) = 'abortion']. *)
Definition is_abortion (r : repro) : bool :=
  match r_delivery_status r with
  | Some s => String.eqb (lower s) "abortion"
  | None => false
  end.

Definition get_farm_abortion_count_filtered (db : store) (farm status : string) : nat :=
  let ear_tags := get_filtered_ear_tags db farm status in
  match ear_tags with
  | [] => 0%nat
  | _ =>
      length (filter (fun r => id_in_scope db ear_tags (r_animal_id r) && is_abortion r)
                     (repros db))
  end.

(** ** Heifer count *)

(** [a < b] on rationals, as a boolean. *)
Definition Qltb (a b : Q) : bool := negb (Qle_bool b a).

(** [(today - birth_date).days / 30.5].  The report divides in floating
    point; for a whole number of days the comparison with 24 comes out as
    the exact one does, the correctly rounded quotient being monotone in
    the number of days and 732 / 30.5 being exactly 24. *)
Definition age_months (today birth_date : date) : Q :=
  (inject_Z (days_between today birth_date) / (61 # 2))%Q.

(** One turn of the counting loop; a failed parse is the [continue] of the
    inner [except]. *)
Definition heifer_step `{Runtime} (today : date) (count : nat)
  (birth_date_str : option string) : nat :=
  match birth_date_str with
  | Some s =>
      if negb (String.eqb s "") && negb (String.eqb (strip s) "") then
        match strptime_ymd s with
        | Some birth_date =>
            if Qltb (age_months today birth_date) (24 # 1) then S count else count
        | None => count
        end
      else count
  | None => count
  end.

Definition get_heifer_count `{Runtime} (db : store) (today : date) (farm : string) : nat :=
  let rows :=
    map a_birth_date
        (filter (fun a => sql_eq (a_farm_name a) (Some farm)
                          && sql_eq (a_gender a) (Some "F"%string))
                (animals db)) in
  fold_left (heifer_step today) rows 0%nat.

(** ** Classifiers *)

(** The strings "Open", "Pregnant", "Mating" the diagnosis returns. *)
Inductive diagnosis := Open | Pregnant | Mating.

(** The strings "Fattening", "Milking", "Dry" the category returns. *)
Inductive category := Fattening | Milking | Dry.

(** [SELECT ... FROM animals WHERE ear_tag=?] followed by [fetchone()]. *)
Definition find_animal (db : store) (ear_tag : string) : option animal :=
  hd_error (filter (fun a => sql_eq (a_ear_tag a) (Some ear_tag)) (animals db)).

(** [gender != "F"] is true of a NULL gender too. *)
Definition gender_is_F (a : animal) : bool :=
  match a_gender a with
  | Some g => String.eqb g "F"
  | None => false
  end.

(** The reproduction rows of an animal: [WHERE animal_id=?]. *)
Definition repros_of (db : store) (a : animal) : list repro :=
  filter (fun r => sql_eqz (r_animal_id r) (Some (a_id a))) (repros db).

(** [ORDER BY breeding_date DESC LIMIT 1]. *)
Definition latest_repro (db : store) (a : animal) : option repro :=
  hd_error (order_by (desc null_leb) r_breeding_date (repros_of db a)).

(** The marker of a confirmed pregnancy. *)
Definition PREGNANT_MARKER : string := "임신".

(** [x and x.strip() != ""]. *)
Definition not_blank `{Runtime} (x : option string) : bool :=
  match x with
  | Some s => negb (String.eqb s "") && negb (String.eqb (strip s) "")
  | None => false
  end.

(** [x and x.strip() == marker]. *)
Definition stripped_is `{Runtime} (x : option string) (marker : string) : bool :=
  match x with
  | Some s => negb (String.eqb s "") && String.eqb (strip s) marker
  | None => false
  end.

Definition compute_breeding_diagnosis `{Runtime} (db : store) (ear_tag : string)
  : diagnosis :=
  match find_animal db ear_tag with
  | None => Open
  | Some a =>
      if negb (gender_is_F a) then Open
      else
        match latest_repro db a with
        | None => Mating
        | Some r =>
            if not_blank (r_calving_date r) then Open
            else if stripped_is (r_pregnancy_status r) PREGNANT_MARKER then Pregnant
            else Mating
        end
  end.

(** The lactation rows of an animal: [WHERE animal_id=?]. *)
Definition lactations_of (db : store) (a : animal) : list lactation :=
  filter (fun l => sql_eqz (l_animal_id l) (Some (a_id a))) (lactations db).

(** [ORDER BY period DESC LIMIT 1]. *)
Definition latest_lactation (db : store) (a : animal) : option lactation :=
  hd_error (order_by (desc null_leb) l_period (lactations_of db a)).

Definition TILDE : ascii := "~"%char.

(** The category read off the period string.  Unpacking a split of other
    than two parts raises [ValueError], which the outer handler turns
    into "Fattening". *)
Definition category_of_period `{Runtime} (today : date) (period : string) : category :=
  if negb (contains TILDE period) then Fattening
  else
    match split_on TILDE period with
    | [_; end_str] =>
        match strptime_ymd (strip end_str) with
        | None => Fattening
        | Some end_date =>
            let gap := days_between today end_date in
            if gap <=? 10 then Milking else Dry
        end
    | _ => Fattening
    end.

Definition compute_animal_category `{Runtime} (db : store) (today : date)
  (ear_tag : string) : category :=
  match find_animal db ear_tag with
  | None => Fattening
  | Some a =>
      match latest_lactation db a with
      | None => Fattening
      | Some row =>
          match l_period row with
          | None => Fattening
          | Some period =>
              if String.eqb period "" then Fattening
              else category_of_period today period
          end
      end
  end.

(** ** Average parity *)

(** What the report shows: the sentinel "-" or the mean (which the report
    prints with one decimal). *)
Inductive parity_summary := NoParityData | AverageParity (mean : Q).

(** [repro r JOIN animals a ON r.animal_id = a.id
     WHERE a.gender='F' AND r.parity IS NOT NULL]. *)
Definition parity_rows (db : store) : list (repro * animal) :=
  filter (fun ra => sql_eq (a_gender (snd ra)) (Some "F"%string)
                    && match r_parity (fst ra) with Some _ => true | None => false end)
         (flat_map (fun r =>
                      map (fun a => (r, a))
                          (filter (fun a => sql_eqz (r_animal_id r) (Some (a_id a)))
                                  (animals db)))
                   (repros db)).

(** [SELECT r.parity ... GROUP BY a.id]: one parity per group, read from
    the row SQLite picks for the bare column. *)
Definition parity_samples `{Runtime} (db : store) : list Z :=
  let rows := parity_rows db in
  let ids := nodup Z.eq_dec (map (fun ra => a_id (snd ra)) rows) in
  flat_map (fun id =>
              match bare_row _ (filter (fun ra => a_id (snd ra) =? id) rows) with
              | Some ra => match r_parity (fst ra) with Some p => [p] | None => [] end
              | None => []
              end) ids.

(** [AVG(parity)]: NULL over no rows. *)
Definition sql_avg (xs : list Z) : option Q :=
  match xs with
  | [] => None
  | _ => Some (inject_Z (fold_left Z.add xs 0%Z) / inject_Z (Z.of_nat (length xs)))%Q
  end.

(** [if row and row[0]]: the average is shown when it is truthy. *)
Definition get_average_parity `{Runtime} (db : store) : parity_summary :=
  match sql_avg (parity_samples db) with
  | Some mean => if Qeq_bool mean 0 then NoParityData else AverageParity mean
  | None => NoParityData
  end.

(** ** Trailing 12-month series *)

(** The rows of
    [SELECT strftime('%Y-%m', record_date) as month, SUM(yield_value)
       FROM milk_yield WHERE ear_tag IN (...) AND record_date>=?
      GROUP BY month ORDER BY month]. *)
Definition monthly_rows `{Runtime} (db : store) (ear_tags : list string)
  (start_date_str : string) : list (option string * option Q) :=
  let sel := filter (fun m => sql_ge (m_record_date m) start_date_str)
                    (scope_yields db ear_tags) in
  let month_of m := sqlite_month (m_record_date m) in
  let keys := order_by null_leb (fun k => k)
                (nodup option_string_dec (map month_of sel)) in
  map (fun k =>
         (k, sql_sum (map m_yield_value
                        (filter (fun m => if option_string_dec (month_of m) k
                                          then true else false) sel))))
      keys.

(** [data = {m: total for m, total in rows}] then [data[m]], [None] when
    [m not in data]: the last row of a key is the one the dict keeps. *)
Definition dict_get (rows : list (option string * option Q)) (m : string)
  : option (option Q) :=
  fold_left (fun found row =>
               if option_string_dec (fst row) (Some m) then Some (snd row) else found)
            rows None.

(** [values[idx] = v]. *)
Fixpoint list_set {A : Type} (idx : nat) (v : A) (l : list A) : list A :=
  match l, idx with
  | [], _ => []
  | _ :: t, O => v :: t
  | h :: t, S i => h :: list_set i v t
  end.

(** The twelve dates [today - timedelta(days=(11 - i) * 30)], [i] from 0. *)
Fixpoint month_dates (today : date) (idxs : list Z) : option (list date) :=
  match idxs with
  | [] => Some []
  | i :: rest =>
      match date_sub_days today ((11 - i) * 30) with
      | None => None
      | Some d =>
          match month_dates today rest with
          | None => None
          | Some ds => Some (d :: ds)
          end
      end
  end.

Definition RANGE12 : list Z := [0; 1; 2; 3; 4; 5; 6; 7; 8; 9; 10; 11].

(** [enumerate(months)]. *)
Definition enumerate {A : Type} (l : list A) : list (nat * A) :=
  combine (seq 0 (length l)) l.

(** The second loop: a month found in [data] overwrites its slot. *)
Definition fill_values (rows : list (option string * option Q))
  (months : list string) (values : list (option Q)) : list (option Q) :=
  fold_left (fun vals im =>
               match dict_get rows (snd im) with
               | Some v => list_set (fst im) v vals
               | None => vals
               end) (enumerate months) values.

(** The outcome of the series construction: nothing ([return None]); the
    figure, given by the month labels and the totals it is drawn from;
    the [OverflowError] of a date before year 1; or the [TypeError] of
    the drawing code, which is outside the [try] and refuses a total that
    is [None] ([fill_between], and [max] and [round] after it).  How
    matplotlib renders the two lists is not modelled. *)
Inductive trend :=
| NoFigure
| Figure (months : list string) (values : list (option Q))
| DateOverflow
| DrawingTypeError.

(** A total that is a number. *)
Definition is_number (v : option Q) : bool :=
  match v with Some _ => true | None => false end.

(** What follows the query: the two loops over the twelve dates, then
    the drawing of the two lists. *)
Definition build_series (rows : list (option string * option Q)) (ds : list date)
  : trend :=
  let months := map strftime_ym ds in
  let values := fill_values rows months (map (fun _ => Some 0%Q) ds) in
  if forallb is_number values then Figure months values else DrawingTypeError.

Definition plot_farm_milk_yield_trend_filtered `{Runtime} (db : store)
  (today : date) (farm status : string) : trend :=
  let ear_tags := get_filtered_ear_tags db farm status in
  match ear_tags with
  | [] => NoFigure
  | _ =>
      match date_sub_days today 365 with
      | None => DateOverflow
      | Some start_date =>
          let rows := monthly_rows db ear_tags (strftime_ymd start_date) in
          match month_dates today RANGE12 with
          | None => DateOverflow
          | Some ds => build_series rows ds
          end
      end
  end.

(** ** The status the specification reads off the events *)

(** [ORDER BY event_date DESC LIMIT 1] over the events of an animal. *)
Definition latest_event (db : store) (a : animal) : option issue :=
  hd_error (order_by (desc null_leb) i_event_date (events_of db a)).

(** Effective status: the status of the latest ownership event, "owned"
    for an animal without events (and for a NULL status, as [COALESCE]
    reads it). *)
Definition effective_status (db : store) (a : animal) : string :=
  match latest_event db a with
  | Some e => coalesce (i_event_status e) "owned"
  | None => "owned"%string
  end.

(** An animal has the status through some joined row. *)
Definition has_status (db : store) (a : animal) (status : string) : Prop :=
  (events_of db a = [] /\ status = "owned"%string) \/
  (exists e, In e (events_of db a) /\ coalesce (i_event_status e) "owned" = status).

(** The number of joined rows of an animal that carry the status. *)
Definition status_hits (db : store) (status : string) (a : animal) : nat :=
  match events_of db a with
  | [] => if String.eqb status "owned" then 1%nat else 0%nat
  | es => length (filter (fun e => String.eqb (coalesce (i_event_status e) "owned") status) es)
  end.

(** The animal is of the farm and wears the tag. *)
Definition wears (farm tag : string) (a : animal) : bool :=
  sql_eq (a_farm_name a) (Some farm) && sql_eq (a_ear_tag a) (Some tag).

(** The non-empty ear tags of a farm, in storage order. *)
Definition farm_tags (db : store) (farm : string) : list string :=
  truthy_tags (map a_ear_tag
                 (filter (fun a => sql_eq (a_farm_name a) (Some farm)) (animals db))).

(** [n] is the number of rows of [l] that satisfy [P]. *)
Inductive counts {A : Type} (P : A -> Prop) : list A -> nat -> Prop :=
| counts_nil : counts P [] 0
| counts_hit x l n : P x -> counts P l n -> counts P (x :: l) (S n)
| counts_miss x l n : ~ P x -> counts P l n -> counts P (x :: l) n.


(** ** A reference runtime

    A plain implementation of the interface, for running the program on
    concrete stores: ASCII white space is stripped, a date is parsed from
    exactly [YYYY-MM-DD], the first row of a group supplies its bare
    columns, and a total is the exact sum, which is what SQLite returns
    for the halves and whole numbers of the sample stores. *)

Definition is_space (c : ascii) : bool :=
  let n := N_of_ascii c in
  (((9 <=? n) && (n <=? 13)) || ((28 <=? n) && (n <=? 32)))%N.

Fixpoint lstrip (s : string) : string :=
  match s with
  | EmptyString => EmptyString
  | String c s' => if is_space c then lstrip s' else s
  end.

Fixpoint rstrip (s : string) : string :=
  match s with
  | EmptyString => EmptyString
  | String c s' =>
      match rstrip s' with
      | EmptyString => if is_space c then EmptyString else String c EmptyString
      | r => String c r
      end
  end.

Definition strip_ascii (s : string) : string := rstrip (lstrip s).

Definition digit_value (c : ascii) : option Z :=
  let n := N_of_ascii c in
  if ((48 <=? n) && (n <=? 57))%N then Some (Z.of_N n - 48) else None.

Fixpoint digits_value (acc : Z) (cs : list ascii) : option Z :=
  match cs with
  | [] => Some acc
  | c :: cs' =>
      match digit_value c with
      | Some v => digits_value (acc * 10 + v) cs'
      | None => None
      end
  end.

Definition valid_dateb (d : date) : bool :=
  (1 <=? year d) && (year d <=? 9999) && (1 <=? month d) && (month d <=? 12)
  && (1 <=? day d) && (day d <=? days_in_month (year d) (month d)).

Definition parse_iso_date (s : string) : option date :=
  match list_ascii_of_string s with
  | [y1; y2; y3; y4; h1; m1; m2; h2; d1; d2] =>
      if Ascii.eqb h1 "-" && Ascii.eqb h2 "-" then
        match digits_value 0 [y1; y2; y3; y4], digits_value 0 [m1; m2],
              digits_value 0 [d1; d2] with
        | Some y, Some m, Some d =>
            if valid_dateb (mkdate y m d) then Some (mkdate y m d) else None
        | _, _, _ => None
        end
      else None
  | _ => None
  end.

Definition iso_month (x : option string) : option string :=
  match x with
  | Some s => option_map strftime_ym (parse_iso_date s)
  | None => None
  end.

Definition exact_sum (vs : list Q) : Q :=
  match vs with
  | [] => 0%Q
  | v :: rest => fold_left Qplus rest v
  end.

Definition reference_runtime : Runtime := {|
  strip := strip_ascii;
  strptime_ymd := parse_iso_date;
  sqlite_month := iso_month;
  real_sum := exact_sum;
  bare_row := fun A => @hd_error A;
  bare_row_In := fun A g x =>
    match g return hd_error g = Some x -> In x g with
    | [] => fun E => match E in _ = o return match o with None => True | Some _ => _ end
                     with eq_refl => I end
    | y :: _ => fun E => or_introl (f_equal (fun o => match o with Some z => z | None => y end) E)
    end;
  bare_row_nonempty := fun A g =>
    match g return g <> [] -> hd_error g <> None with
    | [] => fun H _ => H eq_refl
    | y :: _ => fun _ E =>
        match E in _ = o return match o with None => False | Some _ => True end
        with eq_refl => I end
    end
|}.

(** ** The resolver as the specification words it

    The scope of a status, read literally: the ear tags of the animals of
    the farm whose effective status is the status, ascending, each once. *)
Definition scope_as_specified (db : store) (farm status : string) (r : list string) : Prop :=
  StronglySorted (fun a b => str_leb a b = true) r /\
  NoDup r /\
  forall t, In t r <->
            exists a, In a (animals db) /\ a_farm_name a = Some farm /\
                      a_ear_tag a = Some t /\ effective_status db a = status.

(** ** Sample stores *)

Definition mk_animal (id : Z) (tag farm gender birth : string) : animal :=
  {| a_id := id; a_ear_tag := Some tag; a_farm_name := Some farm;
     a_gender := Some gender; a_birth_date := Some birth |}.

Definition mk_issue (farm tag status day : string) : issue :=
  {| i_farm_name := Some farm; i_ear_tag := Some tag;
     i_event_status := Some status; i_event_date := Some day |}.


(** One animal, sold in January and dead in February. *)
Definition sold_then_dead_store : store :=
  {| animals := [mk_animal 1 "A1" "Sunrise" "F" "2022-01-05"];
     issues := [mk_issue "Sunrise" "A1" "Sell" "2024-01-10";
                mk_issue "Sunrise" "A1" "Dead" "2024-02-20"];
     repros := []; lactations := []; milk_yields := [] |}.

(** Three animals of one farm: one sold, two without any event. *)
Definition sunrise_store : store :=
  {| animals := [mk_animal 1 "A2" "Sunrise" "F" "2023-05-20";
                 mk_animal 2 "A1" "Sunrise" "F" "2021-09-01";
                 mk_animal 3 "A3" "Sunrise" "Bull" "2020-03-15"];
     issues := [mk_issue "Sunrise" "A3" "Sell" "2024-02-01"];
     repros := []; lactations := []; milk_yields := [] |}.

(** A reproduction row with the given delivery status, the other columns
    NULL. *)
Definition mk_delivery (aid : Z) (bred status : string) : repro :=
  {| r_animal_id := Some aid; r_breeding_date := Some bred; r_parity := None;
     r_pregnancy_status := None; r_delivery_status := Some status;
     r_calving_date := None |}.

(** Two farms that both have an animal with the ear tag T1; the one of
    Hillside aborted. *)
Definition shared_tag_store : store :=
  {| animals := [mk_animal 1 "T1" "Sunrise" "F" "2021-04-01";
                 mk_animal 2 "T1" "Hillside" "F" "2021-06-01"];
     issues := [];
     repros := [mk_delivery 2 "2023-08-01" "Abortion"];
     lactations := []; milk_yields := [] |}.

(** The abortion count as the specification words it: the aborted
    reproduction records of the animals of the farm that are in scope. *)
Definition abortions_as_specified (db : store) (farm status : string) (n : nat) : Prop :=
  counts (fun r =>
            (exists s, r_delivery_status r = Some s /\ lower s = "abortion"%string) /\
            exists a t, In a (animals db) /\ a_farm_name a = Some farm /\
                        a_ear_tag a = Some t /\
                        In t (get_filtered_ear_tags db farm status) /\
                        r_animal_id r = Some (a_id a))
         (repros db) n.

(** ** Order, calendar and lookup as the specification reads them

    The notions below are written without the program's own functions:
    they say what is computed, whichever way the program computes it. *)

(** Bytewise order on TEXT, a proper prefix first. *)
Inductive bytes_le : string -> string -> Prop :=
| bytes_le_empty s : bytes_le EmptyString s
| bytes_le_lt c1 c2 s1 s2 :
    (N_of_ascii c1 < N_of_ascii c2)%N -> bytes_le (String c1 s1) (String c2 s2)
| bytes_le_eq c s1 s2 : bytes_le s1 s2 -> bytes_le (String c s1) (String c s2).

(** The same with NULL before every value. *)
Definition text_le (a b : option string) : Prop :=
  match a, b with
  | None, _ => True
  | Some _, None => False
  | Some x, Some y => bytes_le x y
  end.

(** The Gregorian calendar: a year is a leap year when it is divisible by
    4 and not by 100, or divisible by 400. *)
Definition leap_year (y : Z) : bool :=
  ((y mod 4 =? 0) && negb (y mod 100 =? 0)) || (y mod 400 =? 0).

Definition month_length (y m : Z) : Z :=
  if m =? 2 then (if leap_year y then 29 else 28)
  else if (m =? 4) || (m =? 6) || (m =? 9) || (m =? 11) then 30
  else 31.

(** A day of the calendar. *)
Definition calendar_date (d : date) : Prop :=
  1 <= month d <= 12 /\ 1 <= day d <= month_length (year d) (month d).

(** The day after. *)
Definition tomorrow (d : date) : date :=
  if day d <? month_length (year d) (month d) then mkdate (year d) (month d) (day d + 1)
  else if month d <? 12 then mkdate (year d) (month d + 1) 1
  else mkdate (year d + 1) 1 1.

(** [d'] is [k] days after [d]; before it when [k] is negative. *)
Definition days_apart (d d' : date) (k : Z) : Prop :=
  (0 <= k /\ Nat.iter (Z.to_nat k) tomorrow d = d') \/
  (k < 0 /\ Nat.iter (Z.to_nat (- k)) tomorrow d' = d).

(** The animal row is the first one, in storage order, that carries the
    ear tag. *)
Definition first_with_tag (db : store) (ear_tag : string) (a : animal) : Prop :=
  exists before after,
    animals db = before ++ a :: after /\
    a_ear_tag a = Some ear_tag /\
    forall b, In b before -> a_ear_tag b <> Some ear_tag.

(** ** The classifiers as the specification words them *)

(** A text value that is NULL, empty or white space only. *)
Definition is_blank `{Runtime} (x : option string) : Prop :=
  forall s, x = Some s -> s = ""%string \/ strip s = ""%string.

(** A non-empty text value that is the marker once stripped. *)
Definition reads_as `{Runtime} (x : option string) (marker : string) : Prop :=
  exists s, x = Some s /\ s <> ""%string /\ strip s = marker.

(** A reproduction record of the animal. *)
Definition record_of (db : store) (a : animal) (r : repro) : Prop :=
  In r (repros db) /\ r_animal_id r = Some (a_id a).

(** A reproduction record of the animal with the maximum breeding date. *)
Definition is_latest_repro (db : store) (a : animal) (r : repro) : Prop :=
  record_of db a r /\
  forall r', record_of db a r' -> text_le (r_breeding_date r') (r_breeding_date r).

(** The diagnosis read literally: "Open" on a non-empty calving date,
    "Pregnant" on a pregnancy status equal to the marker. *)
Definition diagnosis_as_specified (db : store) (a : animal) (d : diagnosis) : Prop :=
  (a_gender a <> Some "F"%string -> d = Open) /\
  (a_gender a = Some "F"%string -> (forall r, ~ record_of db a r) -> d = Mating) /\
  (a_gender a = Some "F"%string -> (exists r, record_of db a r) ->
   exists r, is_latest_repro db a r /\
     ((exists s, r_calving_date r = Some s /\ s <> ""%string) -> d = Open) /\
     (~ (exists s, r_calving_date r = Some s /\ s <> ""%string) ->
      r_pregnancy_status r = Some PREGNANT_MARKER -> d = Pregnant) /\
     (~ (exists s, r_calving_date r = Some s /\ s <> ""%string) ->
      r_pregnancy_status r <> Some PREGNANT_MARKER -> d = Mating)).

Definition tilde_free (s : string) : Prop := ~ In TILDE (list_ascii_of_string s).

(** The period reads "<start>~<end>" and its end, stripped, parses to
    the date. *)
Definition end_date_of `{Runtime} (p : option string) (ed : date) : Prop :=
  exists start end_str,
    p = Some (start ++ String TILDE end_str)%string /\
    tilde_free start /\ tilde_free end_str /\
    strptime_ymd (strip end_str) = Some ed.

(** The period value of a lactation row of the animal. *)
Definition period_of (db : store) (a : animal) (p : option string) : Prop :=
  exists l, In l (lactations db) /\ l_animal_id l = Some (a_id a) /\ l_period l = p.

(** The maximum period value among the lactation rows of the animal. *)
Definition is_latest_period (db : store) (a : animal) (p : option string) : Prop :=
  period_of db a p /\ forall q, period_of db a q -> text_le q p.

(** The category read literally, of an animal: "Fattening" without a
    lactation period. *)
Definition category_as_specified (db : store) (a : animal) (c : category) : Prop :=
  (forall p, ~ period_of db a p) -> c = Fattening.

Definition mk_repro (aid : Z) (bred : string) (preg calving : option string) : repro :=
  {| r_animal_id := Some aid; r_breeding_date := Some bred; r_parity := None;
     r_pregnancy_status := preg; r_delivery_status := None;
     r_calving_date := calving |}.

(** A cow whose latest record has a calving date of one space and the
    pregnancy marker. *)
Definition blank_calving_store : store :=
  {| animals := [mk_animal 1 "B1" "Sunrise" "F" "2021-04-01"];
     issues := [];
     repros := [mk_repro 1 "2023-01-01" (Some PREGNANT_MARKER) None;
                mk_repro 1 "2023-06-01" (Some PREGNANT_MARKER) (Some " "%string)];
     lactations := []; milk_yields := [] |}.

(** The two scenarios of the specification: A1 bred twice and pregnant;
    A2 with a lactation period that ended on 2024-01-20. *)
Definition scenario_store : store :=
  {| animals := [mk_animal 1 "A1" "Sunrise" "F" "2021-04-01";
                 mk_animal 2 "A2" "Sunrise" "F" "2021-06-01";
                 mk_animal 3 "A3" "Sunrise" "Bull" "2020-03-15"];
     issues := [];
     repros := [mk_repro 1 "2023-01-01" (Some PREGNANT_MARKER) None;
                mk_repro 1 "2023-06-01" (Some PREGNANT_MARKER) None];
     lactations := [{| l_animal_id := Some 2;
                       l_period := Some "2024-01-01 ~ 2024-01-20"%string |}];
     milk_yields := [] |}.

(** An ear tag worn on two farms: the cow of Hillside, stored first, has
    a lactation period that ended on 2024-01-20 and was never bred; the
    cow of Sunrise is pregnant and has no lactation period. *)
Definition shared_tag_dairy_store : store :=
  {| animals := [mk_animal 1 "T1" "Hillside" "F" "2020-02-01";
                 mk_animal 2 "T1" "Sunrise" "F" "2021-06-01"];
     issues := [];
     repros := [mk_repro 2 "2023-06-01" (Some PREGNANT_MARKER) None];
     lactations := [{| l_animal_id := Some 1;
                       l_period := Some "2024-01-01 ~ 2024-01-20"%string |}];
     milk_yields := [] |}.

(** ** The heifer of the specification *)

(** A female animal of the farm whose birth date is present, parses, and
    lies a number of days back that, divided by 30.5, is less than 24. *)
Definition is_heifer `{Runtime} (today : date) (farm : string) (a : animal) : Prop :=
  a_farm_name a = Some farm /\
  a_gender a = Some "F"%string /\
  exists s birth_date days,
    a_birth_date a = Some s /\ s <> ""%string /\ strip s <> ""%string /\
    strptime_ymd s = Some birth_date /\
    days_apart birth_date today days /\
    (inject_Z days / (61 # 2) < 24 # 1)%Q.

(** A heifer bred once, at parity 0. *)
Definition zero_parity_store : store :=
  {| animals := [mk_animal 1 "H1" "Sunrise" "F" "2022-11-02"];
     issues := [];
     repros := [{| r_animal_id := Some 1; r_breeding_date := Some "2024-02-01"%string;
                   r_parity := Some 0; r_pregnancy_status := None;
                   r_delivery_status := None; r_calving_date := None |}];
     lactations := []; milk_yields := [] |}.

(** Whether a fetched birth date makes the loop count its row. *)
Definition counted_birth `{Runtime} (today : date) (x : option string) : bool :=
  match x with
  | Some s =>
      negb (String.eqb s "") && negb (String.eqb (strip s) "")
      && match strptime_ymd s with
         | Some birth_date => Qltb (age_months today birth_date) (24 # 1)
         | None => false
         end
  | None => false
  end.

(** ** The series as the specification words it *)

(** Months counted from year 0: consecutive calendar months have
    consecutive indices. *)
Definition month_index (d : date) : Z := year d * 12 + month d.

(** The first day of the month of an index. *)
Definition month_start (idx : Z) : date :=
  mkdate ((idx - 1) / 12) ((idx - 1) mod 12 + 1) 1.

(** The labels of the twelve calendar months that end at the current
    month, oldest first. *)
Definition trailing_months (today : date) : list string :=
  map (fun i => strftime_ym (month_start (month_index today - 11 + i))) RANGE12.


(** A milk-yield row that the query of the series reads for a month
    label: a row of the scope, recorded on or after the start date as
    TEXT compares, whose record date falls in the month. *)
Definition queried_row `{Runtime} (db : store) (ear_tags : list string)
  (start label : string) (y : milk_yield) : Prop :=
  In y (milk_yields db) /\
  (exists t, m_ear_tag y = Some t /\ In t ear_tags) /\
  (exists s, m_record_date y = Some s /\ bytes_le start s) /\
  sqlite_month (m_record_date y) = Some label.

(** A month of which the query reads rows, none of them with a yield. *)
Definition null_month `{Runtime} (db : store) (ear_tags : list string)
  (start label : string) : Prop :=
  (exists y, queried_row db ear_tags start label y) /\
  forall y, queried_row db ear_tags start label y -> m_yield_value y = None.


Definition mk_yield (tag day : string) (y : Z) (v : Q) : milk_yield :=
  {| m_ear_tag := Some tag; m_record_date := Some day;
     m_record_year := Some y; m_yield_value := Some v |}.

(** Two cows with yields in January and March 2024 and one old record. *)
Definition dairy_store : store :=
  {| animals := [mk_animal 1 "A1" "Sunrise" "F" "2020-02-01";
                 mk_animal 2 "A2" "Sunrise" "F" "2020-08-01"];
     issues := []; repros := []; lactations := [];
     milk_yields := [mk_yield "A1" "2024-03-05" 2024 (41 # 2);
                     mk_yield "A2" "2024-03-10" 2024 (39 # 2);
                     mk_yield "A1" "2024-01-15" 2024 (30 # 1);
                     mk_yield "A1" "2022-06-01" 2022 (25 # 1)] |}.

(** A cow whose only yield row of March 2024 has no value. *)
Definition null_yield_store : store :=
  {| animals := [mk_animal 1 "A1" "Sunrise" "F" "2020-02-01"];
     issues := []; repros := []; lactations := [];
     milk_yields := [mk_yield "A1" "2024-01-15" 2024 (30 # 1);
                     {| m_ear_tag := Some "A1"%string;
                        m_record_date := Some "2024-03-05"%string;
                        m_record_year := Some 2024; m_yield_value := None |}] |}.

(** ** Bull count *)

Definition get_bull_count (db : store) (farm : string) : nat :=
  length (filter (fun a => sql_eq (a_farm_name a) (Some farm)
                           && sql_eq (a_gender a) (Some "Bull"%string))
                 (animals db)).

(** ** Distribution charts *)

(** [dist[key] += 1] on a [defaultdict(int)]: a dict keeps its keys in the
    order of their first insertion. *)
Section Tally.
Context {K : Type} (eqb : K -> K -> bool).

Fixpoint tally_add (k : K) (d : list (K * nat)) : list (K * nat) :=
  match d with
  | [] => [(k, 1%nat)]
  | (k', n) :: d' =>
      if eqb k k' then (k', S n) :: d' else (k', n) :: tally_add k d'
  end.

Definition tally (keys : list K) : list (K * nat) :=
  fold_left (fun d k => tally_add k d) keys [].

End Tally.

Definition diagnosis_eqb (a b : diagnosis) : bool :=
  match a, b with
  | Open, Open | Pregnant, Pregnant | Mating, Mating => true
  | _, _ => false
  end.

Definition category_eqb (a b : category) : bool :=
  match a, b with
  | Fattening, Fattening | Milking, Milking | Dry, Dry => true
  | _, _ => false
  end.

(** The bars of the chart, category and height, in the order the figure
    draws them; [None] is [return None].  The figure itself is not
    modelled. *)
Definition generate_breeding_diagnosis_bar_chart `{Runtime} (db : store)
  (farm status : string) : option (list (diagnosis * nat)) :=
  let ear_tags := get_filtered_ear_tags db farm status in
  match ear_tags with
  | [] => None
  | _ =>
      match tally diagnosis_eqb (map (compute_breeding_diagnosis db) ear_tags) with
      | [] => None
      | bars => Some bars
      end
  end.

Definition generate_category_bar_chart `{Runtime} (db : store) (today : date)
  (farm status : string) : option (list (category * nat)) :=
  let ear_tags := get_filtered_ear_tags db farm status in
  match ear_tags with
  | [] => None
  | _ =>
      match tally category_eqb (map (compute_animal_category db today) ear_tags) with
      | [] => None
      | bars => Some bars
      end
  end.

(** ** Highest parity cow *)

(** The fetched row [(ear_tag, parity)], which the report prints as
    "tag (parity)", or the sentinel "-". *)
Inductive parity_cow := NoParityCow | ParityCow (ear_tag : option string) (parity : option Z).

(** [... ORDER BY r.parity DESC LIMIT 1] over the rows of the parity join. *)
Definition get_highest_parity_cow (db : store) : parity_cow :=
  match hd_error (order_by (desc nullz_leb) (fun ra => r_parity (fst ra))
                    (parity_rows db)) with
  | Some ra => ParityCow (a_ear_tag (snd ra)) (r_parity (fst ra))
  | None => NoParityCow
  end.

(** ** Sire usage, births and calf tags

    The rows of the repro table with the two columns that only these
    functions read. *)
Record repro_usage := {
  u_row : repro;
  u_bull_name : option string;
  u_calf_tag_number : option string
}.

(** [(date.today() - timedelta(days=3*365)).strftime("%Y-%m-%d")]; [None]
    is the [OverflowError], raised inside the [try]. *)
Definition three_years_ago (today : date) : option string :=
  option_map strftime_ymd (date_sub_days today (3 * 365)).

(** The rows of [WHERE breeding_date >= ?]. *)
Definition bred_since (table : list repro_usage) (since : string) : list repro_usage :=
  filter (fun u => sql_ge (r_breeding_date (u_row u)) since) table.

(** The number of rows of a group of [GROUP BY bull_name]. *)
Definition sire_count (rows : list repro_usage) (name : option string) : nat :=
  length (filter (fun u => if option_string_dec (u_bull_name u) name then true else false)
                 rows).

(** [SELECT bull_name, COUNT of rows ... GROUP BY bull_name]: one row for
    each bull name, NULL being a name of its own. *)
Definition sire_groups (table : list repro_usage) (since : string)
  : list (option string * nat) :=
  let rows := bred_since table since in
  map (fun name => (name, sire_count rows name))
      (order_by null_leb (fun k => k)
         (nodup option_string_dec (map u_bull_name rows))).

(** [ORDER BY COUNT DESC]. *)
Definition by_count_desc {A : Type} (rows : list (A * nat)) : list (A * nat) :=
  order_by (desc Nat.leb) snd rows.

(** "name (n times)" or the sentinel "-". *)
Inductive sire_summary := NoSire | TopSire (name : string) (times : nat).

Definition get_top_sire_3y (table : list repro_usage) (today : date) : sire_summary :=
  match three_years_ago today with
  | None => NoSire
  | Some since =>
      match hd_error (by_count_desc (sire_groups table since)) with
      | Some (Some name, n) => if String.eqb name "" then NoSire else TopSire name n
      | _ => NoSire
      end
  end.

(** The lines "name: n times" that are joined by newlines, or the
    sentinel "-". *)
Inductive usage_summary := NoUsage | UsageLines (lines : list (string * nat)).

(** [[... for row in rows if row[0]]]. *)
Definition named_rows (rows : list (option string * nat)) : list (string * nat) :=
  flat_map (fun row => match fst row with
                       | Some name => if String.eqb name "" then [] else [(name, snd row)]
                       | None => []
                       end) rows.

Definition get_top3_sire_usage_3y (table : list repro_usage) (today : date)
  : usage_summary :=
  match three_years_ago today with
  | None => NoUsage
  | Some since =>
      match firstn 3 (by_count_desc (sire_groups table since)) with
      | [] => NoUsage
      | rows => UsageLines (named_rows rows)
      end
  end.

(** [x BETWEEN lo AND hi] on TEXT. *)
Definition sql_between (x : option string) (lo hi : string) : bool :=
  match x with
  | Some s => str_leb lo s && str_leb s hi
  | None => false
  end.

(** [delivery_status = 'Delivery' AND breeding_date BETWEEN
    date('now', '-3 months') AND date('now')]; the two bounds, which
    SQLite computes from its clock, are arguments. *)
Definition recent_delivery (since until : string) (u : repro_usage) : bool :=
  sql_eq (r_delivery_status (u_row u)) (Some "Delivery"%string)
  && sql_between (r_breeding_date (u_row u)) since until.

Definition get_recent_births_count (table : list repro_usage) (since until : string)
  : nat :=
  length (filter (recent_delivery since until) table).

(** [calf_tag_number IS NOT NULL AND calf_tag_number != '']. *)
Definition has_calf_tag (u : repro_usage) : bool :=
  match u_calf_tag_number u with
  | Some s => negb (String.eqb s "")
  | None => false
  end.

Definition get_recent_calf_tags (table : list repro_usage) (since until : string)
  : list (option string) :=
  map u_calf_tag_number
      (filter (fun u => recent_delivery since until u && has_calf_tag u) table).

(** [event_status = ? AND event_date BETWEEN datetime('now', '-3 months')
    AND datetime('now')]. *)
Definition get_issue_count (db : store) (status_value since until : string) : nat :=
  length (filter (fun i => sql_eq (i_event_status i) (Some status_value)
                           && sql_between (i_event_date i) since until)
                 (issues db)).

(** ** Frequent abortion cow *)






(** ** The farms offered in the sidebar *)

(** [SELECT DISTINCT farm_name FROM animals WHERE farm_name != ''
     ORDER BY farm_name], as [main] reads it into [farms]. *)
Definition main_farms (db : store) : list string :=
  order_by str_leb (fun s => s)
    (nodup string_dec
       (flat_map (fun a => match a_farm_name a with
                           | Some s => if String.eqb s "" then [] else [s]
                           | None => []
                           end) (animals db))).

(** ** Predicates used to state the further properties *)

(** A fetched ear tag that the resolver keeps. *)
Definition kept_tag (x : option string) : bool :=
  match x with
  | Some s => negb (String.eqb s "")
  | None => false
  end.

(** The milk-yield row belongs to the scope and has the record date. *)
Definition milked_on (db : store) (ear_tags : list string) (d : string) : Prop :=
  exists m t, In m (milk_yields db) /\ m_ear_tag m = Some t /\ In t ear_tags /\
              m_record_date m = Some d.

(** A cow with a yield row of 2024 and one whose year was never filled
    in. *)
Definition null_year_store : store :=
  {| animals := [mk_animal 1 "A1" "Sunrise" "F" "2020-02-01"];
     issues := []; repros := []; lactations := [];
     milk_yields := [mk_yield "A1" "2024-03-05" 2024 (41 # 2);
                     {| m_ear_tag := Some "A1"%string;
                        m_record_date := Some "2024-03-06"%string;
                        m_record_year := None; m_yield_value := Some (20 # 1)%Q |}] |}.

(** [dist[k]] read back: 0 for a key that was never inserted. *)
Definition tally_get {K : Type} (eqb : K -> K -> bool) (k : K) (d : list (K * nat)) : nat :=
  match find (fun e => eqb k (fst e)) d with
  | Some e => snd e
  | None => 0%nat
  end.

(** A reproduction record with parity [q] of a female animal. *)
Definition parity_record (db : store) (r : repro) (a : animal) (q : Z) : Prop :=
  In r (repros db) /\ In a (animals db) /\
  r_animal_id r = Some (a_id a) /\ a_gender a = Some "F"%string /\
  r_parity r = Some q.

Definition mk_parity (aid : Z) (bred : string) (p : Z) : repro :=
  {| r_animal_id := Some aid; r_breeding_date := Some bred; r_parity := Some p;
     r_pregnancy_status := None; r_delivery_status := None; r_calving_date := None |}.

(** Two cows, of parity 2 and 4, and a bull. *)
Definition two_cows_store : store :=
  {| animals := [mk_animal 1 "A1" "Sunrise" "F" "2019-01-01";
                 mk_animal 2 "A2" "Sunrise" "F" "2018-01-01";
                 mk_animal 3 "A3" "Sunrise" "Bull" "2017-01-01"];
     issues := [];
     repros := [mk_parity 1 "2023-03-01" 2; mk_parity 2 "2023-05-01" 4];
     lactations := []; milk_yields := [] |}.

(** A repro row bred on the day by the bull, with the delivery status and
    the calf tag given. *)
Definition mk_usage (aid : Z) (bred : string) (bull delivery calf : option string)
  : repro_usage :=
  {| u_row := {| r_animal_id := Some aid; r_breeding_date := Some bred;
                 r_parity := None; r_pregnancy_status := None;
                 r_delivery_status := delivery; r_calving_date := None |};
     u_bull_name := bull; u_calf_tag_number := calf |}.

(** Five breedings: three without a bull name, two by the bull Max. *)
Definition unnamed_sire_table : list repro_usage :=
  [mk_usage 1 "2023-05-01" None None None;
   mk_usage 2 "2023-06-01" (Some "Max"%string) None None;
   mk_usage 3 "2023-07-01" None None None;
   mk_usage 4 "2023-08-01" (Some "Max"%string) None None;
   mk_usage 5 "2023-09-01" None None None].

(** Breedings of which none names the bull. *)
Definition anonymous_sire_table : list repro_usage :=
  [mk_usage 1 "2023-05-01" None None None;
   mk_usage 2 "2023-06-01" (Some ""%string) None None].

(** Deliveries of the last months, one of them without a calf tag. *)
Definition delivery_table : list repro_usage :=
  [mk_usage 1 "2024-01-10" (Some "Max"%string) (Some "Delivery"%string) (Some "C1"%string);
   mk_usage 2 "2024-02-02" (Some "Max"%string) (Some "Delivery"%string) None;
   mk_usage 3 "2024-02-20" (Some "Rex"%string) (Some "Delivery"%string) (Some ""%string);
   mk_usage 4 "2024-03-01" (Some "Rex"%string) (Some "Abortion"%string) (Some "C4"%string);
   mk_usage 5 "2023-03-01" (Some "Rex"%string) (Some "Delivery"%string) (Some "C5"%string)].

(* ================================================================== *)
(** * Part II. Properties *)
(* ================================================================== *)

(** ** First rows *)

Lemma hd_error_In (A : Type) (g : list A) (x : A) : hd_error g = Some x -> In x g.
Proof. destruct g; simpl; [discriminate|]. intros [= ->]. now left. Qed.

Lemma hd_error_nonempty (A : Type) (g : list A) : g <> [] -> hd_error g <> None.
Proof. destruct g; simpl; congruence. Qed.

(** ** The byte order is a total order *)

Lemma compare_not_gt_trans (a : string) :
  forall b c, String.compare a b <> Gt -> String.compare b c <> Gt ->
              String.compare a c <> Gt.
Proof.
  induction a as [|x a IH]; intros [|y b] [|z c]; simpl; try congruence.
  unfold Ascii.compare.
  destruct (N.compare_spec (N_of_ascii x) (N_of_ascii y)) as [Exy|Lxy|Gxy];
    destruct (N.compare_spec (N_of_ascii y) (N_of_ascii z)) as [Eyz|Lyz|Gyz];
    try congruence; intros Hab Hbc.
  - rewrite Exy, Eyz, N.compare_refl. now apply (IH b c).
  - rewrite Exy. apply N.compare_lt_iff in Lyz. now rewrite Lyz.
  - rewrite <- Eyz. apply N.compare_lt_iff in Lxy. now rewrite Lxy.
  - assert (L : (N_of_ascii x < N_of_ascii z)%N) by lia.
    apply N.compare_lt_iff in L. now rewrite L.
Qed.

Lemma str_leb_not_gt (a b : string) :
  str_leb a b = true <-> String.compare a b <> Gt.
Proof.
  unfold str_leb, String.leb. destruct (String.compare a b); split; congruence.
Qed.

Lemma str_leb_trans (a b c : string) :
  str_leb a b = true -> str_leb b c = true -> str_leb a c = true.
Proof. rewrite !str_leb_not_gt. apply compare_not_gt_trans. Qed.

Lemma str_leb_total (a b : string) : str_leb a b = true \/ str_leb b a = true.
Proof. apply String.leb_total. Qed.

Lemma str_leb_antisym (a b : string) :
  str_leb a b = true -> str_leb b a = true -> a = b.
Proof. apply String.leb_antisym. Qed.

Lemma null_leb_trans (a b c : option string) :
  null_leb a b = true -> null_leb b c = true -> null_leb a c = true.
Proof. destruct a, b, c; simpl; try congruence. apply str_leb_trans. Qed.

Lemma null_leb_total (a b : option string) :
  null_leb a b = true \/ null_leb b a = true.
Proof. destruct a, b; simpl; auto. apply str_leb_total. Qed.

Lemma desc_total {K : Type} (leb : K -> K -> bool) :
  (forall a b, leb a b = true \/ leb b a = true) ->
  forall a b, desc leb a b = true \/ desc leb b a = true.
Proof. intros T a b. unfold desc. destruct (T a b); auto. Qed.

Lemma desc_trans {K : Type} (leb : K -> K -> bool) :
  (forall a b c, leb a b = true -> leb b c = true -> leb a c = true) ->
  forall a b c, desc leb a b = true -> desc leb b c = true -> desc leb a c = true.
Proof. intros T a b c. unfold desc. eauto. Qed.

(** ** ORDER BY sorts and only reorders *)

Section OrderByFacts.
Context {A K : Type} (leb : K -> K -> bool) (key : A -> K).

Lemma insert_row_perm (x : A) (l : list A) :
  Permutation (insert_row leb key x l) (x :: l).
Proof.
  induction l as [|y l IH]; simpl; [reflexivity|].
  destruct (leb (key x) (key y)); [reflexivity|].
  rewrite IH. apply perm_swap.
Qed.

Lemma order_by_perm (l : list A) : Permutation (order_by leb key l) l.
Proof.
  induction l as [|x l IH]; simpl; [constructor|].
  rewrite insert_row_perm. now constructor.
Qed.

Lemma order_by_In (l : list A) (x : A) : In x (order_by leb key l) <-> In x l.
Proof.
  split; apply Permutation_in;
    [apply order_by_perm | apply Permutation_sym, order_by_perm].
Qed.

Lemma order_by_nil_iff (l : list A) : order_by leb key l = [] <-> l = [].
Proof.
  split; intros E.
  - apply Permutation_nil. rewrite <- E. apply order_by_perm.
  - now subst.
Qed.

Hypothesis leb_total : forall a b, leb a b = true \/ leb b a = true.
Hypothesis leb_trans : forall a b c, leb a b = true -> leb b c = true -> leb a c = true.

Lemma insert_row_sorted (x : A) (l : list A) :
  StronglySorted (key_le leb key) l ->
  StronglySorted (key_le leb key) (insert_row leb key x l).
Proof.
  induction 1 as [|y l Hs IH Hy]; simpl.
  - repeat constructor.
  - destruct (leb (key x) (key y)) eqn:E.
    + constructor; [now constructor|].
      constructor; [exact E|].
      eapply Forall_impl; [|exact Hy]. intros z Hz.
      unfold key_le in *. eauto.
    + constructor; [exact IH|].
      assert (Hyx : key_le leb key y x).
      { unfold key_le. destruct (leb_total (key x) (key y)); congruence. }
      eapply Permutation_Forall; [apply Permutation_sym, insert_row_perm|].
      now constructor.
Qed.

Lemma order_by_sorted (l : list A) : StronglySorted (key_le leb key) (order_by leb key l).
Proof.
  induction l as [|x l IH]; simpl; [constructor|].
  now apply insert_row_sorted.
Qed.

(** The first row of the sorted table is a row of the table whose key is
    below every other key. *)
Lemma order_by_head (l : list A) (x : A) :
  hd_error (order_by leb key l) = Some x ->
  In x l /\ forall y, In y l -> leb (key x) (key y) = true.
Proof.
  intros Hh. pose proof (order_by_sorted l) as Hs.
  destruct (order_by leb key l) as [|z rest] eqn:E; [discriminate|].
  injection Hh as ->.
  assert (Hin : forall y, In y l <-> In y (x :: rest)).
  { intros y. rewrite <- E. symmetry. apply order_by_In. }
  split; [apply Hin; now left|].
  intros y Hy. apply Hin in Hy. inversion Hs as [|? ? _ Hall]; subst.
  destruct Hy as [<-|Hy].
  - destruct (leb_total (key x) (key x)); assumption.
  - rewrite Forall_forall in Hall. now apply Hall.
Qed.

End OrderByFacts.

(** ** The calendar *)

Lemma is_leap_cases (y : Z) :
  (is_leap y = true /\ y mod 4 = 0 /\ (y mod 100 <> 0 \/ y mod 400 = 0)) \/
  (is_leap y = false /\ (y mod 4 <> 0 \/ (y mod 100 = 0 /\ y mod 400 <> 0))).
Proof.
  unfold is_leap.
  destruct (Z.eqb_spec (y mod 4) 0), (Z.eqb_spec (y mod 100) 0),
    (Z.eqb_spec (y mod 400) 0); simpl; auto.
Qed.

Lemma days_before_year_succ (y : Z) :
  days_before_year (y + 1) = days_before_year y + 365 + b2z (is_leap y).
Proof.
  unfold days_before_year.
  destruct (is_leap_cases y) as [[-> H]|[-> H]]; unfold b2z;
    replace (y + 1 - 1) with y by lia;
    Z.div_mod_to_equations; lia.
Qed.

Lemma b2z_range (b : bool) : 0 <= b2z b <= 1.
Proof. destruct b; simpl; lia. Qed.

Lemma days_before_year_mono (y y' : Z) :
  y <= y' -> days_before_year y + 365 * (y' - y) <= days_before_year y'.
Proof.
  intros Hle. pattern y'. apply (Zlt_lower_bound_ind _ y); [|exact Hle].
  intros x IH Hx. destruct (Z.eq_dec x y) as [->|Hne]; [lia|].
  specialize (IH (x - 1)). replace x with (x - 1 + 1) at 2 by lia.
  rewrite days_before_year_succ. pose proof (b2z_range (is_leap (x - 1))). lia.
Qed.

Ltac month_cases m :=
  let Hm := fresh "Hm" in
  assert (Hm : m = 1 \/ m = 2 \/ m = 3 \/ m = 4 \/ m = 5 \/ m = 6 \/
               m = 7 \/ m = 8 \/ m = 9 \/ m = 10 \/ m = 11 \/ m = 12) by lia;
  repeat (destruct Hm as [Hm|Hm]); subst m.

Lemma days_in_month_range (y m : Z) :
  1 <= m <= 12 -> 28 <= days_in_month y m <= 31.
Proof.
  intros Hm. unfold days_in_month.
  month_cases m; destruct (is_leap y); simpl; lia.
Qed.

Lemma days_before_month_next (y m : Z) :
  1 <= m < 12 ->
  days_before_month y (m + 1) = days_before_month y m + days_in_month y m.
Proof.
  intros Hm. unfold days_before_month, days_in_month.
  month_cases m; try lia; destruct (is_leap y); simpl; lia.
Qed.

Lemma days_before_month_first (y : Z) : days_before_month y 1 = 0.
Proof. unfold days_before_month. simpl. reflexivity. Qed.

Lemma days_before_month_last (y : Z) :
  days_before_month y 12 + days_in_month y 12 = 365 + b2z (is_leap y).
Proof. unfold days_before_month, days_in_month. destruct (is_leap y); simpl; lia. Qed.

Lemma days_before_month_mono (y m m' : Z) :
  1 <= m -> m < m' -> m' <= 12 ->
  days_before_month y m + days_in_month y m <= days_before_month y m'.
Proof.
  intros H1 Hlt. assert (Hge : m + 1 <= m') by lia. clear Hlt.
  pattern m'. apply (Zlt_lower_bound_ind _ (m + 1)); [|exact Hge].
  intros x IH Hx Hx12.
  destruct (Z.eq_dec x (m + 1)) as [->|Hne].
  - rewrite days_before_month_next; lia.
  - replace x with (x - 1 + 1) by lia.
    rewrite days_before_month_next by lia.
    pose proof (days_in_month_range y (x - 1)).
    specialize (IH (x - 1)). lia.
Qed.

Lemma days_before_month_range (y m : Z) :
  1 <= m <= 12 ->
  0 <= days_before_month y m /\
  days_before_month y m + days_in_month y m <= 365 + b2z (is_leap y).
Proof.
  intros Hm. split.
  - destruct (Z.eq_dec m 1) as [->|Hne]; [rewrite days_before_month_first; lia|].
    pose proof (days_before_month_mono y 1 m).
    pose proof (days_in_month_range y 1). rewrite days_before_month_first in *. lia.
  - destruct (Z.eq_dec m 12) as [->|Hne]; [rewrite days_before_month_last; lia|].
    pose proof (days_before_month_mono y m 12).
    pose proof (days_in_month_range y 12).
    pose proof (days_before_month_last y). lia.
Qed.

(** The ordinal respects the order of the calendar. *)
Lemma ymd2ord_lt (y1 m1 d1 y2 m2 d2 : Z) :
  1 <= m1 <= 12 -> 1 <= d1 <= days_in_month y1 m1 ->
  1 <= m2 <= 12 -> 1 <= d2 <= days_in_month y2 m2 ->
  y1 < y2 \/ (y1 = y2 /\ (m1 < m2 \/ (m1 = m2 /\ d1 < d2))) ->
  ymd2ord y1 m1 d1 < ymd2ord y2 m2 d2.
Proof.
  intros Hm1 Hd1 Hm2 Hd2 Hlt. unfold ymd2ord.
  pose proof (days_before_month_range y1 m1 Hm1) as [L1 U1].
  pose proof (days_before_month_range y2 m2 Hm2) as [L2 U2].
  destruct Hlt as [Hy|[<- [Hm|[<- Hd]]]].
  - pose proof (days_before_year_mono (y1 + 1) y2).
    rewrite days_before_year_succ in *. lia.
  - pose proof (days_before_month_mono y1 m1 m2). lia.
  - lia.
Qed.

Lemma ymd2ord_inj (y1 m1 d1 y2 m2 d2 : Z) :
  1 <= m1 <= 12 -> 1 <= d1 <= days_in_month y1 m1 ->
  1 <= m2 <= 12 -> 1 <= d2 <= days_in_month y2 m2 ->
  ymd2ord y1 m1 d1 = ymd2ord y2 m2 d2 ->
  y1 = y2 /\ m1 = m2 /\ d1 = d2.
Proof.
  intros Hm1 Hd1 Hm2 Hd2 E.
  assert (T : (y1 < y2 \/ (y1 = y2 /\ (m1 < m2 \/ (m1 = m2 /\ d1 < d2)))) \/
              (y2 < y1 \/ (y2 = y1 /\ (m2 < m1 \/ (m2 = m1 /\ d2 < d1)))) \/
              (y1 = y2 /\ m1 = m2 /\ d1 = d2)) by lia.
  destruct T as [T|[T|T]]; [| |exact T].
  - pose proof (ymd2ord_lt y1 m1 d1 y2 m2 d2 Hm1 Hd1 Hm2 Hd2 T). lia.
  - pose proof (ymd2ord_lt y2 m2 d2 y1 m1 d1 Hm2 Hd2 Hm1 Hd1 T). lia.
Qed.

(** The month and the day of a day of the year, checked on every day. *)
Lemma doy2md_table (leapyear : bool) :
  forallb (fun k =>
             let n := Z.of_nat k in
             let m := fst (doy2md leapyear n) in
             let d := snd (doy2md leapyear n) in
             (1 <=? m) && (m <=? 12) && (1 <=? d)
             && (d <=? (if (m =? 2) && leapyear then 29
                        else nth (Z.to_nat m) DAYS_IN_MONTH 0))
             && (nth (Z.to_nat m) DAYS_BEFORE_MONTH 0
                 + b2z ((2 <? m) && leapyear) + d =? n + 1))
          (seq 0 (365 + (if leapyear then 1 else 0))) = true.
Proof. destruct leapyear; vm_compute; reflexivity. Qed.

Lemma doy2md_spec (y n : Z) :
  0 <= n < 365 + b2z (is_leap y) ->
  let m := fst (doy2md (is_leap y) n) in
  let d := snd (doy2md (is_leap y) n) in
  1 <= m <= 12 /\ 1 <= d <= days_in_month y m /\ days_before_month y m + d = n + 1.
Proof.
  intros Hn. pose proof (doy2md_table (is_leap y)) as T.
  rewrite forallb_forall in T. specialize (T (Z.to_nat n)).
  rewrite Z2Nat.id in T by lia.
  assert (Hin : In (Z.to_nat n) (seq 0 (365 + (if is_leap y then 1 else 0)))).
  { apply in_seq. unfold b2z in Hn. destruct (is_leap y); lia. }
  specialize (T Hin). cbv zeta in T.
  rewrite !andb_true_iff in T. destruct T as [[[[T1 T2] T3] T4] T5].
  unfold days_in_month, days_before_month. cbv zeta. lia.
Qed.

(** The year loop of [ord2ymd]: the 400-, 100-, 4- and 1-year cycles. *)
Lemma ord2ymd_cycles (n0 : Z) :
  0 <= n0 ->
  let n400 := n0 / DI400Y in
  let r400 := n0 mod DI400Y in
  let n100 := r400 / DI100Y in
  let r100 := r400 mod DI100Y in
  let n4 := r100 / DI4Y in
  let r4 := r100 mod DI4Y in
  let n1 := r4 / 365 in
  let r1 := r4 mod 365 in
  let y := n400 * 400 + 1 + n100 * 100 + n4 * 4 + n1 in
  0 <= n400 /\ 0 <= n100 <= 4 /\ 0 <= n4 <= 24 /\ 0 <= n1 <= 4 /\ 0 <= r1 < 365 /\
  n0 = DI400Y * n400 + DI100Y * n100 + DI4Y * n4 + 365 * n1 + r1 /\
  (n100 = 4 -> n4 = 0 /\ n1 = 0 /\ r1 = 0) /\
  (n1 = 4 -> r1 = 0 /\ n4 <= 23).
Proof.
  intros H0. cbv zeta. unfold DI400Y, DI100Y, DI4Y.
  Z.div_mod_to_equations. lia.
Qed.

Lemma days_before_year_cycles (a b c e : Z) :
  0 <= b <= 3 -> 0 <= c <= 24 -> 0 <= e <= 3 ->
  days_before_year (a * 400 + 1 + b * 100 + c * 4 + e) =
  146097 * a + 36524 * b + 1461 * c + 365 * e.
Proof.
  intros Hb Hc He. unfold days_before_year.
  Z.div_mod_to_equations. lia.
Qed.

Lemma is_leap_cycles (a b c e : Z) :
  0 <= b <= 3 -> 0 <= c <= 24 -> 0 <= e <= 3 ->
  is_leap (a * 400 + 1 + b * 100 + c * 4 + e) =
  (e =? 3) && (negb (c =? 24) || (b =? 3)).
Proof.
  intros Hb Hc He.
  destruct (is_leap_cases (a * 400 + 1 + b * 100 + c * 4 + e)) as [[-> H]|[-> H]];
    destruct (Z.eqb_spec e 3), (Z.eqb_spec c 24), (Z.eqb_spec b 3); simpl;
    try reflexivity; exfalso; Z.div_mod_to_equations; lia.
Qed.

(** [ord2ymd] returns a date of the calendar whose ordinal is its
    argument. *)
Lemma ord2ymd_spec (n : Z) :
  1 <= n ->
  1 <= year (ord2ymd n) /\
  1 <= month (ord2ymd n) <= 12 /\
  1 <= day (ord2ymd n) <= days_in_month (year (ord2ymd n)) (month (ord2ymd n)) /\
  toordinal (ord2ymd n) = n.
Proof.
  intros Hn. assert (H0 : 0 <= n - 1) by lia.
  pose proof (ord2ymd_cycles (n - 1) H0) as C. cbv zeta in C.
  unfold toordinal, ord2ymd. cbv zeta.
  set (n400 := (n - 1) / DI400Y) in *.
  set (r400 := (n - 1) mod DI400Y) in *.
  set (n100 := r400 / DI100Y) in *.
  set (r100 := r400 mod DI100Y) in *.
  set (n4 := r100 / DI4Y) in *.
  set (r4 := r100 mod DI4Y) in *.
  set (n1 := r4 / 365) in *.
  set (r1 := r4 mod 365) in *.
  clearbody n400 r400 n100 r100 n4 r4 n1 r1.
  unfold DI400Y, DI100Y, DI4Y in C.
  destruct C as [C400 [C100 [C4 [C1 [Cr [Cn [Cc Cy]]]]]]].
  assert (Last : forall b c,
             0 <= b <= 3 -> 0 <= c <= 24 -> (c = 24 -> b = 3) ->
             n = 146097 * n400 + 36524 * b + 1461 * c + 1461 ->
             let y := n400 * 400 + 1 + b * 100 + c * 4 + 3 in
             1 <= y /\ 1 <= 12 <= 12 /\ 1 <= 31 <= days_in_month y 12 /\
             ymd2ord y 12 31 = n).
  { intros b c Hb Hc Hbc Hnn y.
    pose proof (days_before_year_cycles n400 b c 3 Hb Hc ltac:(lia)) as Dy.
    pose proof (is_leap_cycles n400 b c 3 Hb Hc ltac:(lia)) as Ly.
    fold y in Dy, Ly.
    assert (Ly' : is_leap y = true).
    { rewrite Ly. destruct (Z.eqb_spec c 24) as [->|Hc24]; simpl.
      - rewrite (Hbc eq_refl). reflexivity.
      - reflexivity. }
    unfold ymd2ord, days_before_month, days_in_month. rewrite Dy, Ly'.
    change (nth (Z.to_nat 12) DAYS_BEFORE_MONTH 0) with 334.
    change (nth (Z.to_nat 12) DAYS_IN_MONTH 0) with 31.
    change (2 <? 12) with true. change (12 =? 2) with false.
    cbn [andb b2z]. unfold y. lia. }
  destruct (Z.eqb_spec n1 4) as [E1|E1]; [|destruct (Z.eqb_spec n100 4) as [E100|E100]];
    cbn [orb year month day].
  - (* the last day of a leap year, at the end of a 4-year cycle *)
    assert (Hb : 0 <= n100 <= 3).
    { destruct (Z.eq_dec n100 4) as [E|E]; [apply Cc in E; lia|lia]. }
    destruct (Cy E1) as [Hr Hn4].
    replace (n400 * 400 + 1 + n100 * 100 + n4 * 4 + n1 - 1)
      with (n400 * 400 + 1 + n100 * 100 + n4 * 4 + 3) by lia.
    apply (Last n100 n4); lia.
  - (* the last day of a 400-year cycle *)
    destruct (Cc E100) as [Hn4 [Hn1 Hr]].
    replace (n400 * 400 + 1 + n100 * 100 + n4 * 4 + n1 - 1)
      with (n400 * 400 + 1 + 3 * 100 + 24 * 4 + 3) by lia.
    apply (Last 3 24); lia.
  - (* any other day *)
    assert (Hb : 0 <= n100 <= 3) by lia.
    assert (He : 0 <= n1 <= 3) by lia.
    pose proof (days_before_year_cycles n400 n100 n4 n1 Hb C4 He) as Dy.
    pose proof (is_leap_cycles n400 n100 n4 n1 Hb C4 He) as Ly.
    set (y := n400 * 400 + 1 + n100 * 100 + n4 * 4 + n1) in *.
    rewrite <- Ly.
    assert (Hr : 0 <= r1 < 365 + b2z (is_leap y))
      by (pose proof (b2z_range (is_leap y)); lia).
    pose proof (doy2md_spec y r1 Hr) as M. cbv zeta in M.
    destruct M as [Mm [Md Mo]].
    unfold ymd2ord. rewrite Dy. unfold y at 1. lia.
Qed.


Lemma date_eta (d d' : date) :
  year d = year d' -> month d = month d' -> day d = day d' -> d = d'.
Proof. destruct d, d'; simpl; congruence. Qed.



(** ** Order and calendar as the specification reads them *)

Lemma bytes_le_compare (a b : string) :
  bytes_le a b <-> String.compare a b <> Gt.
Proof.
  split.
  - induction 1 as [s|c1 c2 s1 s2 Hlt|c s1 s2 _ IH]; simpl.
    + destruct s; discriminate.
    + unfold Ascii.compare. apply N.compare_lt_iff in Hlt. rewrite Hlt. discriminate.
    + unfold Ascii.compare. rewrite N.compare_refl. exact IH.
  - revert b. induction a as [|x a IH]; intros b; [constructor|].
    destruct b as [|y b]; simpl; [congruence|].
    unfold Ascii.compare.
    destruct (N.compare_spec (N_of_ascii x) (N_of_ascii y)) as [E|L|G].
    + intros Hc. assert (Exy : x = y).
      { rewrite <- (ascii_N_embedding x), <- (ascii_N_embedding y). now rewrite E. }
      subst y. apply bytes_le_eq. now apply IH.
    + intros _. now apply bytes_le_lt.
    + congruence.
Qed.

Lemma str_leb_spec (a b : string) : str_leb a b = true <-> bytes_le a b.
Proof. rewrite str_leb_not_gt. symmetry. apply bytes_le_compare. Qed.

Lemma null_leb_spec (a b : option string) : null_leb a b = true <-> text_le a b.
Proof.
  destruct a as [x|], b as [y|]; simpl.
  - apply str_leb_spec.
  - split; [discriminate|contradiction].
  - split; auto.
  - split; auto.
Qed.

Lemma leap_year_is_leap (y : Z) : leap_year y = is_leap y.
Proof.
  unfold leap_year, is_leap.
  destruct (Z.eqb_spec (y mod 4) 0) as [E4|N4], (Z.eqb_spec (y mod 100) 0) as [E100|N100],
    (Z.eqb_spec (y mod 400) 0) as [E400|N400]; simpl; try reflexivity;
    exfalso; Z.div_mod_to_equations; lia.
Qed.

Lemma month_length_days_in_month (y m : Z) :
  1 <= m <= 12 -> month_length y m = days_in_month y m.
Proof.
  intros Hm. unfold month_length, days_in_month. rewrite leap_year_is_leap.
  month_cases m; destruct (is_leap y); reflexivity.
Qed.

Lemma calendar_date_days_in_month (d : date) :
  calendar_date d <->
  1 <= month d <= 12 /\ 1 <= day d <= days_in_month (year d) (month d).
Proof.
  unfold calendar_date. split; intros [Hm Hd]; (split; [exact Hm|]).
  - now rewrite <- month_length_days_in_month.
  - now rewrite month_length_days_in_month.
Qed.

Lemma valid_date_calendar (d : date) : valid_date d -> calendar_date d.
Proof. intros [_ H]. now apply calendar_date_days_in_month. Qed.

(** The day after a day of the calendar is a day of the calendar, and
    its ordinal is the next one. *)
Lemma tomorrow_spec (d : date) :
  calendar_date d ->
  calendar_date (tomorrow d) /\ toordinal (tomorrow d) = toordinal d + 1.
Proof.
  intros Hc. pose proof Hc as [Hm Hd].
  rewrite (month_length_days_in_month _ _ Hm) in Hd.
  unfold tomorrow. rewrite (month_length_days_in_month _ _ Hm).
  destruct (Z.ltb_spec (day d) (days_in_month (year d) (month d))) as [Hlt|Hge].
  - split.
    + apply calendar_date_days_in_month. cbn [year month day]. lia.
    + unfold toordinal, ymd2ord. cbn [year month day]. lia.
  - destruct (Z.ltb_spec (month d) 12) as [Hm12|Hm12].
    + split.
      * apply calendar_date_days_in_month. cbn [year month day].
        pose proof (days_in_month_range (year d) (month d + 1)). lia.
      * unfold toordinal, ymd2ord. cbn [year month day].
        rewrite days_before_month_next by lia. lia.
    + assert (E12 : month d = 12) by lia. split.
      * apply calendar_date_days_in_month. cbn [year month day].
        pose proof (days_in_month_range (year d + 1) 1). lia.
      * unfold toordinal, ymd2ord. cbn [year month day].
        rewrite days_before_year_succ, days_before_month_first.
        pose proof (days_before_month_last (year d)) as L.
        rewrite E12 in *. lia.
Qed.

Lemma iter_tomorrow (d : date) (n : nat) :
  calendar_date d ->
  calendar_date (Nat.iter n tomorrow d) /\
  toordinal (Nat.iter n tomorrow d) = toordinal d + Z.of_nat n.
Proof.
  intros Hc. induction n as [|n [IHc IHo]].
  - split; [exact Hc|]. cbn [Nat.iter nat_rect]. lia.
  - rewrite Nat.iter_succ.
    generalize dependent (Nat.iter n tomorrow d). intros e IHc IHo.
    destruct (tomorrow_spec e IHc) as [Tc To]. split; [exact Tc|]. lia.
Qed.

Lemma calendar_date_ordinal_inj (d d' : date) :
  calendar_date d -> calendar_date d' -> toordinal d = toordinal d' -> d = d'.
Proof.
  intros Hc Hc' E.
  apply calendar_date_days_in_month in Hc as [Hm Hd].
  apply calendar_date_days_in_month in Hc' as [Hm' Hd'].
  destruct (ymd2ord_inj _ _ _ _ _ _ Hm Hd Hm' Hd' E) as [E1 [E2 E3]].
  now apply date_eta.
Qed.

Lemma iter_tomorrow_reaches (d d' : date) :
  calendar_date d -> calendar_date d' -> toordinal d <= toordinal d' ->
  Nat.iter (Z.to_nat (toordinal d' - toordinal d)) tomorrow d = d'.
Proof.
  intros Hc Hc' Hle.
  destruct (iter_tomorrow d (Z.to_nat (toordinal d' - toordinal d)) Hc) as [Ic Io].
  rewrite Z2Nat.id in Io by lia.
  generalize dependent (Nat.iter (Z.to_nat (toordinal d' - toordinal d)) tomorrow d).
  intros e Ic Io. apply calendar_date_ordinal_inj; [exact Ic|exact Hc'|lia].
Qed.

(** Between days of the calendar, the number of days apart is the
    difference of the ordinals, which is what [(a - b).days] is. *)
Lemma days_apart_ordinal (d d' : date) (k : Z) :
  calendar_date d -> calendar_date d' ->
  (days_apart d d' k <-> k = toordinal d' - toordinal d).
Proof.
  intros Hc Hc'. split.
  - intros [[Hk E]|[Hk E]].
    + destruct (iter_tomorrow d (Z.to_nat k) Hc) as [_ Io].
      rewrite Z2Nat.id in Io by lia.
      generalize dependent (Nat.iter (Z.to_nat k) tomorrow d). intros e E Io.
      subst e. lia.
    + destruct (iter_tomorrow d' (Z.to_nat (- k)) Hc') as [_ Io].
      rewrite Z2Nat.id in Io by lia.
      generalize dependent (Nat.iter (Z.to_nat (- k)) tomorrow d'). intros e E Io.
      subst e. lia.
  - intros ->. unfold days_apart.
    destruct (Z_le_gt_dec (toordinal d) (toordinal d')) as [Hle|Hgt].
    + left. split; [lia|]. now apply iter_tomorrow_reaches.
    + right. split; [lia|].
      replace (- (toordinal d' - toordinal d)) with (toordinal d - toordinal d') by lia.
      apply iter_tomorrow_reaches; (assumption || lia).
Qed.

Lemma days_apart_between (d d' : date) :
  calendar_date d -> calendar_date d' -> days_apart d d' (days_between d' d).
Proof. intros Hc Hc'. now apply days_apart_ordinal. Qed.

(** The reference parser returns days of the calendar only. *)
Lemma parse_iso_date_calendar (s : string) (d : date) :
  parse_iso_date s = Some d -> calendar_date d.
Proof.
  unfold parse_iso_date.
  destruct (list_ascii_of_string s)
    as [|y1 [|y2 [|y3 [|y4 [|h1 [|m1 [|m2 [|h2 [|d1 [|d2 [|x rest]]]]]]]]]]];
    try discriminate.
  destruct (Ascii.eqb h1 "-" && Ascii.eqb h2 "-"); [|discriminate].
  destruct (digits_value 0 [y1; y2; y3; y4]) as [y|]; [|discriminate].
  destruct (digits_value 0 [m1; m2]) as [m|]; [|discriminate].
  destruct (digits_value 0 [d1; d2]) as [dd|]; [|discriminate].
  destruct (valid_dateb (mkdate y m dd)) eqn:V; [|discriminate].
  intros [= <-]. unfold valid_dateb in V. cbn [year month day] in V.
  repeat (apply andb_true_iff in V as [V ?]).
  apply calendar_date_days_in_month. cbn [year month day].
  repeat match goal with H : (_ <=? _) = true |- _ => apply Z.leb_le in H end.
  apply Z.leb_le in V. lia.
Qed.

(** ** Filter resolver *)

Lemma sql_eq_Some (x : option string) (s : string) :
  sql_eq x (Some s) = true <-> x = Some s.
Proof.
  destruct x as [v|]; simpl; [|split; discriminate].
  rewrite String.eqb_eq. split; congruence.
Qed.

Lemma truthy_tags_In (l : list (option string)) (t : string) :
  In t (truthy_tags l) <-> t <> ""%string /\ In (Some t) l.
Proof.
  unfold truthy_tags. rewrite in_flat_map. split.
  - intros [[s|] [Hin Ht]]; [|destruct Ht].
    destruct (String.eqb_spec s ""); [destruct Ht|].
    destruct Ht as [<-|[]]. auto.
  - intros [Hne Hin]. exists (Some t). split; [exact Hin|].
    destruct (String.eqb_spec t ""); [contradiction|now left].
Qed.

Lemma truthy_tags_sorted (l : list (option string)) :
  StronglySorted (fun a b => null_leb a b = true) l ->
  StronglySorted (fun a b => str_leb a b = true) (truthy_tags l).
Proof.
  induction 1 as [|x l Hs IH Hx]; simpl; [constructor|].
  destruct x as [s|]; [|exact IH].
  destruct (String.eqb s ""); [exact IH|]. simpl.
  constructor; [exact IH|].
  rewrite Forall_forall in *. intros t Ht.
  apply truthy_tags_In in Ht as [_ Ht]. exact (Hx _ Ht).
Qed.

Lemma StronglySorted_map {A B : Type} (R : B -> B -> Prop) (f : A -> B) (l : list A) :
  StronglySorted (fun x y => R (f x) (f y)) l -> StronglySorted R (map f l).
Proof.
  induction 1 as [|x l Hs IH Hx]; simpl; constructor; [exact IH|].
  rewrite Forall_forall in *. intros y Hy.
  apply in_map_iff in Hy as [z [<- Hz]]. now apply Hx.
Qed.

Lemma scope_of_status (db : store) (farm status : string) :
  status <> "Total"%string ->
  get_filtered_ear_tags db farm status =
  truthy_tags
    (map (fun row => a_ear_tag (fst row))
       (order_by null_leb (fun row => a_ear_tag (fst row))
          (filter (scope_where farm status) (left_join_issue db)))).
Proof.
  intros Hne. unfold get_filtered_ear_tags.
  destruct (String.eqb_spec status "Total"); [contradiction|reflexivity].
Qed.

Lemma scope_of_total (db : store) (farm : string) :
  get_filtered_ear_tags db farm "Total" =
  truthy_tags
    (map a_ear_tag
       (order_by null_leb a_ear_tag
          (filter (fun a => sql_eq (a_farm_name a) (Some farm)) (animals db)))).
Proof. reflexivity. Qed.

Lemma scope_sorted (db : store) (farm status : string) :
  StronglySorted (fun a b => str_leb a b = true) (get_filtered_ear_tags db farm status).
Proof.
  unfold get_filtered_ear_tags.
  destruct (negb (String.eqb status "Total"));
    apply truthy_tags_sorted, StronglySorted_map;
    apply (order_by_sorted null_leb _ null_leb_total null_leb_trans).
Qed.

Lemma joined_rows_In (db : store) (a : animal) (row : animal * option issue) :
  In row (joined_rows db a) <->
  fst row = a /\
  ((events_of db a = [] /\ snd row = None) \/
   (exists e, In e (events_of db a) /\ snd row = Some e)).
Proof.
  unfold joined_rows. destruct (events_of db a) as [|e0 es] eqn:E.
  - simpl. split.
    + intros [<-|[]]. simpl. auto.
    + intros [Hf [[_ Hs]|[e [[] _]]]]. left. destruct row; simpl in *. congruence.
  - rewrite in_map_iff. split.
    + intros [e [<- He]]. simpl. split; [reflexivity|]. right. eauto.
    + intros [Hf [[Hnil _]|[e [He Hs]]]]; [discriminate|].
      exists e. split; [|exact He]. destruct row; simpl in *. congruence.
Qed.

Lemma scope_where_spec (farm status : string) (row : animal * option issue) :
  scope_where farm status row = true <->
  a_farm_name (fst row) = Some farm /\ coalesce (joined_status row) "owned" = status.
Proof.
  unfold scope_where. rewrite andb_true_iff, sql_eq_Some, String.eqb_eq. tauto.
Qed.

Lemma scope_total_In (db : store) (farm : string) (t : string) :
  In t (get_filtered_ear_tags db farm "Total") <->
  t <> ""%string /\
  exists a, In a (animals db) /\ a_farm_name a = Some farm /\ a_ear_tag a = Some t.
Proof.
  rewrite scope_of_total, truthy_tags_In, in_map_iff.
  split; intros [Hne [a Ha]]; (split; [exact Hne|]); exists a.
  - destruct Ha as [Ht Ha]. apply order_by_In, filter_In in Ha as [Ha Hf].
    apply sql_eq_Some in Hf. auto.
  - destruct Ha as [Ha [Hf Ht]]. split; [exact Ht|].
    apply order_by_In, filter_In. split; [exact Ha|]. now apply sql_eq_Some.
Qed.

Lemma scope_status_In (db : store) (farm status : string) (t : string) :
  status <> "Total"%string ->
  In t (get_filtered_ear_tags db farm status) <->
  t <> ""%string /\
  exists a, In a (animals db) /\ a_farm_name a = Some farm /\ a_ear_tag a = Some t /\
            has_status db a status.
Proof.
  intros Hs. rewrite (scope_of_status db farm status Hs), truthy_tags_In, in_map_iff.
  split; intros [Hne H]; (split; [exact Hne|]).
  - destruct H as [row [Ht Hrow]].
    apply order_by_In, filter_In in Hrow as [Hj Hw].
    apply in_flat_map in Hj as [a [Ha Hj]].
    apply joined_rows_In in Hj as [Hf Hev].
    apply scope_where_spec in Hw as [Hfarm Hst].
    exists a. subst a. repeat split; try assumption.
    unfold has_status, joined_status in *.
    destruct Hev as [[Hnil Hn]|[e [He Hn]]]; rewrite Hn in Hst; simpl in Hst.
    + left. auto.
    + right. eauto.
  - destruct H as [a [Ha [Hfarm [Ht Hst]]]].
    destruct Hst as [[Hnil Hst]|[e [He Hst]]].
    + exists (a, None). split; [exact Ht|].
      apply order_by_In, filter_In. split.
      * apply in_flat_map. exists a. split; [exact Ha|].
        apply joined_rows_In. simpl. auto.
      * apply scope_where_spec. simpl. split; [exact Hfarm|]. now subst status.
    + exists (a, Some e). split; [exact Ht|].
      apply order_by_In, filter_In. split.
      * apply in_flat_map. exists a. split; [exact Ha|].
        apply joined_rows_In. simpl. split; [reflexivity|]. right. eauto.
      * apply scope_where_spec. simpl. split; [exact Hfarm|]. exact Hst.
Qed.

(** C5. For every farm and every status, each ear tag that
    [get_filtered_ear_tags] returns for the status is among those it
    returns for "Total": the scope of a status is a subset of the total
    scope of the farm. *)
Theorem scope_subset_of_total (db : store) (farm status : string) (t : string) :
  In t (get_filtered_ear_tags db farm status) ->
  In t (get_filtered_ear_tags db farm "Total").
Proof.
  destruct (string_dec status "Total") as [->|Hne]; [trivial|].
  rewrite (scope_status_In db farm status t Hne), scope_total_In.
  intros [Ht [a [Ha [Hf [Htag _]]]]]. split; [exact Ht|]. eauto.
Qed.

(** *** Multiplicities in the scope of a status *)

Lemma joined_rows_fst (db : store) (a : animal) (row : animal * option issue) :
  In row (joined_rows db a) -> fst row = a.
Proof. intros H. now apply joined_rows_In in H. Qed.

Lemma filter_map_swap {A B : Type} (f : B -> bool) (g : A -> B) (l : list A) :
  filter f (map g l) = map g (filter (fun x => f (g x)) l).
Proof.
  induction l as [|x l IH]; simpl; [reflexivity|].
  destruct (f (g x)); simpl; now rewrite IH.
Qed.

Lemma map_const_repeat {A B : Type} (f : A -> B) (b : B) (l : list A) :
  (forall x, In x l -> f x = b) -> map f l = repeat b (length l).
Proof.
  induction l as [|x l IH]; simpl; intros H; [reflexivity|].
  rewrite (H x (or_introl eq_refl)), IH; auto.
Qed.

Lemma count_repeat_tags (x : option string) (n : nat) (t : string) :
  count_occ string_dec (truthy_tags (repeat x n)) t =
  if sql_eq x (Some t) && negb (String.eqb t "") then n else 0%nat.
Proof.
  induction n as [|n IH]; simpl.
  - now destruct (sql_eq x (Some t) && negb (String.eqb t "")).
  - rewrite count_occ_app, IH. destruct x as [s|]; simpl; [|reflexivity].
    destruct (String.eqb_spec s t) as [->|Hst]; simpl.
    + destruct (String.eqb_spec t ""); simpl; [reflexivity|].
      destruct (string_dec t t); [reflexivity|contradiction].
    + destruct (String.eqb_spec s ""); simpl; [reflexivity|].
      destruct (string_dec s t); [contradiction|reflexivity].
Qed.

Lemma joined_hits (db : store) (farm status : string) (a : animal) :
  length (filter (scope_where farm status) (joined_rows db a)) =
  if sql_eq (a_farm_name a) (Some farm) then status_hits db status a else 0%nat.
Proof.
  unfold joined_rows, status_hits. destruct (events_of db a) as [|e0 es].
  - unfold scope_where, joined_status. cbn [filter fst snd coalesce].
    rewrite (String.eqb_sym "owned" status).
    destruct (sql_eq (a_farm_name a) (Some farm)); cbn [andb]; [|reflexivity].
    now destruct (String.eqb status "owned").
  - rewrite filter_map_swap, length_map. unfold scope_where. simpl fst.
    destruct (sql_eq (a_farm_name a) (Some farm)); simpl andb; [reflexivity|].
    set (l := e0 :: es). clearbody l. induction l; simpl; auto.
Qed.

Lemma count_one_animal (db : store) (farm status : string) (a : animal) (t : string) :
  count_occ string_dec
    (truthy_tags (map (fun row => a_ear_tag (fst row))
                    (filter (scope_where farm status) (joined_rows db a)))) t =
  if String.eqb t "" then 0%nat
  else if wears farm t a then status_hits db status a else 0%nat.
Proof.
  rewrite (map_const_repeat _ (a_ear_tag a)).
  - rewrite count_repeat_tags, joined_hits. unfold wears.
    destruct (String.eqb t ""), (sql_eq (a_ear_tag a) (Some t)),
      (sql_eq (a_farm_name a) (Some farm)); reflexivity.
  - intros row Hrow. apply filter_In in Hrow as [Hrow _].
    now rewrite (joined_rows_fst db a row Hrow).
Qed.

Lemma truthy_tags_app (l1 l2 : list (option string)) :
  truthy_tags (l1 ++ l2) = truthy_tags l1 ++ truthy_tags l2.
Proof. apply flat_map_app. Qed.

Lemma scope_count (db : store) (farm status : string) (t : string) :
  status <> "Total"%string ->
  count_occ string_dec (get_filtered_ear_tags db farm status) t =
  if String.eqb t "" then 0%nat
  else list_sum (map (fun a => if wears farm t a then status_hits db status a else 0%nat)
                     (animals db)).
Proof.
  intros Hs. rewrite (scope_of_status db farm status Hs).
  transitivity
    (count_occ string_dec
       (truthy_tags (map (fun row => a_ear_tag (fst row))
                       (filter (scope_where farm status) (left_join_issue db)))) t).
  - revert t. apply Permutation_count_occ.
    apply Permutation_flat_map, Permutation_map, order_by_perm.
  - unfold left_join_issue. induction (animals db) as [|a l IH]; simpl.
    + now destruct (String.eqb t "").
    + rewrite filter_app, map_app, truthy_tags_app, count_occ_app, IH, count_one_animal.
      now destruct (String.eqb t "").
Qed.

(** *** A store with at most one event per animal and unique tags *)

Lemma status_hits_le (db : store) (status : string) (a : animal) :
  (length (events_of db a) <= 1)%nat -> (status_hits db status a <= 1)%nat.
Proof.
  unfold status_hits. destruct (events_of db a) as [|e es]; intros H.
  - destruct (String.eqb status "owned"); lia.
  - etransitivity; [apply filter_length_le|exact H].
Qed.

Lemma has_status_effective (db : store) (status : string) (a : animal) :
  (length (events_of db a) <= 1)%nat ->
  has_status db a status <-> effective_status db a = status.
Proof.
  unfold has_status, effective_status, latest_event.
  destruct (events_of db a) as [|e [|e' es]]; simpl; intros H; [| |lia].
  - split; [intros [[_ ->]|[e [[] _]]]; reflexivity | intros <-; auto].
  - split.
    + intros [[Hnil _]|[x [[<-|[]] Hx]]]; [discriminate|exact Hx].
    + intros Hx. right. exists e. auto.
Qed.

Lemma wears_spec (farm t : string) (a : animal) :
  wears farm t a = true <-> a_farm_name a = Some farm /\ a_ear_tag a = Some t.
Proof. unfold wears. now rewrite andb_true_iff, !sql_eq_Some. Qed.

Lemma wears_sum_zero (farm t : string) (h : animal -> nat) (l : list animal) :
  t <> ""%string ->
  ~ In t (truthy_tags (map a_ear_tag
                         (filter (fun a => sql_eq (a_farm_name a) (Some farm)) l))) ->
  list_sum (map (fun a => if wears farm t a then h a else 0%nat) l) = 0%nat.
Proof.
  intros Ht Hnot. induction l as [|a l IH]; simpl; [reflexivity|].
  destruct (wears farm t a) eqn:W.
  - exfalso. apply Hnot. apply wears_spec in W as [Hf Htag].
    apply truthy_tags_In. split; [exact Ht|]. apply in_map_iff. exists a.
    split; [exact Htag|]. apply filter_In. split; [now left|]. now apply sql_eq_Some.
  - simpl. apply IH. intros Hin. apply Hnot.
    apply truthy_tags_In in Hin as [_ Hin]. apply truthy_tags_In. split; [exact Ht|].
    apply in_map_iff in Hin as [b [Hb Hin]]. apply in_map_iff. exists b.
    split; [exact Hb|]. apply filter_In in Hin as [Hin Hf].
    apply filter_In. split; [now right|exact Hf].
Qed.

Lemma wears_sum_le (farm t : string) (h : animal -> nat) (l : list animal) :
  t <> ""%string ->
  NoDup (truthy_tags (map a_ear_tag
                        (filter (fun a => sql_eq (a_farm_name a) (Some farm)) l))) ->
  (forall a, In a l -> (h a <= 1)%nat) ->
  (list_sum (map (fun a => if wears farm t a then h a else 0%nat) l) <= 1)%nat.
Proof.
  intros Ht. induction l as [|a l IH]; simpl; intros Hnd Hh; [lia|].
  destruct (wears farm t a) eqn:W.
  - pose proof (Hh a (or_introl eq_refl)) as Ha.
    apply wears_spec in W as [Hf Htag].
    apply sql_eq_Some in Hf. rewrite Hf in Hnd. simpl in Hnd. rewrite Htag in Hnd.
    simpl in Hnd. destruct (String.eqb_spec t ""); [contradiction|].
    simpl in Hnd. apply NoDup_cons_iff in Hnd as [Hnot _].
    rewrite (wears_sum_zero farm t h l Ht Hnot). lia.
  - simpl. apply IH; [|intros b Hb; apply Hh; now right].
    destruct (sql_eq (a_farm_name a) (Some farm)); [|exact Hnd].
    simpl in Hnd. unfold truthy_tags in Hnd. simpl in Hnd.
    apply NoDup_app_remove_l in Hnd. exact Hnd.
Qed.

Lemma scope_NoDup (db : store) (farm status : string) :
  status <> "Total"%string ->
  (forall a, In a (animals db) -> (length (events_of db a) <= 1)%nat) ->
  NoDup (farm_tags db farm) ->
  NoDup (get_filtered_ear_tags db farm status).
Proof.
  intros Hs Hev Hnd. apply (NoDup_count_occ string_dec). intros t.
  rewrite (scope_count db farm status t Hs).
  destruct (String.eqb_spec t ""); [lia|].
  apply wears_sum_le; [assumption|exact Hnd|].
  intros a Ha. apply status_hits_le. now apply Hev.
Qed.

(** C1 (as the program has it). For a status other than "Total",
    [get_filtered_ear_tags] returns, in ascending order, the non-empty ear
    tag of every animal of the farm once for each of its ownership events
    whose status (read as "owned" when NULL) is the requested one, and
    once for an animal without events when the status is "owned".  Where
    every animal has at most one event and the ear tags of the farm are
    unique, this is the list of the ear tags of the animals whose
    effective status is the requested one, each appearing once. *)
Theorem scope_of_status_characterised (db : store) (farm status : string) :
  status <> "Total"%string ->
  let r := get_filtered_ear_tags db farm status in
  StronglySorted (fun a b => str_leb a b = true) r /\
  (forall t, In t r <->
             t <> ""%string /\
             exists a, In a (animals db) /\ a_farm_name a = Some farm /\
                       a_ear_tag a = Some t /\ has_status db a status) /\
  (forall t, count_occ string_dec r t =
             if String.eqb t "" then 0%nat
             else list_sum (map (fun a => if wears farm t a
                                          then status_hits db status a else 0%nat)
                                (animals db))) /\
  ((forall a, In a (animals db) -> (length (events_of db a) <= 1)%nat) ->
   NoDup (farm_tags db farm) ->
   NoDup r /\
   forall t, In t r <->
             t <> ""%string /\
             exists a, In a (animals db) /\ a_farm_name a = Some farm /\
                       a_ear_tag a = Some t /\ effective_status db a = status).
Proof.
  intros Hs r. subst r. split; [apply scope_sorted|].
  split; [intros t; now apply scope_status_In|].
  split; [intros t; now apply scope_count|].
  intros Hev Hnd. split; [now apply scope_NoDup|].
  intros t. rewrite (scope_status_In db farm status t Hs).
  split; intros [Ht [a [Ha [Hf [Htag Hst]]]]]; (split; [exact Ht|]);
    exists a; repeat split; try assumption;
    now apply (has_status_effective db status a (Hev a Ha)).
Qed.

Lemma scope_of_status_characterised_witness :
  "owned"%string <> "Total"%string /\
  (forall a, In a (animals sunrise_store) ->
             (length (events_of sunrise_store a) <= 1)%nat) /\
  NoDup (farm_tags sunrise_store "Sunrise") /\
  get_filtered_ear_tags sunrise_store "Sunrise" "owned" = ["A1"; "A2"]%string /\
  NoDup (get_filtered_ear_tags sunrise_store "Sunrise" "owned") /\
  (forall t, In t (get_filtered_ear_tags sunrise_store "Sunrise" "owned") <->
             t <> ""%string /\
             exists a, In a (animals sunrise_store) /\ a_farm_name a = Some "Sunrise"%string /\
                       a_ear_tag a = Some t /\
                       effective_status sunrise_store a = "owned"%string).
Proof.
  assert (Hs : "owned"%string <> "Total"%string) by discriminate.
  assert (Hev : forall a, In a (animals sunrise_store) ->
                          (length (events_of sunrise_store a) <= 1)%nat).
  { intros a [<-|[<-|[<-|[]]]]; vm_compute; repeat constructor. }
  assert (Hnd : NoDup (farm_tags sunrise_store "Sunrise")).
  { vm_compute. repeat constructor; simpl; intuition discriminate. }
  split; [exact Hs|]. split; [exact Hev|]. split; [exact Hnd|].
  split; [reflexivity|].
  exact (proj2 (proj2 (proj2
           (scope_of_status_characterised sunrise_store "Sunrise" "owned" Hs))) Hev Hnd).
Defined.

(** C1 (as the specification states it) fails: an animal sold in January
    and dead in February is returned for the status "Sell", although its
    latest event, hence its effective status, is "Dead". *)
Lemma scope_as_specified_fails :
  ~ scope_as_specified sold_then_dead_store "Sunrise" "Sell"
      (get_filtered_ear_tags sold_then_dead_store "Sunrise" "Sell").
Proof.
  intros [_ [_ H]].
  assert (Hin : In "A1"%string (get_filtered_ear_tags sold_then_dead_store "Sunrise" "Sell"))
    by (vm_compute; auto).
  apply H in Hin as [a [[<-|[]] [_ [_ He]]]].
  vm_compute in He. discriminate.
Qed.

(** The same animal is listed for "Dead" as well, and an animal with two
    events of one status is listed twice. *)
Example scope_sold_then_dead :
  get_filtered_ear_tags sold_then_dead_store "Sunrise" "Sell" = ["A1"%string] /\
  get_filtered_ear_tags sold_then_dead_store "Sunrise" "Dead" = ["A1"%string] /\
  effective_status sold_then_dead_store (mk_animal 1 "A1" "Sunrise" "F" "2022-01-05")
  = "Dead"%string.
Proof. repeat split. Qed.

Example scope_lists_a_tag_twice :
  get_filtered_ear_tags
    {| animals := [mk_animal 1 "A1" "Sunrise" "F" "2022-01-05"];
       issues := [mk_issue "Sunrise" "A1" "Cull" "2024-01-10";
                  mk_issue "Sunrise" "A1" "Cull" "2024-02-20"];
       repros := []; lactations := []; milk_yields := [] |}
    "Sunrise" "Cull" = ["A1"; "A1"]%string.
Proof. reflexivity. Qed.

Lemma scope_subset_of_total_witness :
  In "A3"%string (get_filtered_ear_tags sunrise_store "Sunrise" "Sell") /\
  In "A3"%string (get_filtered_ear_tags sunrise_store "Sunrise" "Total").
Proof.
  assert (H : In "A3"%string (get_filtered_ear_tags sunrise_store "Sunrise" "Sell"))
    by (vm_compute; auto).
  split; [exact H|].
  exact (scope_subset_of_total sunrise_store "Sunrise" "Sell" "A3" H).
Defined.

(** ** Counting rows *)

Lemma counts_filter {A : Type} (P : A -> Prop) (f : A -> bool) (l : list A) :
  (forall x, f x = true <-> P x) -> counts P l (length (filter f l)).
Proof.
  intros Hf. induction l as [|x l IH]; simpl; [constructor|].
  destruct (f x) eqn:E.
  - simpl. apply counts_hit; [now apply Hf|exact IH].
  - apply counts_miss; [|exact IH]. intros HP. apply Hf in HP. congruence.
Qed.

Lemma counts_none {A : Type} (P : A -> Prop) (l : list A) :
  (forall x, ~ P x) -> counts P l 0.
Proof.
  intros HP. induction l; [constructor|]. apply counts_miss; [apply HP|assumption].
Qed.

Lemma counts_unique {A : Type} (P : A -> Prop) (l : list A) (n m : nat) :
  counts P l n -> counts P l m -> n = m.
Proof.
  intros Hn. revert m. induction Hn; intros m Hm; inversion Hm; subst;
    try reflexivity; try contradiction; auto.
Qed.

(** ** Scope-based aggregations *)

(** C8. When the resolved scope is empty, each scope-based aggregation
    returns its default instead of failing: the total milk yield is 0.0,
    the total lactation days 0, the yield by year the empty sequence and
    the abortion count 0. *)
Theorem empty_scope_defaults `{Runtime} (db : store) (farm status : string) :
  get_filtered_ear_tags db farm status = [] ->
  get_farm_total_milk_yield_filtered db farm status = 0%Q /\
  get_farm_total_lactation_days_filtered db farm status = 0%nat /\
  get_farm_milk_yield_by_year_filtered db farm status = [] /\
  get_farm_abortion_count_filtered db farm status = 0%nat.
Proof.
  intros E.
  unfold get_farm_total_milk_yield_filtered, get_farm_total_lactation_days_filtered,
    get_farm_milk_yield_by_year_filtered, get_farm_abortion_count_filtered.
  rewrite E. repeat split.
Qed.

Lemma empty_scope_defaults_witness :
  get_filtered_ear_tags sunrise_store "Hillside" "owned" = [] /\
  @get_farm_total_milk_yield_filtered reference_runtime sunrise_store
    "Hillside" "owned" = 0%Q /\
  get_farm_total_lactation_days_filtered sunrise_store "Hillside" "owned" = 0%nat /\
  @get_farm_milk_yield_by_year_filtered reference_runtime sunrise_store
    "Hillside" "owned" = [] /\
  get_farm_abortion_count_filtered sunrise_store "Hillside" "owned" = 0%nat.
Proof.
  split; [reflexivity|].
  apply (@empty_scope_defaults reference_runtime sunrise_store "Hillside" "owned").
  reflexivity.
Defined.

Lemma sql_in_spec (x : option string) (tags : list string) :
  sql_in x tags = true <-> exists t, x = Some t /\ In t tags.
Proof.
  destruct x as [s|]; simpl.
  - rewrite existsb_exists. split.
    + intros [t [Ht E]]. apply String.eqb_eq in E. subst. eauto.
    + intros [t [[= ->] Ht]]. exists t. split; [exact Ht|apply String.eqb_refl].
  - split; [discriminate|intros [t [[=] _]]].
Qed.

Lemma sql_eqz_Some (x : option Z) (z : Z) : sql_eqz x (Some z) = true <-> x = Some z.
Proof.
  destruct x as [v|]; simpl; [|split; discriminate].
  rewrite Z.eqb_eq. split; congruence.
Qed.

Lemma id_in_scope_spec (db : store) (ear_tags : list string) (aid : option Z) :
  id_in_scope db ear_tags aid = true <->
  exists a t, In a (animals db) /\ a_ear_tag a = Some t /\ In t ear_tags /\
              aid = Some (a_id a).
Proof.
  unfold id_in_scope. rewrite existsb_exists. split.
  - intros [a [Ha H]]. apply andb_true_iff in H as [Hin Hid].
    apply sql_in_spec in Hin as [t [Ht Hin]]. apply sql_eqz_Some in Hid.
    exists a, t. auto.
  - intros [a [t [Ha [Ht [Hin Hid]]]]]. exists a. split; [exact Ha|].
    apply andb_true_iff. split; [apply sql_in_spec; eauto|now apply sql_eqz_Some].
Qed.

Lemma is_abortion_spec (r : repro) :
  is_abortion r = true <->
  exists s, r_delivery_status r = Some s /\ lower s = "abortion"%string.
Proof.
  unfold is_abortion. destruct (r_delivery_status r) as [s|].
  - rewrite String.eqb_eq. split; [eauto|]. now intros [s' [[= <-] H]].
  - split; [discriminate|intros [s [[=] _]]].
Qed.

(** C7 (as the program has it). The abortion count is the number of
    reproduction records whose delivery status is "abortion" up to the
    case of its ASCII letters and whose animal, an animal of any farm,
    wears an ear tag of the resolved scope. *)
Theorem abortion_count_characterised (db : store) (farm status : string) :
  counts (fun r =>
            (exists s, r_delivery_status r = Some s /\ lower s = "abortion"%string) /\
            exists a t, In a (animals db) /\ a_ear_tag a = Some t /\
                        In t (get_filtered_ear_tags db farm status) /\
                        r_animal_id r = Some (a_id a))
         (repros db)
         (get_farm_abortion_count_filtered db farm status).
Proof.
  unfold get_farm_abortion_count_filtered.
  destruct (get_filtered_ear_tags db farm status) as [|t0 ts] eqn:E.
  - apply counts_none. intros r [_ [a [t [_ [_ [[] _]]]]]].
  - apply counts_filter. intros r.
    rewrite andb_true_iff, id_in_scope_spec, is_abortion_spec. tauto.
Qed.

Lemma scope_In_farm (db : store) (farm status : string) (t : string) :
  In t (get_filtered_ear_tags db farm status) ->
  exists a, In a (animals db) /\ a_farm_name a = Some farm /\ a_ear_tag a = Some t.
Proof.
  destruct (string_dec status "Total") as [->|Hne].
  - rewrite scope_total_In. now intros [_ H].
  - rewrite (scope_status_In db farm status t Hne).
    intros [_ [a [Ha [Hf [Ht _]]]]]. eauto.
Qed.

(** Where no ear tag is worn on two farms, the animals counted are those
    of the farm, as the specification has it. *)
Lemma abortion_count_unshared_tags (db : store) (farm status : string) :
  (forall a b t, In a (animals db) -> In b (animals db) ->
                 a_ear_tag a = Some t -> a_ear_tag b = Some t ->
                 a_farm_name a = a_farm_name b) ->
  abortions_as_specified db farm status (get_farm_abortion_count_filtered db farm status).
Proof.
  intros Huniq. unfold abortions_as_specified, get_farm_abortion_count_filtered.
  destruct (get_filtered_ear_tags db farm status) as [|t0 ts] eqn:E.
  - apply counts_none. intros r [_ [a [t [_ [_ [_ [[] _]]]]]]].
  - apply counts_filter. intros r.
    rewrite andb_true_iff, id_in_scope_spec, is_abortion_spec.
    split.
    + intros [[a [t [Ha [Ht [Hin Hid]]]]] Hab]. split; [exact Hab|].
      exists a, t. repeat split; try assumption.
      assert (Hs : In t (get_filtered_ear_tags db farm status)) by (rewrite E; exact Hin).
      apply scope_In_farm in Hs as [b [Hb [Hf Hbt]]].
      rewrite <- Hf. now apply (Huniq a b t).
    + intros [Hab [a [t [Ha [_ [Ht [Hin Hid]]]]]]]. split; [|exact Hab]. eauto 6.
Qed.

(** C7 (as the specification states it) fails: the ear tag T1 is worn on
    two farms, and the abortion of the Hillside animal is counted for
    Sunrise. *)
Lemma abortions_as_specified_fails :
  ~ abortions_as_specified shared_tag_store "Sunrise" "Total"
      (get_farm_abortion_count_filtered shared_tag_store "Sunrise" "Total").
Proof.
  change (get_farm_abortion_count_filtered shared_tag_store "Sunrise" "Total") with 1%nat.
  unfold abortions_as_specified. simpl repros. intros H.
  inversion H as [|r l n HP Hrest|r l n HP Hrest]; subst.
  - destruct HP as [_ [a [t [Ha [Hf [_ [_ Hid]]]]]]].
    destruct Ha as [<-|[<-|[]]]; simpl in Hf, Hid; discriminate.
  - inversion Hrest.
Qed.

(** ** Classifiers *)

Lemma find_animal_none (db : store) (ear_tag : string) :
  (forall a, In a (animals db) -> a_ear_tag a <> Some ear_tag) ->
  find_animal db ear_tag = None.
Proof.
  intros Hno. unfold find_animal.
  destruct (filter _ (animals db)) as [|a l] eqn:E; [reflexivity|].
  assert (Ha : In a (filter (fun a => sql_eq (a_ear_tag a) (Some ear_tag)) (animals db)))
    by (rewrite E; now left).
  apply filter_In in Ha as [Ha Ht]. apply sql_eq_Some in Ht. now apply Hno in Ha.
Qed.

Lemma find_animal_some (db : store) (ear_tag : string) (a : animal) :
  find_animal db ear_tag = Some a -> In a (animals db) /\ a_ear_tag a = Some ear_tag.
Proof.
  unfold find_animal. intros H. apply hd_error_In, filter_In in H as [Ha Ht].
  apply sql_eq_Some in Ht. auto.
Qed.

(** C10. For an ear tag that no animal row carries, the breeding
    diagnosis is "Open" and the animal category is "Fattening": both
    classifiers return their default rather than failing. *)
Theorem unknown_ear_tag_defaults `{Runtime} (db : store) (today : date) (ear_tag : string) :
  (forall a, In a (animals db) -> a_ear_tag a <> Some ear_tag) ->
  compute_breeding_diagnosis db ear_tag = Open /\
  compute_animal_category db today ear_tag = Fattening.
Proof.
  intros Hno. unfold compute_breeding_diagnosis, compute_animal_category.
  now rewrite (find_animal_none db ear_tag Hno).
Qed.

Lemma unknown_ear_tag_defaults_witness :
  (forall a, In a (animals sunrise_store) -> a_ear_tag a <> Some "Z9"%string) /\
  @compute_breeding_diagnosis reference_runtime sunrise_store "Z9" = Open /\
  @compute_animal_category reference_runtime sunrise_store (mkdate 2024 1 25) "Z9"
  = Fattening.
Proof.
  assert (Hno : forall a, In a (animals sunrise_store) -> a_ear_tag a <> Some "Z9"%string).
  { intros a [<-|[<-|[<-|[]]]]; discriminate. }
  split; [exact Hno|].
  exact (@unknown_ear_tag_defaults reference_runtime sunrise_store
           (mkdate 2024 1 25) "Z9" Hno).
Defined.

Lemma gender_is_F_spec (a : animal) :
  gender_is_F a = true <-> a_gender a = Some "F"%string.
Proof.
  unfold gender_is_F. destruct (a_gender a) as [g|]; [|split; discriminate].
  rewrite String.eqb_eq. split; congruence.
Qed.

Lemma not_blank_false `{Runtime} (x : option string) :
  not_blank x = false <-> is_blank x.
Proof.
  unfold not_blank, is_blank. destruct x as [s|].
  - rewrite andb_false_iff, !negb_false_iff, !String.eqb_eq. split.
    + intros Hs s' [= <-]. exact Hs.
    + intros Hb. now apply Hb.
  - split; [intros _ s [=] | reflexivity].
Qed.

Lemma not_blank_spec `{Runtime} (x : option string) :
  not_blank x = true <-> ~ is_blank x.
Proof.
  rewrite <- not_blank_false. destruct (not_blank x); split; congruence.
Qed.

Lemma stripped_is_spec `{Runtime} (x : option string) (marker : string) :
  stripped_is x marker = true <-> reads_as x marker.
Proof.
  unfold stripped_is, reads_as. destruct x as [s|].
  - rewrite andb_true_iff, negb_true_iff, String.eqb_neq, String.eqb_eq. split.
    + intros [H1 H2]. eauto.
    + intros [s' [[= <-] H']]. exact H'.
  - split; [discriminate|]. intros [s [[=] _]].
Qed.

Lemma repros_of_spec (db : store) (a : animal) (r : repro) :
  In r (repros_of db a) <-> record_of db a r.
Proof.
  unfold repros_of, record_of. rewrite filter_In, sql_eqz_Some. reflexivity.
Qed.

Lemma latest_repro_spec (db : store) (a : animal) :
  match latest_repro db a with
  | None => forall r, ~ record_of db a r
  | Some r => is_latest_repro db a r
  end.
Proof.
  unfold latest_repro.
  destruct (hd_error (order_by (desc null_leb) r_breeding_date (repros_of db a)))
    as [r|] eqn:E.
  - apply (order_by_head (desc null_leb) r_breeding_date
             (desc_total null_leb null_leb_total) (desc_trans null_leb null_leb_trans))
      in E.
    destruct E as [Hin Hmax]. split; [now apply repros_of_spec|].
    intros r' Hr'. apply null_leb_spec. apply (Hmax r'). now apply repros_of_spec.
  - assert (Hnil : repros_of db a = []).
    { apply (order_by_nil_iff (desc null_leb) r_breeding_date).
      destruct (order_by (desc null_leb) r_breeding_date (repros_of db a));
        [reflexivity|discriminate]. }
    intros r Hr. apply repros_of_spec in Hr. rewrite Hnil in Hr. destruct Hr.
Qed.

(** The lookup by ear tag returns the first row that carries the tag. *)
Lemma first_match (A : Type) (f : A -> bool) (l : list A) (a : A) :
  hd_error (filter f l) = Some a <->
  exists before after,
    l = before ++ a :: after /\ f a = true /\ forall b, In b before -> f b = false.
Proof.
  split.
  - induction l as [|x l IH]; simpl; [discriminate|].
    destruct (f x) eqn:Fx.
    + intros [= ->]. exists [], l. split; [reflexivity|]. split; [exact Fx|intros b []].
    + intros Hh. destruct (IH Hh) as [before [after [-> [Fa Hb]]]].
      exists (x :: before), after. split; [reflexivity|]. split; [exact Fa|].
      intros b [<-|Hin]; [exact Fx|now apply Hb].
  - intros [before [after [-> [Fa Hb]]]].
    induction before as [|x before IH]; simpl.
    + now rewrite Fa.
    + rewrite (Hb x (or_introl eq_refl)). apply IH. intros b Hin. apply Hb. now right.
Qed.

Lemma find_animal_first (db : store) (ear_tag : string) (a : animal) :
  find_animal db ear_tag = Some a <-> first_with_tag db ear_tag a.
Proof.
  unfold find_animal, first_with_tag. rewrite first_match.
  split; intros [before [after [E [Ht Hb]]]]; exists before, after;
    (split; [exact E|]).
  - split; [now apply sql_eq_Some|].
    intros b Hin Hc. apply sql_eq_Some in Hc. specialize (Hb b Hin). congruence.
  - split; [now apply sql_eq_Some|].
    intros b Hin. destruct (sql_eq (a_ear_tag b) (Some ear_tag)) eqn:Q; [|reflexivity].
    apply sql_eq_Some in Q. now apply Hb in Q.
Qed.

(** Where a single row carries the ear tag, it is the first one. *)
Lemma first_with_tag_unique (db : store) (ear_tag : string) (a : animal) :
  In a (animals db) -> a_ear_tag a = Some ear_tag ->
  (forall b, In b (animals db) -> a_ear_tag b = Some ear_tag -> b = a) ->
  first_with_tag db ear_tag a.
Proof.
  intros Hin Ht Huniq. apply find_animal_first.
  destruct (find_animal db ear_tag) as [a'|] eqn:E.
  - apply find_animal_some in E as [Hin' Ht']. f_equal. now apply Huniq.
  - exfalso. unfold find_animal in E.
    assert (Hf : In a (filter (fun a => sql_eq (a_ear_tag a) (Some ear_tag)) (animals db)))
      by (apply filter_In; split; [exact Hin|now apply sql_eq_Some]).
    destruct (filter _ (animals db)); [destruct Hf|discriminate E].
Qed.

(** C3 (as the program has it). The diagnosis of an ear tag is that of
    the first animal row that carries the tag: "Open" if its gender is
    not "F", whatever the reproduction history; otherwise "Mating" if the
    animal has no reproduction record; otherwise it is decided by a record
    of maximum breeding date: "Open" if its calving date is not blank
    (neither NULL, nor empty, nor white space only) whatever the pregnancy
    status, "Pregnant" if the calving date is blank and the pregnancy
    status, non-empty and stripped of surrounding white space, is the
    marker, and "Mating" otherwise. *)
Theorem breeding_diagnosis_characterised `{Runtime} (db : store) (ear_tag : string)
  (a : animal) :
  first_with_tag db ear_tag a ->
  let d := compute_breeding_diagnosis db ear_tag in
  (a_gender a <> Some "F"%string -> d = Open) /\
  (a_gender a = Some "F"%string -> (forall r, ~ record_of db a r) -> d = Mating) /\
  (a_gender a = Some "F"%string -> (exists r, record_of db a r) ->
   exists r, is_latest_repro db a r /\
     (~ is_blank (r_calving_date r) -> d = Open) /\
     (is_blank (r_calving_date r) ->
      reads_as (r_pregnancy_status r) PREGNANT_MARKER -> d = Pregnant) /\
     (is_blank (r_calving_date r) ->
      ~ reads_as (r_pregnancy_status r) PREGNANT_MARKER -> d = Mating)).
Proof.
  intros Hfirst d. subst d. apply find_animal_first in Hfirst as Hfind.
  unfold compute_breeding_diagnosis. rewrite Hfind.
  pose proof (latest_repro_spec db a) as HL.
  destruct (gender_is_F a) eqn:G; cbn [negb].
  - apply gender_is_F_spec in G.
    split; [intros Hn; contradiction|].
    destruct (latest_repro db a) as [r|].
    + split.
      { intros _ Hno. destruct HL as [Hin _]. now apply Hno in Hin. }
      intros _ _. exists r. split; [exact HL|].
      destruct (not_blank (r_calving_date r)) eqn:NB.
      * apply not_blank_spec in NB.
        split; [reflexivity|]. split; intros Hb; contradiction.
      * apply not_blank_false in NB. split; [intros Hn; contradiction|].
        destruct (stripped_is (r_pregnancy_status r) PREGNANT_MARKER) eqn:SP.
        -- apply stripped_is_spec in SP.
           split; [reflexivity|]. intros _ Hn. contradiction.
        -- split; [|reflexivity].
           intros _ Hr. apply stripped_is_spec in Hr. congruence.
    + split; [reflexivity|]. intros _ [r Hr]. now apply HL in Hr.
  - split; [reflexivity|].
    split; intros Hg; apply gender_is_F_spec in Hg; congruence.
Qed.

Lemma breeding_diagnosis_characterised_witness :
  first_with_tag scenario_store "A1" (mk_animal 1 "A1" "Sunrise" "F" "2021-04-01") /\
  (exists r, record_of scenario_store (mk_animal 1 "A1" "Sunrise" "F" "2021-04-01") r) /\
  @compute_breeding_diagnosis reference_runtime scenario_store "A1" = Pregnant /\
  first_with_tag scenario_store "A2" (mk_animal 2 "A2" "Sunrise" "F" "2021-06-01") /\
  @compute_breeding_diagnosis reference_runtime scenario_store "A2" = Mating /\
  first_with_tag scenario_store "A3" (mk_animal 3 "A3" "Sunrise" "Bull" "2020-03-15") /\
  @compute_breeding_diagnosis reference_runtime scenario_store "A3" = Open.
Proof.
  assert (H1 : first_with_tag scenario_store "A1"
                 (mk_animal 1 "A1" "Sunrise" "F" "2021-04-01")).
  { exists [], [mk_animal 2 "A2" "Sunrise" "F" "2021-06-01";
                mk_animal 3 "A3" "Sunrise" "Bull" "2020-03-15"].
    split; [reflexivity|]. split; [reflexivity|intros b []]. }
  assert (H2 : first_with_tag scenario_store "A2"
                 (mk_animal 2 "A2" "Sunrise" "F" "2021-06-01")).
  { exists [mk_animal 1 "A1" "Sunrise" "F" "2021-04-01"],
           [mk_animal 3 "A3" "Sunrise" "Bull" "2020-03-15"].
    split; [reflexivity|]. split; [reflexivity|]. intros b [<-|[]]. discriminate. }
  assert (H3 : first_with_tag scenario_store "A3"
                 (mk_animal 3 "A3" "Sunrise" "Bull" "2020-03-15")).
  { exists [mk_animal 1 "A1" "Sunrise" "F" "2021-04-01";
            mk_animal 2 "A2" "Sunrise" "F" "2021-06-01"], [].
    split; [reflexivity|]. split; [reflexivity|]. intros b [<-|[<-|[]]]; discriminate. }
  assert (Hex : exists r, record_of scenario_store
                            (mk_animal 1 "A1" "Sunrise" "F" "2021-04-01") r).
  { exists (mk_repro 1 "2023-01-01" (Some PREGNANT_MARKER) None).
    split; [now left|reflexivity]. }
  split; [exact H1|]. split; [exact Hex|]. split.
  { destruct (proj2 (proj2 (@breeding_diagnosis_characterised reference_runtime
                              scenario_store "A1" _ H1)) eq_refl Hex)
      as [r [[[Hin _] _] [_ [Hpreg _]]]].
    apply Hpreg.
    - destruct Hin as [<-|[<-|[]]]; intros s E; discriminate E.
    - destruct Hin as [<-|[<-|[]]]; exists PREGNANT_MARKER;
        (split; [reflexivity|]); (split; [discriminate|reflexivity]). }
  split; [exact H2|]. split.
  { apply (proj1 (proj2 (@breeding_diagnosis_characterised reference_runtime
                           scenario_store "A2" _ H2))); [reflexivity|].
    intros r [[<-|[<-|[]]] Hid]; discriminate Hid. }
  split; [exact H3|].
  apply (proj1 (@breeding_diagnosis_characterised reference_runtime
                  scenario_store "A3" _ H3)). discriminate.
Defined.

(** The scenario of the specification: of two records without calving
    date and with the pregnancy marker, the later one decides. *)
Example diagnosis_scenario :
  @compute_breeding_diagnosis reference_runtime scenario_store "A1" = Pregnant.
Proof. reflexivity. Qed.

(** C3 (as the specification states it) fails: the latest record of B1
    has a calving date that is not empty, one space, and the pregnancy
    marker; the diagnosis is "Pregnant", not "Open". *)
Lemma diagnosis_as_specified_fails :
  ~ diagnosis_as_specified blank_calving_store
      (mk_animal 1 "B1" "Sunrise" "F" "2021-04-01")
      (@compute_breeding_diagnosis reference_runtime blank_calving_store "B1").
Proof.
  assert (E : @compute_breeding_diagnosis reference_runtime blank_calving_store "B1"
              = Pregnant) by reflexivity.
  rewrite E. intros [_ [_ H]].
  destruct (H eq_refl) as [r [[[Hin _] Hmax] [Hopen _]]].
  { exists (mk_repro 1 "2023-01-01" (Some PREGNANT_MARKER) None).
    split; [now left|reflexivity]. }
  destruct Hin as [<-|[<-|[]]].
  - specialize (Hmax (mk_repro 1 "2023-06-01" (Some PREGNANT_MARKER) (Some " "%string))).
    assert (Hle : text_le (Some "2023-06-01"%string) (Some "2023-01-01"%string)).
    { apply Hmax. split; [right; now left|reflexivity]. }
    apply null_leb_spec in Hle. discriminate Hle.
  - assert (Habs : Pregnant = Open); [|discriminate].
    apply Hopen. exists " "%string. split; [reflexivity|discriminate].
Qed.

(** An ear tag worn on two farms: the diagnosis of T1 is read off the
    row of Hillside, which comes first and has no reproduction record,
    although the cow of Sunrise is pregnant by her latest record. *)
Example diagnosis_of_shared_tag :
  @compute_breeding_diagnosis reference_runtime shared_tag_dairy_store "T1" = Mating /\
  first_with_tag shared_tag_dairy_store "T1" (mk_animal 1 "T1" "Hillside" "F" "2020-02-01") /\
  is_latest_repro shared_tag_dairy_store (mk_animal 2 "T1" "Sunrise" "F" "2021-06-01")
    (mk_repro 2 "2023-06-01" (Some PREGNANT_MARKER) None).
Proof.
  split; [reflexivity|]. split.
  - exists [], [mk_animal 2 "T1" "Sunrise" "F" "2021-06-01"].
    split; [reflexivity|]. split; [reflexivity|intros b []].
  - split; [split; [now left|reflexivity]|].
    intros r' [[<-|[]] _]. apply null_leb_spec. reflexivity.
Qed.

(** A pregnancy status with surrounding white space still reads as the
    marker. *)
Example diagnosis_strips_the_status :
  @compute_breeding_diagnosis reference_runtime
    {| animals := [mk_animal 1 "B1" "Sunrise" "F" "2021-04-01"];
       issues := [];
       repros := [mk_repro 1 "2023-06-01" (Some (" " ++ PREGNANT_MARKER ++ " ")%string) None];
       lactations := []; milk_yields := [] |} "B1" = Pregnant.
Proof. reflexivity. Qed.

(** *** Splitting the period *)

Lemma split_on_nonnil (c : ascii) (s : string) : split_on c s <> [].
Proof.
  destruct s as [|a s]; simpl; [discriminate|].
  destruct (Ascii.eqb a c); [discriminate|].
  destruct (split_on c s); discriminate.
Qed.

Lemma split_on_free (c : ascii) (s : string) :
  contains c s = false -> split_on c s = [s].
Proof.
  induction s as [|a s IH]; simpl; [reflexivity|].
  destruct (Ascii.eqb a c); simpl; [discriminate|].
  intros Hs. now rewrite (IH Hs).
Qed.

Lemma split_on_app (c : ascii) (x rest : string) :
  contains c x = false ->
  split_on c (x ++ String c rest) = x :: split_on c rest.
Proof.
  induction x as [|a x IH]; simpl.
  - now rewrite Ascii.eqb_refl.
  - destruct (Ascii.eqb a c); simpl; [discriminate|].
    intros Hx. now rewrite (IH Hx).
Qed.

Lemma split_on_one_inv (c : ascii) (s e : string) :
  split_on c s = [e] -> s = e /\ contains c s = false.
Proof.
  revert e. induction s as [|a s IH]; simpl; intros e.
  - intros [= <-]. auto.
  - destruct (Ascii.eqb a c); simpl.
    + intros [= _ Hs]. now apply split_on_nonnil in Hs.
    + destruct (split_on c s) as [|h t] eqn:E; [now apply split_on_nonnil in E|].
      intros [= <- ->]. destruct (IH h eq_refl) as [-> Hc]. auto.
Qed.

Lemma split_on_two_inv (c : ascii) (s x e : string) :
  split_on c s = [x; e] ->
  s = (x ++ String c e)%string /\ contains c x = false /\ contains c e = false.
Proof.
  revert x. induction s as [|a s IH]; simpl; intros x; [discriminate|].
  destruct (Ascii.eqb_spec a c) as [->|Hac].
  - intros [= <- Hs]. apply split_on_one_inv in Hs as [-> Hc]. auto.
  - destruct (split_on c s) as [|h t] eqn:E; [discriminate|].
    intros [= <- ->]. destruct (IH h eq_refl) as [-> [Hh He]].
    simpl. apply Ascii.eqb_neq in Hac. rewrite Hac. auto.
Qed.

Lemma contains_app (c : ascii) (x rest : string) :
  contains c (x ++ String c rest) = true.
Proof.
  induction x as [|a x IH]; simpl; [now rewrite Ascii.eqb_refl|].
  rewrite IH. apply orb_true_r.
Qed.

Lemma tilde_free_spec (s : string) : tilde_free s <-> contains TILDE s = false.
Proof.
  unfold tilde_free. induction s as [|c s IH]; simpl; [split; auto|].
  destruct (Ascii.eqb_spec c TILDE) as [->|Hne]; simpl.
  - split; [intros Hn; exfalso; apply Hn; now left|discriminate].
  - rewrite <- IH. split; [intros Hn Hin; apply Hn; now right|].
    intros Hn [E|Hin]; [now apply Hne|now apply Hn].
Qed.

(** The category of a period string exactly when it has an end date. *)
Lemma category_of_period_dated `{Runtime} (today : date) (period : string) (ed : date) :
  end_date_of (Some period) ed ->
  category_of_period today period =
  if days_between today ed <=? 10 then Milking else Dry.
Proof.
  intros [start [end_str [[= ->] [Hs [He Hp]]]]].
  apply tilde_free_spec in Hs, He.
  unfold category_of_period. rewrite contains_app. simpl negb. cbv iota.
  rewrite (split_on_app TILDE start end_str Hs), (split_on_free TILDE end_str He).
  now rewrite Hp.
Qed.

Lemma category_of_period_undated `{Runtime} (today : date) (period : string) :
  (forall ed, ~ end_date_of (Some period) ed) ->
  category_of_period today period = Fattening.
Proof.
  intros Hno. unfold category_of_period.
  destruct (contains TILDE period); simpl; [|reflexivity].
  destruct (split_on TILDE period) as [|x [|e [|z rest]]] eqn:E; try reflexivity.
  destruct (strptime_ymd (strip e)) as [ed|] eqn:P; [|reflexivity].
  exfalso. apply (Hno ed). apply split_on_two_inv in E as [-> [Hx He]].
  exists x, e. split; [reflexivity|].
  split; [now apply tilde_free_spec|]. split; [now apply tilde_free_spec|exact P].
Qed.

Lemma lactations_of_spec (db : store) (a : animal) (p : option string) :
  In p (map l_period (lactations_of db a)) <-> period_of db a p.
Proof.
  unfold lactations_of, period_of. rewrite in_map_iff. split.
  - intros [l [E Hin]]. apply filter_In in Hin as [Hin Hid].
    apply sql_eqz_Some in Hid. exists l. auto.
  - intros [l [Hin [Hid E]]]. exists l. split; [exact E|].
    apply filter_In. split; [exact Hin|now apply sql_eqz_Some].
Qed.

Lemma latest_lactation_spec (db : store) (a : animal) :
  match latest_lactation db a with
  | None => forall p, ~ period_of db a p
  | Some row => is_latest_period db a (l_period row)
  end.
Proof.
  unfold latest_lactation.
  destruct (hd_error (order_by (desc null_leb) l_period (lactations_of db a)))
    as [row|] eqn:E.
  - apply (order_by_head (desc null_leb) l_period
             (desc_total null_leb null_leb_total) (desc_trans null_leb null_leb_trans))
      in E.
    destruct E as [Hin Hmax]. split; [apply lactations_of_spec; now apply in_map|].
    intros q Hq. apply lactations_of_spec, in_map_iff in Hq as [row' [<- Hrow']].
    apply null_leb_spec. now apply Hmax.
  - assert (Hnil : lactations_of db a = []).
    { apply (order_by_nil_iff (desc null_leb) l_period).
      destruct (order_by (desc null_leb) l_period (lactations_of db a));
        [reflexivity|discriminate]. }
    intros p Hp. apply lactations_of_spec in Hp. rewrite Hnil in Hp. destruct Hp.
Qed.

Lemma null_leb_antisym (a b : option string) :
  null_leb a b = true -> null_leb b a = true -> a = b.
Proof.
  destruct a, b; simpl; try congruence.
  intros H1 H2. f_equal. now apply str_leb_antisym.
Qed.

Lemma latest_period_unique (db : store) (a : animal) (p q : option string) :
  is_latest_period db a p -> is_latest_period db a q -> p = q.
Proof.
  intros [Hp Hpmax] [Hq Hqmax]. apply null_leb_antisym; apply null_leb_spec; auto.
Qed.

(** C4 (as the program has it). The category of an ear tag is that of
    the first animal row that carries the tag: "Fattening" when the
    animal has no lactation period, and when its maximum period does not
    read "<start>~<end>" with an end that parses as a date; otherwise,
    the end date and the current date being days of the calendar and gap
    the number of days from the one to the other, it is "Milking" when
    gap <= 10, a negative gap included, and "Dry" when gap > 10. *)
Theorem animal_category_characterised `{Runtime} (db : store) (today : date)
  (ear_tag : string) (a : animal) :
  first_with_tag db ear_tag a ->
  calendar_date today ->
  let c := compute_animal_category db today ear_tag in
  ((forall p, ~ period_of db a p) -> c = Fattening) /\
  (forall p, is_latest_period db a p -> (forall ed, ~ end_date_of p ed) -> c = Fattening) /\
  (forall p ed, is_latest_period db a p -> end_date_of p ed -> calendar_date ed ->
                (exists gap, days_apart ed today gap) /\
                forall gap, days_apart ed today gap ->
                            (gap <= 10 -> c = Milking) /\ (10 < gap -> c = Dry)).
Proof.
  intros Hfirst Hcal c. subst c. apply find_animal_first in Hfirst as Hfind.
  unfold compute_animal_category. rewrite Hfind.
  pose proof (latest_lactation_spec db a) as HL.
  destruct (latest_lactation db a) as [row|].
  - split.
    { intros Hno. destruct HL as [Hin _]. now apply Hno in Hin. }
    split.
    + intros p Hp Hno. rewrite (latest_period_unique db a _ _ Hp HL) in Hno.
      destruct (l_period row) as [period|]; [|reflexivity].
      destruct (String.eqb period ""); [reflexivity|].
      now apply category_of_period_undated.
    + intros p ed Hp Hed Hced. rewrite (latest_period_unique db a _ _ Hp HL) in Hed.
      split; [exists (days_between today ed); now apply days_apart_between|].
      intros gap Hgap. apply (days_apart_ordinal ed today gap Hced Hcal) in Hgap.
      destruct (l_period row) as [period|].
      * destruct (String.eqb_spec period "") as [->|Hne].
        { destruct Hed as [x [e [[= Hx] _]]]. destruct x; discriminate. }
        rewrite (category_of_period_dated today period ed Hed).
        unfold days_between. rewrite <- Hgap.
        split; intros Hg.
        -- apply Z.leb_le in Hg. now rewrite Hg.
        -- apply Z.leb_gt in Hg. now rewrite Hg.
      * destruct Hed as [x [e [[=] _]]].
  - split; [reflexivity|].
    split; [intros p [Hp _]|intros p ed [Hp _]]; now apply HL in Hp.
Qed.

Lemma animal_category_characterised_witness :
  first_with_tag scenario_store "A2" (mk_animal 2 "A2" "Sunrise" "F" "2021-06-01") /\
  calendar_date (mkdate 2024 1 25) /\
  is_latest_period scenario_store (mk_animal 2 "A2" "Sunrise" "F" "2021-06-01")
    (Some "2024-01-01 ~ 2024-01-20"%string) /\
  @end_date_of reference_runtime (Some "2024-01-01 ~ 2024-01-20"%string) (mkdate 2024 1 20) /\
  calendar_date (mkdate 2024 1 20) /\
  days_apart (mkdate 2024 1 20) (mkdate 2024 1 25) 5 /\
  @compute_animal_category reference_runtime scenario_store (mkdate 2024 1 25) "A2"
  = Milking.
Proof.
  assert (Hf : first_with_tag scenario_store "A2"
                 (mk_animal 2 "A2" "Sunrise" "F" "2021-06-01")).
  { exists [mk_animal 1 "A1" "Sunrise" "F" "2021-04-01"],
           [mk_animal 3 "A3" "Sunrise" "Bull" "2020-03-15"].
    split; [reflexivity|]. split; [reflexivity|]. intros b [<-|[]]. discriminate. }
  assert (Hc : calendar_date (mkdate 2024 1 25)) by (vm_compute; intuition discriminate).
  assert (Hp : is_latest_period scenario_store (mk_animal 2 "A2" "Sunrise" "F" "2021-06-01")
                 (Some "2024-01-01 ~ 2024-01-20"%string)).
  { split.
    - eexists. split; [now left|]. split; reflexivity.
    - intros q [l [[<-|[]] [_ <-]]]. apply null_leb_spec. reflexivity. }
  assert (Hed : @end_date_of reference_runtime (Some "2024-01-01 ~ 2024-01-20"%string)
                  (mkdate 2024 1 20)).
  { exists "2024-01-01 "%string, " 2024-01-20"%string.
    split; [reflexivity|].
    split; [apply tilde_free_spec; reflexivity|].
    split; [apply tilde_free_spec; reflexivity|reflexivity]. }
  assert (Hce : calendar_date (mkdate 2024 1 20)) by (vm_compute; intuition discriminate).
  assert (Hg : days_apart (mkdate 2024 1 20) (mkdate 2024 1 25) 5).
  { left. split; [lia|reflexivity]. }
  split; [exact Hf|]. split; [exact Hc|]. split; [exact Hp|]. split; [exact Hed|].
  split; [exact Hce|]. split; [exact Hg|].
  apply (proj1 (proj2 (proj2 (proj2 (@animal_category_characterised reference_runtime
                                       scenario_store (mkdate 2024 1 25) "A2" _ Hf Hc))
                             _ _ Hp Hed Hce) 5 Hg)).
  lia.
Defined.

(** C4 (as the specification states it) fails on an ear tag worn on two
    farms: the cow of Sunrise has no lactation period, yet her category
    is "Milking", read off the row of Hillside that comes first. *)
Lemma category_as_specified_fails :
  ~ category_as_specified shared_tag_dairy_store
      (mk_animal 2 "T1" "Sunrise" "F" "2021-06-01")
      (@compute_animal_category reference_runtime shared_tag_dairy_store
         (mkdate 2024 1 25) "T1").
Proof.
  assert (E : @compute_animal_category reference_runtime shared_tag_dairy_store
                (mkdate 2024 1 25) "T1" = Milking) by reflexivity.
  rewrite E. intros Hspec.
  assert (Habs : Milking = Fattening); [|discriminate].
  apply Hspec. intros p [l [[<-|[]] [Hid _]]]. discriminate Hid.
Qed.

(** The scenario of the specification, and a period that ended more than
    ten days ago. *)
Example category_scenario :
  @compute_animal_category reference_runtime scenario_store (mkdate 2024 1 25) "A1"
  = Fattening /\
  @compute_animal_category reference_runtime scenario_store (mkdate 2024 1 25) "A2"
  = Milking /\
  @compute_animal_category reference_runtime scenario_store (mkdate 2024 1 31) "A2"
  = Dry /\
  @compute_animal_category reference_runtime scenario_store (mkdate 2024 1 30) "A2"
  = Milking.
Proof. repeat split. Qed.

(** ** Heifer count *)

Lemma Qltb_spec (a b : Q) : Qltb a b = true <-> (a < b)%Q.
Proof.
  unfold Qltb. rewrite negb_true_iff. split.
  - intros Hle. apply Qnot_le_lt. intros Hba.
    apply Qle_bool_iff in Hba. congruence.
  - intros Hlt. destruct (Qle_bool b a) eqn:E; [|reflexivity].
    apply Qle_bool_iff in E. now apply Qlt_not_le in Hlt.
Qed.

(** Less than 24 months of 30.5 days is less than 732 days. *)
Lemma age_months_lt_24 (today birth_date : date) :
  (age_months today birth_date < 24 # 1)%Q <-> days_between today birth_date < 732.
Proof.
  unfold age_months, Qlt, Qdiv, Qmult, Qinv, inject_Z. simpl. lia.
Qed.

Lemma heifer_step_counted `{Runtime} (today : date) (count : nat) (x : option string) :
  heifer_step today count x = if counted_birth today x then S count else count.
Proof.
  unfold heifer_step, counted_birth. destruct x as [s|]; [|reflexivity].
  destruct (negb (String.eqb s "") && negb (String.eqb (strip s) "")); [|reflexivity].
  simpl. destruct (strptime_ymd s); reflexivity.
Qed.

Lemma heifer_loop `{Runtime} (today : date) (rows : list (option string)) (count : nat) :
  fold_left (heifer_step today) rows count =
  (count + length (filter (counted_birth today) rows))%nat.
Proof.
  revert count. induction rows as [|x rows IH]; intros count; simpl; [lia|].
  rewrite IH, heifer_step_counted.
  destruct (counted_birth today x); simpl; lia.
Qed.

Lemma filter_filter_andb {A : Type} (f g : A -> bool) (l : list A) :
  filter g (filter f l) = filter (fun x => f x && g x) l.
Proof.
  induction l as [|x l IH]; simpl; [reflexivity|].
  destruct (f x); simpl; [destruct (g x)|]; now rewrite IH.
Qed.

Lemma counted_birth_spec `{Runtime} (today : date) (x : option string) :
  calendar_date today ->
  (forall s d, strptime_ymd s = Some d -> calendar_date d) ->
  (counted_birth today x = true <->
   exists s birth_date days,
     x = Some s /\ s <> ""%string /\ strip s <> ""%string /\
     strptime_ymd s = Some birth_date /\
     days_apart birth_date today days /\
     (inject_Z days / (61 # 2) < 24 # 1)%Q).
Proof.
  intros Hcal Hparse. unfold counted_birth. destruct x as [s|].
  - rewrite !andb_true_iff, !negb_true_iff, !String.eqb_neq.
    destruct (strptime_ymd s) as [bd|] eqn:P.
    + pose proof (Hparse s bd P) as Hbd. rewrite Qltb_spec. split.
      * intros [[H1 H2] H3]. exists s, bd, (days_between today bd).
        split; [reflexivity|]. split; [exact H1|]. split; [exact H2|].
        split; [exact P|]. split; [now apply days_apart_between|exact H3].
      * intros [s' [bd' [days [[= <-] [H1 [H2 [Hp [Hd H3]]]]]]]].
        rewrite P in Hp. injection Hp as <-.
        apply (days_apart_ordinal bd today days Hbd Hcal) in Hd.
        split; [split; assumption|].
        unfold age_months, days_between. now rewrite <- Hd.
    + split; [intros [_ [=]]|].
      intros [s' [bd' [days [[= <-] [_ [_ [Hp _]]]]]]]. congruence.
  - split; [discriminate|intros [s [bd [days [[=] _]]]]].
Qed.

(** C9. For a current date of the calendar and a parser that returns
    days of the calendar only, the heifer count is the number of animal
    rows of the farm with gender "F" whose birth date is present, not
    blank, parses as a date and gives an age, the number of days from the
    birth date to the current date divided by 30.5, strictly below 24; a
    row with a missing, empty or unparseable birth date is not counted,
    and no input makes the count fail. *)
Theorem heifer_count_characterised `{Runtime} (db : store) (today : date) (farm : string) :
  calendar_date today ->
  (forall s d, strptime_ymd s = Some d -> calendar_date d) ->
  counts (is_heifer today farm) (animals db) (get_heifer_count db today farm).
Proof.
  intros Hcal Hparse.
  unfold get_heifer_count. rewrite heifer_loop. simpl.
  rewrite filter_map_swap, length_map, filter_filter_andb.
  apply counts_filter. intros a. unfold is_heifer.
  rewrite !andb_true_iff, !sql_eq_Some, (counted_birth_spec today _ Hcal Hparse). tauto.
Qed.

Lemma heifer_count_characterised_witness :
  calendar_date (mkdate 2024 3 20) /\
  (forall s d, parse_iso_date s = Some d -> calendar_date d) /\
  counts (@is_heifer reference_runtime (mkdate 2024 3 20) "Sunrise")
         (animals sunrise_store) 1.
Proof.
  assert (Hc : calendar_date (mkdate 2024 3 20)) by (vm_compute; intuition discriminate).
  split; [exact Hc|]. split; [exact parse_iso_date_calendar|].
  exact (@heifer_count_characterised reference_runtime sunrise_store
           (mkdate 2024 3 20) "Sunrise" Hc parse_iso_date_calendar).
Defined.

(** The scenario of the specification: of two females born 30 and 10
    months ago and a bull, one is a heifer. *)
Example heifer_scenario :
  @get_heifer_count reference_runtime sunrise_store (mkdate 2024 3 20) "Sunrise" = 1%nat.
Proof. reflexivity. Qed.

(** A birth date that does not parse, an empty one and a NULL one are
    passed over. *)
Example heifer_bad_birth_dates :
  @get_heifer_count reference_runtime
    {| animals := [mk_animal 1 "A1" "Sunrise" "F" "20/05/2023";
                   mk_animal 2 "A2" "Sunrise" "F" "";
                   {| a_id := 3; a_ear_tag := Some "A3"%string;
                      a_farm_name := Some "Sunrise"%string;
                      a_gender := Some "F"%string; a_birth_date := None |};
                   mk_animal 4 "A4" "Sunrise" "F" "2023-05-20"];
       issues := []; repros := []; lactations := []; milk_yields := [] |}
    (mkdate 2024 3 20) "Sunrise" = 1%nat.
Proof. reflexivity. Qed.

(** ** Average parity *)

Lemma bare_row_singleton `{Runtime} {A : Type} (x : A) : bare_row A [x] = Some x.
Proof.
  destruct (bare_row A [x]) as [y|] eqn:E.
  - apply bare_row_In in E as [<-|[]]. reflexivity.
  - exfalso. revert E. apply bare_row_nonempty. discriminate.
Qed.

(** C6 fails on a heifer bred at parity 0: a female animal with a
    reproduction record of non-NULL parity exists, yet the report shows
    the sentinel, because the mean 0.0 is falsy in [if row and row[0]]. *)
Theorem average_parity_zero_is_no_data `{Runtime} :
  (exists a r, In a (animals zero_parity_store) /\ In r (repros zero_parity_store) /\
               a_gender a = Some "F"%string /\ r_animal_id r = Some (a_id a) /\
               r_parity r = Some 0) /\
  parity_samples zero_parity_store = [0] /\
  get_average_parity zero_parity_store = NoParityData.
Proof.
  split.
  { eexists _, _. repeat split; [now left|now left|..]; reflexivity. }
  assert (E : parity_samples zero_parity_store = [0]).
  { unfold parity_samples. simpl. now rewrite bare_row_singleton. }
  split; [exact E|]. unfold get_average_parity. now rewrite E.
Qed.

(** With parities 2 and 4 on two cows the mean 3 is shown. *)
Example average_parity_of_two :
  @get_average_parity reference_runtime
    {| animals := [mk_animal 1 "A1" "Sunrise" "F" "2019-01-01";
                   mk_animal 2 "A2" "Sunrise" "F" "2018-01-01"];
       issues := [];
       repros := [{| r_animal_id := Some 1; r_breeding_date := None; r_parity := Some 2;
                     r_pregnancy_status := None; r_delivery_status := None;
                     r_calving_date := None |};
                  {| r_animal_id := Some 2; r_breeding_date := None; r_parity := Some 4;
                     r_pregnancy_status := None; r_delivery_status := None;
                     r_calving_date := None |}];
       lactations := []; milk_yields := [] |}
  = AverageParity ((6 # 1) / (2 # 1))%Q.
Proof. reflexivity. Qed.

(** ** Trailing 12-month series *)

Lemma toordinal_range (today : date) :
  valid_date today -> 2 <= year today -> 366 <= toordinal today <= MAXORDINAL.
Proof.
  intros [Hy [Hm Hd]] H2. unfold toordinal, ymd2ord, MAXORDINAL.
  pose proof (days_before_month_range (year today) (month today) Hm) as [L U].
  pose proof (days_before_year_mono 2 (year today) H2) as M2.
  pose proof (days_before_year_mono (year today + 1) 10000 ltac:(lia)) as M9.
  rewrite days_before_year_succ in M9.
  assert (D2 : days_before_year 2 = 365) by reflexivity.
  assert (D9 : days_before_year 10000 = 3652059) by reflexivity.
  lia.
Qed.

Lemma date_sub_days_some (today : date) (k : Z) :
  valid_date today -> 2 <= year today -> 0 <= k <= 365 ->
  date_sub_days today k = Some (ord2ymd (toordinal today - k)).
Proof.
  intros Hv H2 Hk. pose proof (toordinal_range today Hv H2) as R.
  unfold date_sub_days.
  assert (E1 : (0 <? toordinal today - k) = true) by (apply Z.ltb_lt; lia).
  assert (E2 : (toordinal today - k <=? MAXORDINAL) = true) by (apply Z.leb_le; lia).
  now rewrite E1, E2.
Qed.

Lemma month_dates_some (today : date) (idxs : list Z) :
  valid_date today -> 2 <= year today ->
  Forall (fun i => 0 <= i <= 11) idxs ->
  month_dates today idxs =
  Some (map (fun i => ord2ymd (toordinal today - (11 - i) * 30)) idxs).
Proof.
  intros Hv H2. induction 1 as [|i idxs Hi _ IH]; [reflexivity|].
  cbn [month_dates map].
  rewrite (date_sub_days_some today ((11 - i) * 30) Hv H2) by lia.
  now rewrite IH.
Qed.

Lemma RANGE12_range : Forall (fun i => 0 <= i <= 11) RANGE12.
Proof. unfold RANGE12. repeat constructor; lia. Qed.









(** *** The dictionary of the queried rows *)





(** *** The loop that fills the slots *)




(** *** The rows of the query *)



Lemma sql_ge_spec (x : option string) (bound : string) :
  sql_ge x bound = true <-> exists s, x = Some s /\ bytes_le bound s.
Proof.
  unfold sql_ge. destruct x as [s|].
  - rewrite str_leb_spec. split; [eauto|]. now intros [s' [[= <-] Hle]].
  - split; [discriminate|]. intros [s [[=] _]].
Qed.


Lemma monthly_rows_In `{Runtime} (db : store) (ear_tags : list string) (start : string)
  (k : option string) (v : option Q) :
  In (k, v) (monthly_rows db ear_tags start) <->
  (exists y, In y (filter (fun m => sql_ge (m_record_date m) start)
                          (scope_yields db ear_tags)) /\
             sqlite_month (m_record_date y) = k) /\
  v = sql_sum (map m_yield_value
                 (filter (fun m => if option_string_dec (sqlite_month (m_record_date m)) k
                                   then true else false)
                         (filter (fun m => sql_ge (m_record_date m) start)
                                 (scope_yields db ear_tags)))).
Proof.
  unfold monthly_rows. cbv zeta. rewrite in_map_iff. split.
  - intros [k' [[= -> <-] Hk]]. split; [|reflexivity].
    apply order_by_In, nodup_In, in_map_iff in Hk. destruct Hk as [y [Hm Hy]]. eauto.
  - intros [[y [Hy Hm]] ->]. exists k. split; [reflexivity|].
    apply order_by_In, nodup_In, in_map_iff. eauto.
Qed.







Lemma nth_error_RANGE12 (i : nat) (z : Z) :
  nth_error RANGE12 i = Some z -> z = Z.of_nat i /\ 0 <= z <= 11.
Proof.
  unfold RANGE12.
  do 12 (destruct i as [|i]; [intros [= <-]; split; [reflexivity|lia]|]).
  destruct i; discriminate.
Qed.

Lemma nth_error_month_dates (today : date) (i : nat) (d : date) :
  nth_error (map (fun i => ord2ymd (toordinal today - (11 - i) * 30)) RANGE12) i
  = Some d ->
  0 <= Z.of_nat i <= 11 /\ d = ord2ymd (toordinal today - (11 - Z.of_nat i) * 30).
Proof.
  intros E. rewrite nth_error_map in E.
  destruct (nth_error RANGE12 i) as [z|] eqn:Ez; [|discriminate].
  apply nth_error_RANGE12 in Ez as [-> Hr]. cbn in E. injection E as <-.
  split; [exact Hr|reflexivity].
Qed.

(** The day 365 days back. *)
Lemma window_start (today : date) :
  valid_date today -> 2 <= year today ->
  calendar_date (ord2ymd (toordinal today - 365)) /\
  days_apart (ord2ymd (toordinal today - 365)) today 365 /\
  1 <= year (ord2ymd (toordinal today - 365)) /\
  toordinal (ord2ymd (toordinal today - 365)) = toordinal today - 365.
Proof.
  intros Hv H2. pose proof (toordinal_range today Hv H2) as R.
  destruct (ord2ymd_spec (toordinal today - 365) ltac:(lia)) as [Hy [Hm [Hd E]]].
  generalize dependent (ord2ymd (toordinal today - 365)). intros s Hy Hm Hd E.
  assert (Hc : calendar_date s) by (apply calendar_date_days_in_month; auto).
  split; [exact Hc|]. split; [|split; [exact Hy|exact E]].
  apply days_apart_ordinal; [exact Hc|now apply valid_date_calendar|lia].
Qed.

(** On a scope that is not empty the builder runs the query from that
    day and builds the series on the twelve dates. *)
Lemma plot_on_scope `{Runtime} (db : store) (today : date) (farm status : string) :
  get_filtered_ear_tags db farm status <> [] ->
  valid_date today -> 2 <= year today ->
  plot_farm_milk_yield_trend_filtered db today farm status
  = build_series
      (monthly_rows db (get_filtered_ear_tags db farm status)
         (strftime_ymd (ord2ymd (toordinal today - 365))))
      (map (fun i => ord2ymd (toordinal today - (11 - i) * 30)) RANGE12).
Proof.
  intros Hscope Hv H2. unfold plot_farm_milk_yield_trend_filtered.
  destruct (get_filtered_ear_tags db farm status) as [|t ts]; [contradiction|].
  rewrite (date_sub_days_some today 365 Hv H2) by lia.
  now rewrite (month_dates_some today RANGE12 Hv H2 RANGE12_range).
Qed.




(** The series of the sample dairy on 2024-03-20. *)
Example trend_of_dairy :
  @plot_farm_milk_yield_trend_filtered reference_runtime dairy_store
    (mkdate 2024 3 20) "Sunrise" "Total" =
  Figure ["2023-04"; "2023-05"; "2023-06"; "2023-07"; "2023-08"; "2023-09";
          "2023-10"; "2023-11"; "2023-12"; "2024-01"; "2024-02"; "2024-03"]%string
         [Some 0%Q; Some 0%Q; Some 0%Q; Some 0%Q; Some 0%Q; Some 0%Q;
          Some 0%Q; Some 0%Q; Some 0%Q; Some (30 # 1)%Q; Some 0%Q; Some (160 # 4)%Q].
Proof. reflexivity. Qed.

(** A labelled month whose rows have no yield: its total is NULL, which
    the drawing refuses. *)
Example trend_of_null_month :
  @plot_farm_milk_yield_trend_filtered reference_runtime null_yield_store
    (mkdate 2024 3 20) "Sunrise" "Total" = DrawingTypeError /\
  @null_month reference_runtime null_yield_store
    (get_filtered_ear_tags null_yield_store "Sunrise" "Total") "2023-03-21" "2024-03".
Proof.
  split; [reflexivity|]. split.
  - eexists. split; [right; now left|]. split; [eexists; split; [reflexivity|now left]|].
    split; [|reflexivity].
    eexists. split; [reflexivity|]. apply str_leb_spec. reflexivity.
  - intros y [[<-|[<-|[]]] [_ [_ Hm]]]; [discriminate Hm|reflexivity].
Qed.

(** The dates are taken 30 days apart, not a month apart: on 2024-03-31
    January and March come twice, and April 2023 and February 2024 are
    left out of the twelve trailing months. *)
Example trend_repeats_a_month :
  @plot_farm_milk_yield_trend_filtered reference_runtime dairy_store
    (mkdate 2024 3 31) "Sunrise" "Total" =
  Figure ["2023-05"; "2023-06"; "2023-07"; "2023-08"; "2023-09"; "2023-10";
          "2023-11"; "2023-12"; "2024-01"; "2024-01"; "2024-03"; "2024-03"]%string
         [Some 0%Q; Some 0%Q; Some 0%Q; Some 0%Q; Some 0%Q; Some 0%Q;
          Some 0%Q; Some 0%Q; Some (30 # 1)%Q; Some (30 # 1)%Q;
          Some (160 # 4)%Q; Some (160 # 4)%Q] /\
  trailing_months (mkdate 2024 3 31) =
  ["2023-04"; "2023-05"; "2023-06"; "2023-07"; "2023-08"; "2023-09";
   "2023-10"; "2023-11"; "2023-12"; "2024-01"; "2024-02"; "2024-03"]%string.
Proof. split; reflexivity. Qed.

(* ================================================================== *)
(** * Part III. Further properties of the report *)
(* ================================================================== *)

(** ** Total animals *)

Lemma kept_tag_spec (x : option string) :
  kept_tag x = true <-> exists t, x = Some t /\ t <> ""%string.
Proof.
  destruct x as [s|]; simpl.
  - rewrite negb_true_iff, String.eqb_neq. split; [eauto|].
    now intros [t [[= <-] Ht]].
  - split; [discriminate|intros [t [[=] _]]].
Qed.

Lemma truthy_tags_length {A : Type} (g : A -> option string) (l : list A) :
  length (truthy_tags (map g l)) = length (filter (fun x => kept_tag (g x)) l).
Proof.
  induction l as [|x l IH]; simpl; [reflexivity|].
  rewrite length_app, IH. destruct (g x) as [s|]; simpl; [|reflexivity].
  destruct (String.eqb s ""); reflexivity.
Qed.

Lemma truthy_tags_repeat_length (x : option string) (n : nat) :
  length (truthy_tags (repeat x n)) = if kept_tag x then n else 0%nat.
Proof.
  induction n as [|n IH]; simpl; [now destruct (kept_tag x)|].
  rewrite length_app, IH. destruct x as [s|]; simpl; [|reflexivity].
  destruct (String.eqb s ""); reflexivity.
Qed.

Lemma truthy_tags_sorted_length {A : Type} (g : A -> option string) (l : list A) :
  length (truthy_tags (map g (order_by null_leb g l))) = length (truthy_tags (map g l)).
Proof.
  apply Permutation_length. unfold truthy_tags.
  apply Permutation_flat_map, Permutation_map, order_by_perm.
Qed.

(** X1. For the status "Total" the number of animals shown is the number
    of animal rows of the farm with an ear tag that is neither NULL nor
    empty; a row with such an ear tag missing is left out of the count. *)
Theorem total_animals_counts (db : store) (farm : string) :
  counts (fun a => a_farm_name a = Some farm /\
                   exists t, a_ear_tag a = Some t /\ t <> ""%string)
         (animals db)
         (get_total_animals_filtered db farm "Total").
Proof.
  unfold get_total_animals_filtered.
  rewrite scope_of_total, truthy_tags_sorted_length, truthy_tags_length, filter_filter_andb.
  apply counts_filter. intros a.
  now rewrite andb_true_iff, sql_eq_Some, kept_tag_spec.
Qed.

Lemma status_hits_single (db : store) (status : string) (a : animal) :
  (length (events_of db a) <= 1)%nat ->
  status_hits db status a =
  if String.eqb (effective_status db a) status then 1%nat else 0%nat.
Proof.
  unfold status_hits, effective_status, latest_event.
  destruct (events_of db a) as [|e [|e' es]]; intros H.
  - cbn [order_by fold_right hd_error]. now rewrite String.eqb_sym.
  - cbn [order_by fold_right insert_row hd_error filter].
    now destruct (String.eqb (coalesce (i_event_status e) "owned") status).
  - simpl in H. lia.
Qed.

Lemma scope_block_length (db : store) (farm status : string) (a : animal) :
  length (truthy_tags (map (fun row => a_ear_tag (fst row))
                         (filter (scope_where farm status) (joined_rows db a)))) =
  if sql_eq (a_farm_name a) (Some farm) && kept_tag (a_ear_tag a)
  then status_hits db status a else 0%nat.
Proof.
  rewrite (map_const_repeat _ (a_ear_tag a)).
  - rewrite truthy_tags_repeat_length, joined_hits.
    destruct (kept_tag (a_ear_tag a)), (sql_eq (a_farm_name a) (Some farm)); reflexivity.
  - intros row Hrow. apply filter_In in Hrow as [Hrow _].
    now rewrite (joined_rows_fst db a row Hrow).
Qed.

Lemma scope_length (db : store) (farm status : string) :
  status <> "Total"%string ->
  length (get_filtered_ear_tags db farm status) =
  list_sum (map (fun a => if sql_eq (a_farm_name a) (Some farm) && kept_tag (a_ear_tag a)
                          then status_hits db status a else 0%nat)
                (animals db)).
Proof.
  intros Hs.
  rewrite (scope_of_status db farm status Hs), truthy_tags_sorted_length.
  unfold left_join_issue. induction (animals db) as [|a l IH]; [reflexivity|].
  cbn [flat_map map list_sum fold_right].
  rewrite filter_app, map_app, truthy_tags_app, length_app, scope_block_length.
  f_equal. exact IH.
Qed.

(** X2. Where every animal has at most one ownership event, the number
    of animals shown for a status other than "Total" is the number of
    animal rows of the farm, with an ear tag neither NULL nor empty, whose
    effective status is that status. *)
Theorem status_animals_counts (db : store) (farm status : string) :
  status <> "Total"%string ->
  (forall a, In a (animals db) -> (length (events_of db a) <= 1)%nat) ->
  counts (fun a => a_farm_name a = Some farm /\
                   (exists t, a_ear_tag a = Some t /\ t <> ""%string) /\
                   effective_status db a = status)
         (animals db)
         (get_total_animals_filtered db farm status).
Proof.
  intros Hs Hev. unfold get_total_animals_filtered. rewrite (scope_length db farm status Hs).
  induction (animals db) as [|a l IH]; [constructor|].
  cbn [map list_sum fold_right].
  assert (IH' : counts (fun a => a_farm_name a = Some farm /\
                                 (exists t, a_ear_tag a = Some t /\ t <> ""%string) /\
                                 effective_status db a = status) l
                  (list_sum (map (fun a => if sql_eq (a_farm_name a) (Some farm)
                                                && kept_tag (a_ear_tag a)
                                           then status_hits db status a else 0%nat) l)))
    by (apply IH; intros b Hb; apply Hev; now right).
  rewrite (status_hits_single db status a (Hev a (or_introl eq_refl))).
  pose proof (sql_eq_Some (a_farm_name a) farm) as HF.
  pose proof (kept_tag_spec (a_ear_tag a)) as HK.
  destruct (sql_eq (a_farm_name a) (Some farm)), (kept_tag (a_ear_tag a));
    cbn [andb];
    try (apply counts_miss; [|exact IH']; intros [H1 [H2 _]];
         first [apply HF in H1; discriminate | apply HK in H2; discriminate]).
  destruct (String.eqb_spec (effective_status db a) status) as [E|E].
  - apply counts_hit; [|exact IH']. split; [now apply HF|]. split; [now apply HK|exact E].
  - apply counts_miss; [|exact IH']. now intros [_ [_ H3]].
Qed.

Lemma status_animals_counts_witness :
  "owned"%string <> "Total"%string /\
  (forall a, In a (animals sunrise_store) ->
             (length (events_of sunrise_store a) <= 1)%nat) /\
  get_total_animals_filtered sunrise_store "Sunrise" "owned" = 2%nat /\
  counts (fun a => a_farm_name a = Some "Sunrise"%string /\
                   (exists t, a_ear_tag a = Some t /\ t <> ""%string) /\
                   effective_status sunrise_store a = "owned"%string)
         (animals sunrise_store) 2.
Proof.
  assert (Hs : "owned"%string <> "Total"%string) by discriminate.
  assert (Hev : forall a, In a (animals sunrise_store) ->
                          (length (events_of sunrise_store a) <= 1)%nat).
  { intros a [<-|[<-|[<-|[]]]]; vm_compute; repeat constructor. }
  split; [exact Hs|]. split; [exact Hev|]. split; [reflexivity|].
  exact (status_animals_counts sunrise_store "Sunrise" "owned" Hs Hev).
Defined.

(** ** Scope-based aggregations: a status against "Total" *)

Lemma scope_In_total (db : store) (farm status : string) (t : string) :
  In t (get_filtered_ear_tags db farm status) ->
  In t (get_filtered_ear_tags db farm "Total").
Proof.
  destruct (string_dec status "Total") as [->|Hne]; [trivial|].
  rewrite (scope_status_In db farm status t Hne), scope_total_In.
  intros [Ht [a [Ha [Hf [Htag _]]]]]. split; [exact Ht|]. eauto.
Qed.

Lemma filter_length_impl {A : Type} (p q : A -> bool) (l : list A) :
  (forall x, In x l -> p x = true -> q x = true) ->
  (length (filter p l) <= length (filter q l))%nat.
Proof.
  induction l as [|x l IH]; intros H; simpl; [lia|].
  assert (IH' : (length (filter p l) <= length (filter q l))%nat)
    by (apply IH; intros y Hy; apply H; now right).
  destruct (p x) eqn:P.
  - rewrite (H x (or_introl eq_refl) P). simpl. lia.
  - destruct (q x); simpl; lia.
Qed.

(** X3. The abortion count of a status never exceeds the abortion count
    of "Total" for the same farm. *)
Theorem abortion_count_le_total (db : store) (farm status : string) :
  (get_farm_abortion_count_filtered db farm status
   <= get_farm_abortion_count_filtered db farm "Total")%nat.
Proof.
  unfold get_farm_abortion_count_filtered.
  pose proof (scope_In_total db farm status) as Hsub.
  destruct (get_filtered_ear_tags db farm status) as [|t ts]; [lia|].
  destruct (get_filtered_ear_tags db farm "Total") as [|t' ts'].
  { destruct (Hsub t (or_introl eq_refl)). }
  apply filter_length_impl. intros r _.
  rewrite !andb_true_iff, !id_in_scope_spec.
  intros [[a [u [Ha [Hu [Hin Hid]]]]] Hab]. split; [|exact Hab].
  exists a, u. auto.
Qed.

Lemma non_null_In {A : Type} (xs : list (option A)) (v : A) :
  In v (non_null xs) <-> In (Some v) xs.
Proof.
  unfold non_null. rewrite in_flat_map. split.
  - intros [[w|] [Hin Hv]]; [|destruct Hv]. destruct Hv as [<-|[]]. exact Hin.
  - intros Hin. exists (Some v). split; [exact Hin|now left].
Qed.

Lemma scope_dates_In (db : store) (ear_tags : list string) (d : string) :
  In d (nodup string_dec (non_null (map m_record_date (scope_yields db ear_tags)))) <->
  milked_on db ear_tags d.
Proof.
  rewrite nodup_In, non_null_In, in_map_iff. unfold milked_on, scope_yields. split.
  - intros [m [Hd Hm]]. apply filter_In in Hm as [Hm Hin].
    apply sql_in_spec in Hin as [t [Ht Hin]]. exists m, t. auto.
  - intros [m [t [Hm [Ht [Hin Hd]]]]]. exists m. split; [exact Hd|].
    apply filter_In. split; [exact Hm|]. apply sql_in_spec. eauto.
Qed.

(** X4. The total lactation days are the number of distinct record dates
    on which some animal of the scope has a milk-yield row: a date counts
    once however many animals were milked on it, and a row with a NULL
    date counts for nothing. *)
Theorem lactation_days_distinct_dates (db : store) (farm status : string) :
  exists dates,
    NoDup dates /\
    length dates = get_farm_total_lactation_days_filtered db farm status /\
    forall d, In d dates <-> milked_on db (get_filtered_ear_tags db farm status) d.
Proof.
  unfold get_farm_total_lactation_days_filtered.
  destruct (get_filtered_ear_tags db farm status) as [|t ts] eqn:E.
  - exists []. split; [constructor|]. split; [reflexivity|].
    intros d. split; [intros []|]. intros [m [u [_ [_ [[] _]]]]].
  - exists (nodup string_dec
              (non_null (map m_record_date (scope_yields db (t :: ts))))).
    split; [apply NoDup_nodup|]. split; [reflexivity|].
    intros d. apply scope_dates_In.
Qed.

(** X5. The total lactation days of a status never exceed those of
    "Total" for the same farm. *)
Theorem lactation_days_le_total (db : store) (farm status : string) :
  (get_farm_total_lactation_days_filtered db farm status
   <= get_farm_total_lactation_days_filtered db farm "Total")%nat.
Proof.
  unfold get_farm_total_lactation_days_filtered.
  pose proof (scope_In_total db farm status) as Hsub.
  destruct (get_filtered_ear_tags db farm status) as [|t ts]; [lia|].
  destruct (get_filtered_ear_tags db farm "Total") as [|t' ts'].
  { destruct (Hsub t (or_introl eq_refl)). }
  apply NoDup_incl_length; [apply NoDup_nodup|].
  intros d Hd. apply scope_dates_In. apply scope_dates_In in Hd.
  destruct Hd as [m [u [Hm [Hu [Hin Hd]]]]]. exists m, u. auto.
Qed.

(** ** Yield by year *)

Lemma nullz_leb_total (a b : option Z) : nullz_leb a b = true \/ nullz_leb b a = true.
Proof. destruct a, b; simpl; auto. rewrite !Z.leb_le. lia. Qed.

Lemma nullz_leb_trans (a b c : option Z) :
  nullz_leb a b = true -> nullz_leb b c = true -> nullz_leb a c = true.
Proof. destruct a, b, c; simpl; try congruence. rewrite !Z.leb_le. lia. Qed.

Lemma StronglySorted_strict {A B : Type} (R : A -> A -> Prop) (f : A -> B) (l : list A) :
  StronglySorted R l -> NoDup (map f l) ->
  StronglySorted (fun a b => R a b /\ f a <> f b) l.
Proof.
  induction 1 as [|x l Hs IH Hx]; intros Hnd; [constructor|].
  cbn [map] in Hnd. apply NoDup_cons_iff in Hnd as [Hnot Hnd].
  constructor; [now apply IH|].
  rewrite Forall_forall in *. intros y Hy. split; [now apply Hx|].
  intros E. apply Hnot. rewrite E. now apply in_map.
Qed.

Lemma scope_yields_nil (db : store) : scope_yields db [] = [].
Proof.
  unfold scope_yields. induction (milk_yields db) as [|m l IH]; [reflexivity|].
  simpl. now destruct (m_ear_tag m).
Qed.

(** The rows of [GROUP BY record_year] before they are sorted. *)
Lemma year_rows_keys `{Runtime} (sel : list milk_yield) :
  map fst
    (map (fun y =>
            (y, sql_sum (map m_yield_value
                           (filter (fun m => if option_Z_dec (m_record_year m) y
                                             then true else false) sel))))
         (nodup option_Z_dec (map m_record_year sel)))
  = nodup option_Z_dec (map m_record_year sel).
Proof. rewrite map_map. cbn [fst]. apply map_id. Qed.

Lemma existsb_null_year (rows : list (option Z * option Q)) :
  existsb (fun row => match fst row with None => true | Some _ => false end) rows = true
  <-> In None (map fst rows).
Proof.
  rewrite existsb_exists, in_map_iff. split.
  - intros [row [Hin Hn]]. exists row. split; [|exact Hin]. now destruct (fst row).
  - intros [row [Hn Hin]]. exists row. split; [exact Hin|]. now rewrite Hn.
Qed.

(** X6. When no milk-yield row of the scope has a NULL record year, the
    yield by year lists the years in strictly ascending order, each year
    that occurs among the rows of the scope exactly once; the total of a
    year is NULL when none of its rows has a yield and otherwise the
    floating-point total that SQLite returns for the yields of its rows,
    taken in some order. *)
Theorem yield_by_year_ascending `{Runtime} (db : store) (farm status : string) :
  let sel := scope_yields db (get_filtered_ear_tags db farm status) in
  let r := get_farm_milk_yield_by_year_filtered db farm status in
  (forall m, In m sel -> m_record_year m <> None) ->
  StronglySorted (fun a b => nullz_leb (fst a) (fst b) = true /\ fst a <> fst b) r /\
  (forall y, In (Some y) (map fst r) <-> exists m, In m sel /\ m_record_year m = Some y) /\
  (forall y t, In (Some y, t) r ->
     let yields :=
       non_null (map m_yield_value
                   (filter (fun m => if option_Z_dec (m_record_year m) (Some y)
                                     then true else false) sel)) in
     match t with
     | None => yields = []
     | Some total =>
         yields <> [] /\ exists vs, Permutation vs yields /\ total = real_sum vs
     end).
Proof.
  intros sel r Hnn. subst sel r. unfold get_farm_milk_yield_by_year_filtered.
  destruct (get_filtered_ear_tags db farm status) as [|t ts].
  { rewrite scope_yields_nil. split; [constructor|]. split.
    - intros y. split; [intros []|intros [m [[] _]]].
    - intros y u []. }
  set (sel := scope_yields db (t :: ts)) in *.
  set (rows := map _ (nodup option_Z_dec (map m_record_year sel))).
  assert (Hkeys : map fst rows = nodup option_Z_dec (map m_record_year sel))
    by apply year_rows_keys.
  assert (Hsort : sort_by_year rows = Some (order_by nullz_leb fst rows)).
  { unfold sort_by_year.
    destruct (existsb _ rows) eqn:Ex; [|reflexivity].
    apply existsb_null_year in Ex. rewrite Hkeys, nodup_In, in_map_iff in Ex.
    destruct Ex as [m [Hy Hm]]. now apply Hnn in Hm. }
  rewrite Hsort.
  assert (Hperm : Permutation (map fst (order_by nullz_leb fst rows)) (map fst rows))
    by apply Permutation_map, order_by_perm.
  split.
  { apply (StronglySorted_strict (fun a b => nullz_leb (fst a) (fst b) = true) fst).
    - apply (order_by_sorted nullz_leb fst nullz_leb_total nullz_leb_trans).
    - apply (Permutation_NoDup (Permutation_sym Hperm)).
      rewrite Hkeys. apply NoDup_nodup. }
  split.
  { intros y. split.
    - intros Hin. apply (Permutation_in _ Hperm) in Hin.
      rewrite Hkeys, nodup_In, in_map_iff in Hin.
      destruct Hin as [m [Hy Hm]]. eauto.
    - intros [m [Hm Hy]]. apply (Permutation_in _ (Permutation_sym Hperm)).
      rewrite Hkeys, nodup_In, in_map_iff. eauto. }
  intros y u Hin. apply order_by_In in Hin. unfold rows in Hin.
  apply in_map_iff in Hin as [k [[= -> <-] _]]. cbv zeta. unfold sql_sum.
  destruct (non_null _) as [|v vs] eqn:E; [reflexivity|].
  split; [discriminate|]. exists (v :: vs). split; [apply Permutation_refl|reflexivity].
Qed.

Lemma yield_by_year_ascending_witness :
  (forall m, In m (scope_yields dairy_store
                     (get_filtered_ear_tags dairy_store "Sunrise" "Total")) ->
             m_record_year m <> None) /\
  map fst (@get_farm_milk_yield_by_year_filtered reference_runtime dairy_store
             "Sunrise" "Total")
  = [Some 2022; Some 2024] /\
  StronglySorted (fun a b => nullz_leb (fst a) (fst b) = true /\ fst a <> fst b)
    (@get_farm_milk_yield_by_year_filtered reference_runtime dairy_store
       "Sunrise" "Total").
Proof.
  assert (Hnn : forall m, In m (scope_yields dairy_store
                                  (get_filtered_ear_tags dairy_store "Sunrise" "Total")) ->
                          m_record_year m <> None).
  { intros m [<-|[<-|[<-|[<-|[]]]]]; discriminate. }
  split; [exact Hnn|]. split; [reflexivity|].
  exact (proj1 (@yield_by_year_ascending reference_runtime dairy_store
                  "Sunrise" "Total" Hnn)).
Defined.

Lemma two_members_length {A : Type} (l : list A) (a b : A) :
  In a l -> In b l -> a <> b -> (2 <= length l)%nat.
Proof.
  destruct l as [|x [|y l]]; simpl; intros Ha Hb Hne;
    [destruct Ha | destruct Ha as [<-|[]], Hb as [<-|[]]; contradiction | lia].
Qed.

(** X7. When the scope has a milk-yield row with a NULL record year and
    another with a year, the yield by year is the empty sequence: the
    sort fails on comparing the NULL with the year, and the failure is
    turned into the default. *)
Theorem yield_by_year_null_year `{Runtime} (db : store) (farm status : string)
  (m1 m2 : milk_yield) (y : Z) :
  let sel := scope_yields db (get_filtered_ear_tags db farm status) in
  In m1 sel -> In m2 sel ->
  m_record_year m1 = None -> m_record_year m2 = Some y ->
  get_farm_milk_yield_by_year_filtered db farm status = [].
Proof.
  intros sel H1 H2 E1 E2. subst sel. unfold get_farm_milk_yield_by_year_filtered.
  destruct (get_filtered_ear_tags db farm status) as [|t ts]; [reflexivity|].
  set (sel := scope_yields db (t :: ts)) in *.
  set (rows := map _ (nodup option_Z_dec (map m_record_year sel))).
  assert (Hkeys : map fst rows = nodup option_Z_dec (map m_record_year sel))
    by apply year_rows_keys.
  assert (Hnone : In None (map fst rows)).
  { rewrite Hkeys, nodup_In, in_map_iff. eauto. }
  assert (Hsome : In (Some y) (map fst rows)).
  { rewrite Hkeys, nodup_In, in_map_iff. eauto. }
  unfold sort_by_year.
  apply existsb_null_year in Hnone. rewrite Hnone.
  assert (Hlen : (2 <= length rows)%nat).
  { rewrite <- (length_map fst).
    apply (two_members_length _ None (Some y)); [now apply existsb_null_year|exact Hsome|discriminate]. }
  apply Nat.leb_le in Hlen. now rewrite Hlen.
Qed.

Lemma yield_by_year_null_year_witness :
  exists m1 m2,
    In m1 (scope_yields null_year_store
             (get_filtered_ear_tags null_year_store "Sunrise" "Total")) /\
    In m2 (scope_yields null_year_store
             (get_filtered_ear_tags null_year_store "Sunrise" "Total")) /\
    m_record_year m1 = None /\ m_record_year m2 = Some 2024 /\
    @get_farm_milk_yield_by_year_filtered reference_runtime null_year_store
      "Sunrise" "Total" = [].
Proof.
  eexists _, _.
  assert (H1 : In (nth 1 (milk_yields null_year_store) (mk_yield "" "" 0 0))
                  (scope_yields null_year_store
                     (get_filtered_ear_tags null_year_store "Sunrise" "Total")))
    by (vm_compute; auto).
  assert (H2 : In (mk_yield "A1" "2024-03-05" 2024 (41 # 2))
                  (scope_yields null_year_store
                     (get_filtered_ear_tags null_year_store "Sunrise" "Total")))
    by (vm_compute; auto).
  split; [exact H1|]. split; [exact H2|]. split; [reflexivity|]. split; [reflexivity|].
  exact (@yield_by_year_null_year reference_runtime null_year_store
           "Sunrise" "Total" _ _ 2024 H1 H2 eq_refl eq_refl).
Defined.

(** ** Heifers and bulls *)

Lemma filter_disjoint_length {A : Type} (p q r : A -> bool) (l : list A) :
  (forall x, p x = true -> r x = true) ->
  (forall x, q x = true -> r x = true) ->
  (forall x, p x = true -> q x = false) ->
  (length (filter p l) + length (filter q l) <= length (filter r l))%nat.
Proof.
  intros Hp Hq Hpq. induction l as [|x l IH]; simpl; [lia|].
  pose proof (Hp x) as Hpx. pose proof (Hq x) as Hqx. pose proof (Hpq x) as Hd.
  destruct (p x), (q x), (r x); simpl; try lia;
    first [specialize (Hpx eq_refl) | specialize (Hqx eq_refl) | specialize (Hd eq_refl)];
    discriminate.
Qed.

(** X8. The heifer count and the bull count of a farm together never
    exceed the number of animal rows of the farm: no row is counted both
    as a heifer and as a bull. *)
Theorem heifers_and_bulls_le_farm `{Runtime} (db : store) (today : date) (farm : string) :
  exists n,
    counts (fun a => a_farm_name a = Some farm) (animals db) n /\
    (get_heifer_count db today farm + get_bull_count db farm <= n)%nat.
Proof.
  exists (length (filter (fun a => sql_eq (a_farm_name a) (Some farm)) (animals db))).
  split.
  { apply counts_filter. intros a. apply sql_eq_Some. }
  unfold get_heifer_count, get_bull_count. rewrite heifer_loop. cbn [Nat.add].
  rewrite filter_map_swap, length_map, filter_filter_andb.
  apply filter_disjoint_length.
  - intros a Ha. now apply andb_true_iff in Ha as [Ha _]; apply andb_true_iff in Ha as [Ha _].
  - intros a Ha. now apply andb_true_iff in Ha as [Ha _].
  - intros a Ha. apply andb_true_iff in Ha as [Ha _]. apply andb_true_iff in Ha as [_ Hg].
    apply sql_eq_Some in Hg. rewrite Hg. cbn. apply andb_false_r.
Qed.

(** ** Distribution charts *)

Section TallyFacts.
Context {K : Type} (eqb : K -> K -> bool).
Hypothesis eqb_spec : forall a b, eqb a b = true <-> a = b.

Lemma tally_eqb_refl (k : K) : eqb k k = true.
Proof. now apply eqb_spec. Qed.

Lemma tally_add_sum (k : K) (d : list (K * nat)) :
  list_sum (map snd (tally_add eqb k d)) = S (list_sum (map snd d)).
Proof.
  induction d as [|[k' n] d IH]; simpl; [reflexivity|].
  destruct (eqb k k'); simpl; [reflexivity|]. rewrite IH. lia.
Qed.

Lemma tally_add_get (k k' : K) (d : list (K * nat)) :
  tally_get eqb k' (tally_add eqb k d) =
  if eqb k' k then S (tally_get eqb k' d) else tally_get eqb k' d.
Proof.
  unfold tally_get. induction d as [|[k1 n] d IH]; cbn [tally_add find fst snd].
  - destruct (eqb k' k); reflexivity.
  - destruct (eqb k k1) eqn:E1; cbn [find fst snd].
    + apply eqb_spec in E1. subst k1.
      destruct (eqb k' k); reflexivity.
    + destruct (eqb k' k1) eqn:E2; cbn [snd].
      * apply eqb_spec in E2. subst k1.
        destruct (eqb k' k) eqn:E3; [|reflexivity].
        apply eqb_spec in E3. subst k'. rewrite tally_eqb_refl in E1. discriminate.
      * exact IH.
Qed.

Lemma tally_add_keys (k : K) (d : list (K * nat)) :
  (In k (map fst d) /\ map fst (tally_add eqb k d) = map fst d) \/
  (~ In k (map fst d) /\ map fst (tally_add eqb k d) = map fst d ++ [k]).
Proof.
  induction d as [|[k1 n] d IH]; cbn [tally_add map fst app].
  - right. split; [intros []|reflexivity].
  - destruct (eqb k k1) eqn:E1; cbn [map fst].
    + apply eqb_spec in E1. subst k1. left. split; [now left|reflexivity].
    + destruct IH as [[Hin E]|[Hnot E]]; rewrite E.
      * left. split; [now right|reflexivity].
      * right. split; [|reflexivity]. intros [->|Hin]; [|now apply Hnot].
        rewrite tally_eqb_refl in E1. discriminate.
Qed.

Lemma tally_add_positive (k : K) (d : list (K * nat)) :
  Forall (fun e => (1 <= snd e)%nat) d ->
  Forall (fun e => (1 <= snd e)%nat) (tally_add eqb k d).
Proof.
  induction 1 as [|[k1 n] d Hn Hd IH]; cbn [tally_add].
  - repeat constructor.
  - destruct (eqb k k1); constructor; simpl in *; auto; lia.
Qed.

Lemma tally_add_NoDup (k : K) (d : list (K * nat)) :
  NoDup (map fst d) -> NoDup (map fst (tally_add eqb k d)).
Proof.
  intros Hnd. destruct (tally_add_keys k d) as [[_ E]|[Hnot E]]; rewrite E; [exact Hnd|].
  apply NoDup_app; [exact Hnd|repeat constructor; intros []|].
  intros x Hx [<-|[]]. contradiction.
Qed.

(** The loop over the keys, started from any dictionary. *)
Lemma tally_loop (keys : list K) :
  forall d,
    let d' := fold_left (fun d k => tally_add eqb k d) keys d in
    list_sum (map snd d') = (list_sum (map snd d) + length keys)%nat /\
    (NoDup (map fst d) -> NoDup (map fst d')) /\
    (Forall (fun e => (1 <= snd e)%nat) d -> Forall (fun e => (1 <= snd e)%nat) d') /\
    (forall k, tally_get eqb k d' =
               (tally_get eqb k d + length (filter (fun x => eqb k x) keys))%nat).
Proof.
  induction keys as [|x keys IH]; intros d; cbn [fold_left].
  - cbn. repeat split; auto; intros; lia.
  - destruct (IH (tally_add eqb x d)) as [S1 [S2 [S3 S4]]]. cbv zeta in *.
    split; [rewrite S1, tally_add_sum; simpl; lia|].
    split; [intros Hnd; now apply S2, tally_add_NoDup|].
    split; [intros Hp; now apply S3, tally_add_positive|].
    intros k. rewrite S4, tally_add_get. cbn [filter].
    destruct (eqb k x); simpl; lia.
Qed.

Lemma tally_get_In (d : list (K * nat)) (k : K) (n : nat) :
  NoDup (map fst d) -> In (k, n) d -> tally_get eqb k d = n.
Proof.
  unfold tally_get. induction d as [|[k1 n1] d IH]; intros Hnd Hin; [destruct Hin|].
  cbn [map fst] in Hnd. apply NoDup_cons_iff in Hnd as [Hnot Hnd].
  cbn [find fst]. destruct Hin as [[= -> ->]|Hin].
  - now rewrite tally_eqb_refl.
  - destruct (eqb k k1) eqn:E; [|now apply IH].
    apply eqb_spec in E. subst k1. exfalso. apply Hnot.
    apply in_map_iff. now exists (k, n).
Qed.

(** What the finished dictionary holds. *)
Lemma tally_spec (keys : list K) :
  list_sum (map snd (tally eqb keys)) = length keys /\
  NoDup (map fst (tally eqb keys)) /\
  (forall k n, In (k, n) (tally eqb keys) ->
               (1 <= n)%nat /\ n = length (filter (fun x => eqb k x) keys)) /\
  (tally eqb keys = [] <-> keys = []).
Proof.
  unfold tally. destruct (tally_loop keys []) as [S1 [S2 [S3 S4]]]. cbv zeta in *.
  assert (Hnd : NoDup (map fst (fold_left (fun d k => tally_add eqb k d) keys [])))
    by (apply S2; constructor).
  split; [exact S1|]. split; [exact Hnd|]. split.
  - intros k n Hin. split.
    + specialize (S3 (Forall_nil _)). rewrite Forall_forall in S3. exact (S3 _ Hin).
    + rewrite <- (tally_get_In _ k n Hnd Hin), S4. reflexivity.
  - split; intros E.
    + rewrite E in S1. simpl in S1. destruct keys; [reflexivity|discriminate].
    + now subst.
Qed.

End TallyFacts.

Lemma diagnosis_eqb_spec (a b : diagnosis) : diagnosis_eqb a b = true <-> a = b.
Proof. destruct a, b; simpl; split; congruence. Qed.

Lemma category_eqb_spec (a b : category) : category_eqb a b = true <-> a = b.
Proof. destruct a, b; simpl; split; congruence. Qed.

(** X9. The breeding-diagnosis chart is absent exactly when the resolved
    scope is empty: on a scope that is not empty it has bars.  The bars
    carry distinct diagnoses, each bar is as high as the number of ear
    tags of the scope with that diagnosis (at least 1), and the heights
    add up to the number of animals shown as the total for the farm and
    status. *)
Theorem diagnosis_chart_bars `{Runtime} (db : store) (farm status : string) :
  match generate_breeding_diagnosis_bar_chart db farm status with
  | None => get_filtered_ear_tags db farm status = []
  | Some bars =>
      get_filtered_ear_tags db farm status <> [] /\ bars <> [] /\
      list_sum (map snd bars) = get_total_animals_filtered db farm status /\
      NoDup (map fst bars) /\
      forall d n, In (d, n) bars ->
                  (1 <= n)%nat /\
                  n = length (filter (fun t => diagnosis_eqb d (compute_breeding_diagnosis db t))
                                     (get_filtered_ear_tags db farm status))
  end.
Proof.
  unfold generate_breeding_diagnosis_bar_chart, get_total_animals_filtered.
  destruct (get_filtered_ear_tags db farm status) as [|t ts] eqn:E; [reflexivity|].
  destruct (tally_spec diagnosis_eqb diagnosis_eqb_spec
              (map (compute_breeding_diagnosis db) (t :: ts))) as [S1 [S2 [S3 S4]]].
  destruct (tally diagnosis_eqb (map (compute_breeding_diagnosis db) (t :: ts)))
    as [|b bars] eqn:T.
  - discriminate (proj1 S4 eq_refl).
  - split; [discriminate|]. split; [discriminate|].
    split; [now rewrite S1, length_map|]. split; [exact S2|].
    intros d n Hin. destruct (S3 d n Hin) as [Hpos Hn]. split; [exact Hpos|].
    now rewrite Hn, filter_map_swap, length_map.
Qed.

(** X10. The animal-category chart is absent exactly when the resolved
    scope is empty: on a scope that is not empty it has bars.  The bars
    carry distinct categories, each bar is as high as the number of ear
    tags of the scope with that category (at least 1), and the heights
    add up to the number of animals shown as the total for the farm and
    status. *)
Theorem category_chart_bars `{Runtime} (db : store) (today : date) (farm status : string) :
  match generate_category_bar_chart db today farm status with
  | None => get_filtered_ear_tags db farm status = []
  | Some bars =>
      get_filtered_ear_tags db farm status <> [] /\ bars <> [] /\
      list_sum (map snd bars) = get_total_animals_filtered db farm status /\
      NoDup (map fst bars) /\
      forall c n, In (c, n) bars ->
                  (1 <= n)%nat /\
                  n = length (filter (fun t => category_eqb c (compute_animal_category db today t))
                                     (get_filtered_ear_tags db farm status))
  end.
Proof.
  unfold generate_category_bar_chart, get_total_animals_filtered.
  destruct (get_filtered_ear_tags db farm status) as [|t ts] eqn:E; [reflexivity|].
  destruct (tally_spec category_eqb category_eqb_spec
              (map (compute_animal_category db today) (t :: ts))) as [S1 [S2 [S3 S4]]].
  destruct (tally category_eqb (map (compute_animal_category db today) (t :: ts)))
    as [|b bars] eqn:T.
  - discriminate (proj1 S4 eq_refl).
  - split; [discriminate|]. split; [discriminate|].
    split; [now rewrite S1, length_map|]. split; [exact S2|].
    intros c n Hin. destruct (S3 c n Hin) as [Hpos Hn]. split; [exact Hpos|].
    now rewrite Hn, filter_map_swap, length_map.
Qed.

(** The charts of the scenario store: two cows and a bull. *)
Example charts_of_scenario :
  @generate_breeding_diagnosis_bar_chart reference_runtime scenario_store "Sunrise" "Total"
  = Some [(Pregnant, 1%nat); (Mating, 1%nat); (Open, 1%nat)] /\
  @generate_category_bar_chart reference_runtime scenario_store (mkdate 2024 1 25)
    "Sunrise" "Total"
  = Some [(Fattening, 2%nat); (Milking, 1%nat)].
Proof. split; reflexivity. Qed.

(** ** Parity *)

Lemma parity_rows_In (db : store) (r : repro) (a : animal) :
  In (r, a) (parity_rows db) <-> exists q, parity_record db r a q.
Proof.
  unfold parity_rows, parity_record.
  rewrite filter_In, in_flat_map. cbn [fst snd]. split.
  - intros [[r' [Hr Hin]] Hw]. apply in_map_iff in Hin as [a' [[= -> ->] Ha]].
    apply filter_In in Ha as [Ha Hid]. apply sql_eqz_Some in Hid.
    apply andb_true_iff in Hw as [Hg Hp]. apply sql_eq_Some in Hg.
    destruct (r_parity r) as [q|]; [|discriminate]. exists q. auto.
  - intros [q [Hr [Ha [Hid [Hg Hp]]]]]. split.
    + exists r. split; [exact Hr|]. apply in_map. apply filter_In.
      split; [exact Ha|]. now apply sql_eqz_Some.
    + apply andb_true_iff. split; [now apply sql_eq_Some|]. now rewrite Hp.
Qed.

(** The first row of [ORDER BY r.parity DESC]. *)
Lemma highest_parity_row (db : store) :
  match hd_error (order_by (desc nullz_leb) (fun ra => r_parity (fst ra))
                    (parity_rows db)) with
  | Some ra =>
      In ra (parity_rows db) /\
      forall ra', In ra' (parity_rows db) ->
                  nullz_leb (r_parity (fst ra')) (r_parity (fst ra)) = true
  | None => parity_rows db = []
  end.
Proof.
  destruct (hd_error _) as [ra|] eqn:E.
  - apply (order_by_head (desc nullz_leb) (fun ra => r_parity (fst ra))
             (desc_total nullz_leb nullz_leb_total) (desc_trans nullz_leb nullz_leb_trans))
      in E.
    exact E.
  - apply (order_by_nil_iff (desc nullz_leb) (fun ra => r_parity (fst ra))).
    destruct (order_by _ _ (parity_rows db)); [reflexivity|discriminate].
Qed.

Lemma parity_record_le (db : store) (r r' : repro) (a a' : animal) (q q' : Z) :
  parity_record db r a q -> parity_record db r' a' q' ->
  nullz_leb (r_parity r') (r_parity r) = true -> q' <= q.
Proof.
  intros [_ [_ [_ [_ Hp]]]] [_ [_ [_ [_ Hp']]]]. rewrite Hp, Hp'. simpl.
  apply Z.leb_le.
Qed.

(** X11. The highest-parity cow is the sentinel exactly when no female
    animal has a reproduction record with a parity; otherwise the parity
    shown is that of such a record and no such record has a higher one,
    a parity of 0 included. *)
Theorem highest_parity_is_maximum (db : store) :
  match get_highest_parity_cow db with
  | NoParityCow => forall r a q, ~ parity_record db r a q
  | ParityCow tag p =>
      exists r a q,
        parity_record db r a q /\ tag = a_ear_tag a /\ p = Some q /\
        forall r' a' q', parity_record db r' a' q' -> q' <= q
  end.
Proof.
  unfold get_highest_parity_cow. pose proof (highest_parity_row db) as Hrow.
  destruct (hd_error _) as [[r a]|].
  - destruct Hrow as [Hin Hmax]. cbn [fst snd] in *.
    destruct (proj1 (parity_rows_In db r a) Hin) as [q Hq].
    exists r, a, q. split; [exact Hq|]. split; [reflexivity|].
    split; [now destruct Hq as [_ [_ [_ [_ Hp]]]]|].
    intros r' a' q' Hq'. apply (parity_record_le db r r' a a' q q' Hq Hq').
    apply (Hmax (r', a')). apply parity_rows_In. eauto.
  - intros r a q Hq.
    assert (Hin : In (r, a) (parity_rows db)) by (apply parity_rows_In; eauto).
    rewrite Hrow in Hin. destruct Hin.
Qed.

Lemma parity_samples_In `{Runtime} (db : store) (p : Z) :
  In p (parity_samples db) -> exists r a, parity_record db r a p.
Proof.
  unfold parity_samples. rewrite in_flat_map. intros [id [_ Hp]].
  destruct (bare_row _ _) as [[r a]|] eqn:B; [|destruct Hp].
  apply bare_row_In, filter_In in B as [Hin _]. cbn [fst] in Hp.
  apply parity_rows_In in Hin as [q Hq].
  destruct Hq as [Hr [Ha [Hid [Hg Hq]]]]. rewrite Hq in Hp.
  destruct Hp as [<-|[]]. exists r, a. repeat split; assumption.
Qed.

Lemma sum_le_bound (xs : list Z) (q acc : Z) :
  (forall x, In x xs -> x <= q) ->
  fold_left Z.add xs acc <= acc + Z.of_nat (length xs) * q.
Proof.
  revert acc. induction xs as [|x xs IH]; intros acc Hb; cbn [fold_left length].
  - lia.
  - specialize (IH (acc + x) (fun y Hy => Hb y (or_intror Hy))).
    pose proof (Hb x (or_introl eq_refl)). lia.
Qed.

Lemma sql_avg_some (xs : list Z) (mean : Q) :
  sql_avg xs = Some mean ->
  xs <> [] /\
  mean = (inject_Z (fold_left Z.add xs 0%Z) / inject_Z (Z.of_nat (length xs)))%Q.
Proof.
  destruct xs as [|x xs]; [discriminate|].
  unfold sql_avg. intros E. split; [discriminate|]. congruence.
Qed.

Lemma sql_avg_le (xs : list Z) (q : Z) (mean : Q) :
  (forall x, In x xs -> x <= q) -> sql_avg xs = Some mean -> (mean <= inject_Z q)%Q.
Proof.
  intros Hb E. apply sql_avg_some in E as [Hne ->].
  assert (Hlen : 0 < Z.of_nat (length xs)) by (destruct xs; [contradiction|simpl; lia]).
  pose proof (sum_le_bound xs q 0 Hb) as Hs.
  apply Qle_shift_div_r.
  - change 0%Q with (inject_Z 0). now rewrite <- Zlt_Qlt.
  - rewrite <- inject_Z_mult, <- Zle_Qle. lia.
Qed.

(** X12. Whenever the average parity is shown, the highest-parity cow is
    shown too and the average does not exceed her parity. *)
Theorem average_parity_le_highest `{Runtime} (db : store) (mean : Q) :
  get_average_parity db = AverageParity mean ->
  exists tag q,
    get_highest_parity_cow db = ParityCow tag (Some q) /\ (mean <= inject_Z q)%Q.
Proof.
  unfold get_average_parity, get_highest_parity_cow. intros Havg.
  destruct (sql_avg (parity_samples db)) as [m|] eqn:A; [|discriminate].
  destruct (Qeq_bool m 0); [discriminate|]. injection Havg as ->.
  pose proof (highest_parity_row db) as Hrow.
  destruct (hd_error _) as [[r a]|].
  - destruct Hrow as [Hin Hmax]. cbn [fst snd] in *.
    destruct (proj1 (parity_rows_In db r a) Hin) as [q Hq].
    exists (a_ear_tag a), q. split.
    { now destruct Hq as [_ [_ [_ [_ ->]]]]. }
    apply (sql_avg_le (parity_samples db)); [|exact A].
    intros x Hx. destruct (parity_samples_In db x Hx) as [r' [a' Hq']].
    apply (parity_record_le db r r' a a' q x Hq Hq').
    apply (Hmax (r', a')). apply parity_rows_In. eauto.
  - exfalso. destruct (parity_samples db) as [|x xs] eqn:S; [discriminate|].
    destruct (parity_samples_In db x) as [r [a Hq]]; [rewrite S; now left|].
    assert (Hin : In (r, a) (parity_rows db)) by (apply parity_rows_In; eauto).
    rewrite Hrow in Hin. destruct Hin.
Qed.

Lemma average_parity_le_highest_witness :
  @get_average_parity reference_runtime two_cows_store
  = AverageParity ((6 # 1) / (2 # 1))%Q /\
  exists tag q,
    get_highest_parity_cow two_cows_store = ParityCow tag (Some q) /\
    ((6 # 1) / (2 # 1) <= inject_Z q)%Q.
Proof.
  split; [reflexivity|].
  exact (@average_parity_le_highest reference_runtime two_cows_store _ eq_refl).
Defined.

Example highest_parity_of_two :
  get_highest_parity_cow two_cows_store = ParityCow (Some "A2"%string) (Some 4) /\
  get_highest_parity_cow zero_parity_store = ParityCow (Some "H1"%string) (Some 0).
Proof. split; reflexivity. Qed.

(** ** Sire usage *)

Lemma count_desc_total (a b : nat) : desc Nat.leb a b = true \/ desc Nat.leb b a = true.
Proof. unfold desc. rewrite !Nat.leb_le. lia. Qed.

Lemma count_desc_trans (a b c : nat) :
  desc Nat.leb a b = true -> desc Nat.leb b c = true -> desc Nat.leb a c = true.
Proof. unfold desc. rewrite !Nat.leb_le. lia. Qed.

Lemma StronglySorted_weaken {A : Type} (R S : A -> A -> Prop) (l : list A) :
  (forall a b, R a b -> S a b) -> StronglySorted R l -> StronglySorted S l.
Proof.
  intros HRS. induction 1 as [|x l Hs IH Hx]; constructor; [exact IH|].
  eapply Forall_impl; [|exact Hx]. intros y. apply HRS.
Qed.


Lemma by_count_desc_head {A : Type} (rows : list (A * nat)) :
  match hd_error (by_count_desc rows) with
  | Some x => In x rows /\ forall y, In y rows -> (snd y <= snd x)%nat
  | None => rows = []
  end.
Proof.
  unfold by_count_desc. destruct (hd_error _) as [x|] eqn:E.
  - apply (order_by_head (desc Nat.leb) snd count_desc_total count_desc_trans) in E.
    destruct E as [Hin Hmax]. split; [exact Hin|].
    intros y Hy. specialize (Hmax y Hy). unfold desc in Hmax. now apply Nat.leb_le.
  - apply (order_by_nil_iff (desc Nat.leb) (@snd A nat)).
    destruct (order_by _ _ rows); [reflexivity|discriminate].
Qed.

Lemma sire_count_pos (rows : list repro_usage) (name : option string) :
  (1 <= sire_count rows name)%nat <-> In name (map u_bull_name rows).
Proof.
  unfold sire_count. induction rows as [|u rows IH]; simpl; [split; [lia|intros []]|].
  destruct (option_string_dec (u_bull_name u) name) as [E|E]; simpl.
  - split; [auto|lia].
  - rewrite IH. split; [auto|]. intros [H|H]; [contradiction|exact H].
Qed.

Lemma sire_groups_In (table : list repro_usage) (since : string)
  (name : option string) (n : nat) :
  In (name, n) (sire_groups table since) <->
  n = sire_count (bred_since table since) name /\ (1 <= n)%nat.
Proof.
  unfold sire_groups. rewrite in_map_iff. split.
  - intros [k [[= -> <-] Hk]]. split; [reflexivity|].
    apply sire_count_pos. now apply order_by_In, nodup_In in Hk.
  - intros [-> Hpos]. exists name. split; [reflexivity|].
    apply order_by_In, nodup_In. now apply sire_count_pos.
Qed.

Lemma sire_groups_nil (table : list repro_usage) (since : string) :
  sire_groups table since = [] -> bred_since table since = [].
Proof.
  intros E. destruct (bred_since table since) as [|u rows] eqn:R; [reflexivity|].
  assert (Hin : In (u_bull_name u, sire_count (bred_since table since) (u_bull_name u))
                   (sire_groups table since)).
  { apply sire_groups_In. split; [reflexivity|]. apply sire_count_pos.
    rewrite R. now left. }
  rewrite E in Hin. destruct Hin.
Qed.



(** Three breedings without a bull name outnumber the two of Max: no top
    sire is shown. *)
Example top_sire_unnamed :
  get_top_sire_3y unnamed_sire_table (mkdate 2024 3 20) = NoSire /\
  get_top3_sire_usage_3y unnamed_sire_table (mkdate 2024 3 20)
  = UsageLines [("Max"%string, 2%nat)].
Proof. split; reflexivity. Qed.

Lemma firstn_incl {A : Type} (k : nat) (l : list A) (x : A) :
  In x (firstn k l) -> In x l.
Proof.
  revert k. induction l as [|y l IH]; intros [|k]; simpl; try tauto.
  intros [E|Hin]; [now left|right; now apply (IH k)].
Qed.


Lemma named_rows_In (rows : list (option string * nat)) (name : string) (n : nat) :
  In (name, n) (named_rows rows) <-> name <> ""%string /\ In (Some name, n) rows.
Proof.
  unfold named_rows. rewrite in_flat_map. split.
  - intros [[[k|] m] [Hin Hk]]; cbn [fst snd] in Hk; [|destruct Hk].
    destruct (String.eqb_spec k ""); [destruct Hk|].
    destruct Hk as [[= <- <-]|[]]. auto.
  - intros [Hne Hin]. exists (Some name, n). split; [exact Hin|]. cbn [fst snd].
    destruct (String.eqb_spec name ""); [contradiction|now left].
Qed.








(** X15. When the window has breedings but none names a bull (every bull
    name there is NULL or empty), the sire usage is the empty text, not
    the sentinel, while the top sire is the sentinel. *)
Theorem anonymous_sires_show_nothing (table : list repro_usage) (today : date)
  (since : string) :
  three_years_ago today = Some since ->
  bred_since table since <> [] ->
  (forall u, In u (bred_since table since) ->
             u_bull_name u = None \/ u_bull_name u = Some ""%string) ->
  get_top3_sire_usage_3y table today = UsageLines [] /\
  get_top_sire_3y table today = NoSire.
Proof.
  intros Hsince Hne Hanon.
  assert (Hkeys : forall name n, In (Some name, n) (sire_groups table since) ->
                                 name = ""%string).
  { intros name n Hin. apply sire_groups_In in Hin as [Hn Hpos]. subst n.
    apply sire_count_pos, in_map_iff in Hpos as [u [Hu Hin]].
    destruct (Hanon u Hin) as [E|E]; congruence. }
  assert (Hperm : Permutation (by_count_desc (sire_groups table since))
                              (sire_groups table since))
    by apply order_by_perm.
  split.
  - unfold get_top3_sire_usage_3y. rewrite Hsince.
    destruct (firstn 3 (by_count_desc (sire_groups table since))) as [|row top] eqn:F.
    + exfalso. destruct (by_count_desc (sire_groups table since)) as [|x l]; [|discriminate].
      apply Permutation_nil in Hperm. now apply sire_groups_nil in Hperm.
    + rewrite <- F. f_equal.
      destruct (named_rows _) as [|[name n] lines] eqn:N; [reflexivity|exfalso].
      assert (Hin : In (name, n) (named_rows (firstn 3 (by_count_desc (sire_groups table since)))))
        by (rewrite N; now left).
      apply named_rows_In in Hin as [Hnn Hin].
      apply firstn_incl, (Permutation_in _ Hperm) in Hin. now apply Hkeys in Hin.
  - unfold get_top_sire_3y. rewrite Hsince.
    pose proof (by_count_desc_head (sire_groups table since)) as Hh.
    destruct (hd_error _) as [[[name|] n]|]; try reflexivity.
    destruct Hh as [Hin _]. apply Hkeys in Hin. subst name. reflexivity.
Qed.

Lemma anonymous_sires_show_nothing_witness :
  three_years_ago (mkdate 2024 3 20) = Some "2021-03-21"%string /\
  bred_since anonymous_sire_table "2021-03-21" <> [] /\
  get_top3_sire_usage_3y anonymous_sire_table (mkdate 2024 3 20) = UsageLines [] /\
  get_top_sire_3y anonymous_sire_table (mkdate 2024 3 20) = NoSire.
Proof.
  assert (Hne : bred_since anonymous_sire_table "2021-03-21" <> [])
    by (vm_compute; discriminate).
  split; [reflexivity|]. split; [exact Hne|].
  apply (anonymous_sires_show_nothing anonymous_sire_table (mkdate 2024 3 20)
           "2021-03-21" eq_refl Hne).
  intros u [<-|[<-|[]]]; [now left|now right].
Defined.

(** ** Births and calf tags *)

(** X16. The calf tags of the last three months are never more than the
    births counted for the same window, and each of them is a tag that is
    neither NULL nor empty. *)
Theorem calf_tags_within_births (table : list repro_usage) (since until : string) :
  (length (get_recent_calf_tags table since until)
   <= get_recent_births_count table since until)%nat /\
  forall x, In x (get_recent_calf_tags table since until) ->
            exists s, x = Some s /\ s <> ""%string.
Proof.
  unfold get_recent_calf_tags, get_recent_births_count. split.
  - rewrite length_map. apply filter_length_impl.
    intros u _ Hu. now apply andb_true_iff in Hu as [Hu _].
  - intros x Hx. apply in_map_iff in Hx as [u [<- Hu]].
    apply filter_In in Hu as [_ Hu]. apply andb_true_iff in Hu as [_ Hc].
    unfold has_calf_tag in Hc. destruct (u_calf_tag_number u) as [s|]; [|discriminate].
    exists s. split; [reflexivity|]. now apply String.eqb_neq, negb_true_iff.
Qed.

Example births_and_calf_tags :
  get_recent_births_count delivery_table "2023-12-20" "2024-03-20" = 3%nat /\
  get_recent_calf_tags delivery_table "2023-12-20" "2024-03-20" = [Some "C1"%string].
Proof. split; reflexivity. Qed.

(** ** Frequent abortion cow *)





(** ** The farms of the sidebar *)

Lemma farm_names_In (db : store) (f : string) :
  In f (flat_map (fun a => match a_farm_name a with
                           | Some s => if String.eqb s "" then [] else [s]
                           | None => []
                           end) (animals db)) <->
  f <> ""%string /\ exists a, In a (animals db) /\ a_farm_name a = Some f.
Proof.
  rewrite in_flat_map. split.
  - intros [a [Ha Hf]]. destruct (a_farm_name a) as [s|] eqn:E; [|destruct Hf].
    destruct (String.eqb_spec s ""); [destruct Hf|].
    destruct Hf as [<-|[]]. eauto.
  - intros [Hne [a [Ha E]]]. exists a. split; [exact Ha|]. rewrite E.
    destruct (String.eqb_spec f ""); [contradiction|now left].
Qed.

(** X18. The farms offered in the sidebar are in strictly ascending
    order, each once, and are exactly the non-empty farm names that some
    animal row carries. *)
Theorem main_farms_sorted_distinct (db : store) :
  StronglySorted (fun a b => str_leb a b = true /\ a <> b) (main_farms db) /\
  forall f, In f (main_farms db) <->
            f <> ""%string /\ exists a, In a (animals db) /\ a_farm_name a = Some f.
Proof.
  unfold main_farms. split.
  - pose proof (StronglySorted_strict (fun a b : string => str_leb a b = true) (fun s => s))
      as Hstrict.
    eapply StronglySorted_weaken; [|apply Hstrict].
    + intros a b Hab. exact Hab.
    + apply (order_by_sorted str_leb (fun s => s) str_leb_total str_leb_trans).
    + rewrite map_id.
      apply (Permutation_NoDup (Permutation_sym (order_by_perm str_leb (fun s => s) _))).
      apply NoDup_nodup.
  - intros f. rewrite order_by_In, nodup_In. apply farm_names_In.
Qed.

(** ** A farm without animal rows *)

Lemma filter_none {A : Type} (p : A -> bool) (l : list A) :
  (forall x, In x l -> p x = false) -> filter p l = [].
Proof.
  induction l as [|x l IH]; intros H; simpl; [reflexivity|].
  rewrite (H x (or_introl eq_refl)). apply IH. intros y Hy. apply H. now right.
Qed.

Lemma unknown_farm_filter (db : store) (farm : string) (g : animal -> bool) :
  (forall a, In a (animals db) -> a_farm_name a <> Some farm) ->
  filter (fun a => sql_eq (a_farm_name a) (Some farm) && g a) (animals db) = [].
Proof.
  intros Hno. apply filter_none. intros a Ha.
  destruct (sql_eq (a_farm_name a) (Some farm)) eqn:E; [|reflexivity].
  apply sql_eq_Some in E. now apply Hno in Ha.
Qed.

(** X19. For a farm that no animal row carries, every status resolves to
    the empty scope and the report shows nothing for it: the total, the
    heifer and the bull counts are 0, both charts and the yield series are
    absent. *)
Theorem unknown_farm_shows_nothing `{Runtime} (db : store) (today : date)
  (farm status : string) :
  (forall a, In a (animals db) -> a_farm_name a <> Some farm) ->
  get_filtered_ear_tags db farm status = [] /\
  get_total_animals_filtered db farm status = 0%nat /\
  get_heifer_count db today farm = 0%nat /\
  get_bull_count db farm = 0%nat /\
  generate_breeding_diagnosis_bar_chart db farm status = None /\
  generate_category_bar_chart db today farm status = None /\
  plot_farm_milk_yield_trend_filtered db today farm status = NoFigure.
Proof.
  intros Hno.
  assert (E : get_filtered_ear_tags db farm status = []).
  { destruct (get_filtered_ear_tags db farm status) as [|t ts] eqn:E; [reflexivity|].
    destruct (scope_In_farm db farm status t) as [a [Ha [Hf _]]]; [rewrite E; now left|].
    now apply Hno in Ha. }
  unfold get_total_animals_filtered, get_heifer_count, get_bull_count,
    generate_breeding_diagnosis_bar_chart, generate_category_bar_chart,
    plot_farm_milk_yield_trend_filtered.
  rewrite E, !(unknown_farm_filter db farm _ Hno). repeat split.
Qed.

Lemma unknown_farm_shows_nothing_witness :
  (forall a, In a (animals dairy_store) -> a_farm_name a <> Some "Hillside"%string) /\
  get_filtered_ear_tags dairy_store "Hillside" "owned" = [] /\
  @plot_farm_milk_yield_trend_filtered reference_runtime dairy_store (mkdate 2024 3 20)
    "Hillside" "owned" = NoFigure.
Proof.
  assert (Hno : forall a, In a (animals dairy_store) ->
                          a_farm_name a <> Some "Hillside"%string).
  { intros a [<-|[<-|[]]]; discriminate. }
  split; [exact Hno|].
  pose proof (@unknown_farm_shows_nothing reference_runtime dairy_store
                (mkdate 2024 3 20) "Hillside" "owned" Hno) as U.
  split; [exact (proj1 U)|].
  exact (proj2 (proj2 (proj2 (proj2 (proj2 (proj2 U)))))).
Defined.

(** ** The query window of the series *)

Lemma N_of_digit (z : Z) : N_of_ascii (digit z) = Z.to_N (48 + z mod 10).
Proof.
  unfold digit. apply N_ascii_embedding.
  pose proof (Z.mod_pos_bound z 10 ltac:(lia)). lia.
Qed.

Lemma digit_step (x y : Z) (s s' : string) :
  x mod 10 < y mod 10 \/ (x mod 10 = y mod 10 /\ bytes_le s s') ->
  bytes_le (String (digit x) s) (String (digit y) s').
Proof.
  pose proof (Z.mod_pos_bound x 10 ltac:(lia)).
  pose proof (Z.mod_pos_bound y 10 ltac:(lia)).
  intros [Hlt|[Heq Hle]].
  - apply bytes_le_lt. rewrite !N_of_digit. lia.
  - assert (E : digit x = digit y) by (unfold digit; now rewrite Heq).
    rewrite E. now apply bytes_le_eq.
Qed.

Lemma digits4 (y : Z) :
  0 <= y <= 9999 ->
  y = 1000 * ((y / 1000) mod 10) + 100 * ((y / 100) mod 10)
      + 10 * ((y / 10) mod 10) + y mod 10.
Proof. intros Hy. Z.div_mod_to_equations. lia. Qed.

Lemma digits2 (m : Z) :
  0 <= m <= 99 -> m = 10 * ((m / 10) mod 10) + m mod 10.
Proof. intros Hm. Z.div_mod_to_equations. lia. Qed.

(** On dates of four-digit years at most, the zero-padded text compares
    as the dates do. *)
Lemma strftime_ymd_le (a b : date) :
  0 <= year a <= 9999 -> 0 <= year b <= 9999 ->
  0 <= month a <= 99 -> 0 <= month b <= 99 ->
  0 <= day a <= 99 -> 0 <= day b <= 99 ->
  year a * 10000 + month a * 100 + day a <= year b * 10000 + month b * 100 + day b ->
  bytes_le (strftime_ymd a) (strftime_ymd b).
Proof.
  intros Hya Hyb Hma Hmb Hda Hdb Hle.
  pose proof (digits4 (year a) Hya) as Ya. pose proof (digits4 (year b) Hyb) as Yb.
  pose proof (digits2 (month a) Hma) as Ma. pose proof (digits2 (month b) Hmb) as Mb.
  pose proof (digits2 (day a) Hda) as Da. pose proof (digits2 (day b) Hdb) as Db.
  unfold strftime_ymd, pad4, pad2. cbn [append].
  pose proof (Z.mod_pos_bound (year a / 1000) 10 ltac:(lia)).
  pose proof (Z.mod_pos_bound (year a / 100) 10 ltac:(lia)).
  pose proof (Z.mod_pos_bound (year a / 10) 10 ltac:(lia)).
  pose proof (Z.mod_pos_bound (year a) 10 ltac:(lia)).
  pose proof (Z.mod_pos_bound (month a / 10) 10 ltac:(lia)).
  pose proof (Z.mod_pos_bound (month a) 10 ltac:(lia)).
  pose proof (Z.mod_pos_bound (day a / 10) 10 ltac:(lia)).
  pose proof (Z.mod_pos_bound (day a) 10 ltac:(lia)).
  pose proof (Z.mod_pos_bound (year b / 1000) 10 ltac:(lia)).
  pose proof (Z.mod_pos_bound (year b / 100) 10 ltac:(lia)).
  pose proof (Z.mod_pos_bound (year b / 10) 10 ltac:(lia)).
  pose proof (Z.mod_pos_bound (year b) 10 ltac:(lia)).
  pose proof (Z.mod_pos_bound (month b / 10) 10 ltac:(lia)).
  pose proof (Z.mod_pos_bound (month b) 10 ltac:(lia)).
  pose proof (Z.mod_pos_bound (day b / 10) 10 ltac:(lia)).
  pose proof (Z.mod_pos_bound (day b) 10 ltac:(lia)).
  repeat first
    [ apply bytes_le_eq
    | apply digit_step;
      match goal with
      | |- ?x mod 10 < ?y mod 10 \/ _ =>
          destruct (Z_lt_le_dec (x mod 10) (y mod 10)) as [?|?];
          [left; assumption|right; split; [lia|]]
      end ].
  constructor.
Qed.

Lemma ordinal_le_lex (y1 m1 d1 y2 m2 d2 : Z) :
  1 <= m1 <= 12 -> 1 <= d1 <= days_in_month y1 m1 ->
  1 <= m2 <= 12 -> 1 <= d2 <= days_in_month y2 m2 ->
  ymd2ord y1 m1 d1 <= ymd2ord y2 m2 d2 ->
  y1 < y2 \/ (y1 = y2 /\ (m1 < m2 \/ (m1 = m2 /\ d1 <= d2))).
Proof.
  intros Hm1 Hd1 Hm2 Hd2 Hle.
  assert (T : (y1 < y2 \/ (y1 = y2 /\ (m1 < m2 \/ (m1 = m2 /\ d1 <= d2)))) \/
              (y2 < y1 \/ (y2 = y1 /\ (m2 < m1 \/ (m2 = m1 /\ d2 < d1))))) by lia.
  destruct T as [T|T]; [exact T|]. exfalso.
  pose proof (ymd2ord_lt _ _ _ _ _ _ Hm2 Hd2 Hm1 Hd1 T). lia.
Qed.

Lemma month_first_day (d : date) :
  1 <= month d <= 12 -> 1 <= day d <= days_in_month (year d) (month d) ->
  toordinal d - 30 <= ymd2ord (year d) (month d) 1.
Proof.
  intros Hm Hd. pose proof (days_in_month_range (year d) (month d) Hm).
  unfold toordinal, ymd2ord. lia.
Qed.

(** X20. For a scope that is not empty and a valid current date from
    year 2 on, the series is built from the rows queried from the day
    365 days back, and no labelled month is cut by that bound: a
    milk-yield row of the scope recorded, as YYYY-MM-DD, on any day of
    the month of a date that gives a label passes the bound, so that its
    month is among the queried rows. *)
Theorem trend_window_covers_labels `{Runtime} (db : store) (today : date)
  (farm status : string) :
  get_filtered_ear_tags db farm status <> [] ->
  valid_date today -> 2 <= year today ->
  exists start ds,
    calendar_date start /\ days_apart start today 365 /\
    plot_farm_milk_yield_trend_filtered db today farm status
    = build_series (monthly_rows db (get_filtered_ear_tags db farm status)
                      (strftime_ymd start)) ds /\
    forall d e y,
      In d ds -> calendar_date e -> year e = year d -> month e = month d ->
      In y (scope_yields db (get_filtered_ear_tags db farm status)) ->
      m_record_date y = Some (strftime_ymd e) ->
      In (sqlite_month (Some (strftime_ymd e)))
         (map fst (monthly_rows db (get_filtered_ear_tags db farm status)
                     (strftime_ymd start))).
Proof.
  intros Hscope Hv H2. pose proof (toordinal_range today Hv H2) as R.
  exists (ord2ymd (toordinal today - 365)),
    (map (fun i => ord2ymd (toordinal today - (11 - i) * 30)) RANGE12).
  destruct (window_start today Hv H2) as [Hcs [Hapart [Hys Es]]].
  split; [exact Hcs|]. split; [exact Hapart|].
  split; [now apply plot_on_scope|].
  intros d e y Hd Hce Ey Em Hy Hdate.
  apply in_map_iff in Hd as [i [<- Hi]].
  pose proof RANGE12_range as Hr. rewrite Forall_forall in Hr.
  specialize (Hr i Hi). cbv beta in Hr.
  destruct (ord2ymd_spec (toordinal today - (11 - i) * 30) ltac:(lia))
    as [Hyd [Hmd [Hdd Ed]]].
  generalize dependent (ord2ymd (toordinal today - (11 - i) * 30)).
  intros d Ey Em Hyd Hmd Hdd Ed.
  generalize dependent (ord2ymd (toordinal today - 365)).
  intros start Hcs _ Hys Es.
  pose proof Hcs as Hcs'. apply calendar_date_days_in_month in Hcs' as [Hms Hds].
  pose proof Hce as Hce'. apply calendar_date_days_in_month in Hce' as [Hme Hde].
  destruct Hv as [Hyt [Hmt Hdt]].
  pose proof (days_in_month_range (year start) (month start) Hms) as Rs.
  pose proof (days_in_month_range (year e) (month e) Hme) as Re.
  pose proof (days_in_month_range (year d) (month d) Hmd) as Rd.
  pose proof (month_first_day d Hmd Hdd) as Hfirst.
  assert (L1 : year start < year d \/
               (year start = year d /\
                (month start < month d \/ (month start = month d /\ day start <= 1)))).
  { apply ordinal_le_lex; try assumption; [lia|]. unfold toordinal in *. lia. }
  assert (L2 : year d < year today \/
               (year d = year today /\
                (month d < month today \/ (month d = month today /\ day d <= day today)))).
  { apply ordinal_le_lex; try assumption. unfold toordinal in *. lia. }
  assert (Hle : bytes_le (strftime_ymd start) (strftime_ymd e)).
  { apply strftime_ymd_le; lia. }
  set (k := sqlite_month (Some (strftime_ymd e))).
  apply in_map_iff.
  exists (k, sql_sum (map m_yield_value
               (filter (fun m => if option_string_dec (sqlite_month (m_record_date m)) k
                                 then true else false)
                       (filter (fun m => sql_ge (m_record_date m) (strftime_ymd start))
                               (scope_yields db (get_filtered_ear_tags db farm status)))))).
  split; [reflexivity|]. apply monthly_rows_In. split; [|reflexivity].
  exists y. split; [|now rewrite Hdate].
  apply filter_In. split; [exact Hy|]. apply sql_ge_spec. eauto.
Qed.

Lemma trend_window_covers_labels_witness :
  get_filtered_ear_tags dairy_store "Sunrise" "Total" <> [] /\
  valid_date (mkdate 2024 3 31) /\ 2 <= year (mkdate 2024 3 31) /\
  exists start ds,
    calendar_date start /\ days_apart start (mkdate 2024 3 31) 365 /\
    @plot_farm_milk_yield_trend_filtered reference_runtime dairy_store
      (mkdate 2024 3 31) "Sunrise" "Total"
    = build_series (@monthly_rows reference_runtime dairy_store
                      (get_filtered_ear_tags dairy_store "Sunrise" "Total")
                      (strftime_ymd start)) ds /\
    forall d e y,
      In d ds -> calendar_date e -> year e = year d -> month e = month d ->
      In y (scope_yields dairy_store (get_filtered_ear_tags dairy_store "Sunrise" "Total")) ->
      m_record_date y = Some (strftime_ymd e) ->
      In (iso_month (Some (strftime_ymd e)))
         (map fst (@monthly_rows reference_runtime dairy_store
                     (get_filtered_ear_tags dairy_store "Sunrise" "Total")
                     (strftime_ymd start))).
Proof.
  assert (Hs : get_filtered_ear_tags dairy_store "Sunrise" "Total" <> [])
    by (vm_compute; discriminate).
  assert (Hv : valid_date (mkdate 2024 3 31))
    by (repeat split; apply Z.leb_le; reflexivity).
  assert (H2 : 2 <= year (mkdate 2024 3 31)) by (apply Z.leb_le; reflexivity).
  split; [exact Hs|]. split; [exact Hv|]. split; [exact H2|].
  exact (@trend_window_covers_labels reference_runtime dairy_store
           (mkdate 2024 3 31) "Sunrise" "Total" Hs Hv H2).
Defined.

(** ** The three-year window *)

Lemma leap_years_apart (a b : Z) :
  is_leap a = true -> is_leap b = true -> a < b -> a + 4 <= b.
Proof.
  intros Ha Hb Hlt.
  destruct (is_leap_cases a) as [[_ [Ma _]]|[Ea _]]; [|congruence].
  destruct (is_leap_cases b) as [[_ [Mb _]]|[Eb _]]; [|congruence].
  Z.div_mod_to_equations. lia.
Qed.

Lemma days_in_month_other_year (y y' m d : Z) :
  1 <= m <= 12 -> 1 <= d <= days_in_month y m -> ~ (m = 2 /\ d = 29) ->
  1 <= d <= days_in_month y' m.
Proof.
  intros Hm Hd Hfeb. unfold days_in_month in *.
  destruct (Z.eq_dec m 2) as [->|Hne].
  - assert (Hne : d <> 29) by (intros ->; now apply Hfeb).
    clear Hfeb. change (2 =? 2) with true in *.
    change (nth (Z.to_nat 2) DAYS_IN_MONTH 0) with 28 in *.
    destruct (is_leap y), (is_leap y'); cbn [andb] in *; lia.
  - assert (E : (m =? 2) = false) by now apply Z.eqb_neq.
    rewrite E in *. cbn [andb] in *. exact Hd.
Qed.

(** X21. For a valid current date of year 4 or later other than a 29th
    of February, the window of the three-year summaries starts 1095 days
    back, which is the same day of the month three years earlier or the
    day after it. *)
Theorem three_years_ago_is_same_day (today : date) :
  valid_date today -> 4 <= year today ->
  ~ (month today = 2 /\ day today = 29) ->
  exists start,
    date_sub_days today (3 * 365) = Some start /\
    three_years_ago today = Some (strftime_ymd start) /\
    1 <= day today <= days_in_month (year today - 3) (month today) /\
    ymd2ord (year today - 3) (month today) (day today) <= toordinal start
    <= ymd2ord (year today - 3) (month today) (day today) + 1.
Proof.
  intros Hv H4 Hfeb.
  pose proof (toordinal_range today Hv ltac:(lia)) as R.
  destruct Hv as [Hy [Hm Hd]].
  assert (D4 : days_before_year 4 = 1095) by reflexivity.
  pose proof (days_before_year_mono 4 (year today) H4) as M4.
  pose proof (days_before_month_range (year today) (month today) Hm) as [L0 _].
  assert (Hlow : 1096 <= toordinal today) by (unfold toordinal, ymd2ord; lia).
  assert (Hsub : date_sub_days today (3 * 365)
                 = Some (ord2ymd (toordinal today - 3 * 365))).
  { unfold date_sub_days.
    assert (E1 : (0 <? toordinal today - 3 * 365) = true) by (apply Z.ltb_lt; lia).
    assert (E2 : (toordinal today - 3 * 365 <=? MAXORDINAL) = true)
      by (apply Z.leb_le; lia).
    now rewrite E1, E2. }
  exists (ord2ymd (toordinal today - 3 * 365)).
  split; [exact Hsub|]. split; [unfold three_years_ago; now rewrite Hsub|].
  split; [now apply (days_in_month_other_year (year today))|].
  destruct (ord2ymd_spec (toordinal today - 3 * 365) ltac:(lia)) as [_ [_ [_ E]]].
  rewrite E. unfold toordinal, ymd2ord, days_before_month.
  pose proof (days_before_year_succ (year today - 3)) as S3.
  pose proof (days_before_year_succ (year today - 2)) as S2.
  pose proof (days_before_year_succ (year today - 1)) as S1.
  replace (year today - 3 + 1) with (year today - 2) in S3 by lia.
  replace (year today - 2 + 1) with (year today - 1) in S2 by lia.
  replace (year today - 1 + 1) with (year today) in S1 by lia.
  pose proof (leap_years_apart (year today - 3) (year today - 2)) as A32.
  pose proof (leap_years_apart (year today - 3) (year today - 1)) as A31.
  pose proof (leap_years_apart (year today - 3) (year today)) as A30.
  pose proof (leap_years_apart (year today - 2) (year today - 1)) as A21.
  pose proof (leap_years_apart (year today - 2) (year today)) as A20.
  pose proof (leap_years_apart (year today - 1) (year today)) as A10.
  destruct (is_leap (year today - 3)), (is_leap (year today - 2)),
    (is_leap (year today - 1)), (is_leap (year today)), (2 <? month today);
    cbn [andb b2z] in *; lia.
Qed.

Lemma three_years_ago_is_same_day_witness :
  valid_date (mkdate 2024 3 20) /\ 4 <= year (mkdate 2024 3 20) /\
  ~ (month (mkdate 2024 3 20) = 2 /\ day (mkdate 2024 3 20) = 29) /\
  three_years_ago (mkdate 2024 3 20) = Some "2021-03-21"%string /\
  exists start,
    date_sub_days (mkdate 2024 3 20) (3 * 365) = Some start /\
    ymd2ord 2021 3 20 <= toordinal start <= ymd2ord 2021 3 20 + 1.
Proof.
  assert (Hv : valid_date (mkdate 2024 3 20))
    by (repeat split; apply Z.leb_le; reflexivity).
  assert (H4 : 4 <= year (mkdate 2024 3 20)) by (apply Z.leb_le; reflexivity).
  assert (Hf : ~ (month (mkdate 2024 3 20) = 2 /\ day (mkdate 2024 3 20) = 29))
    by (intros [E _]; discriminate E).
  split; [exact Hv|]. split; [exact H4|]. split; [exact Hf|]. split; [reflexivity|].
  destruct (three_years_ago_is_same_day (mkdate 2024 3 20) Hv H4 Hf)
    as [start [Hs [_ [_ Hb]]]].
  exists start. split; [exact Hs|exact Hb].
Defined.

(** ** The spacing of the labels of the series *)

(** The first day of the next month follows the last day of a month. *)
Lemma next_month_start (y m : Z) :
  1 <= m <= 12 ->
  exists y' m',
    1 <= m' <= 12 /\ 12 * y' + m' = 12 * y + m + 1 /\
    days_before_year y' + days_before_month y' m'
    = days_before_year y + days_before_month y m + days_in_month y m.
Proof.
  intros Hm. destruct (Z.eq_dec m 12) as [->|Hne].
  - exists (y + 1), 1. split; [lia|]. split; [lia|].
    rewrite days_before_year_succ, days_before_month_first.
    pose proof (days_before_month_last y). lia.
  - exists y, (m + 1). split; [lia|]. split; [lia|].
    rewrite days_before_month_next by lia. lia.
Qed.

(** A later month does not start before an earlier one. *)
Lemma months_ordered (y1 m1 y2 m2 : Z) :
  1 <= m1 <= 12 -> 1 <= m2 <= 12 ->
  12 * y1 + m1 <= 12 * y2 + m2 ->
  days_before_year y1 + days_before_month y1 m1
  <= days_before_year y2 + days_before_month y2 m2.
Proof.
  intros H1 H2 Hle.
  destruct (Z.eq_dec (12 * y1 + m1) (12 * y2 + m2)) as [E|Hne].
  - assert (y1 = y2) by lia. assert (m1 = m2) by lia. subst. lia.
  - pose proof (days_in_month_range y1 m1 H1).
    pose proof (days_in_month_range y2 m2 H2).
    assert (L : ymd2ord y1 m1 1 < ymd2ord y2 m2 1) by (apply ymd2ord_lt; lia).
    unfold ymd2ord in L. lia.
Qed.

(** A month that starts later starts after the last day of the earlier
    month. *)
Lemma months_strictly_ordered (y1 m1 y2 m2 : Z) :
  1 <= m1 <= 12 -> 1 <= m2 <= 12 ->
  12 * y1 + m1 < 12 * y2 + m2 ->
  days_before_year y1 + days_before_month y1 m1 + days_in_month y1 m1
  <= days_before_year y2 + days_before_month y2 m2.
Proof.
  intros H1 H2 Hlt.
  destruct (next_month_start y1 m1 H1) as [y' [m' [Hm' [Hidx <-]]]].
  apply months_ordered; lia.
Qed.

(** Thirty days on, a date is in the same month, the next one, or the
    one after a February. *)
Lemma thirty_days_on (d d' : date) :
  1 <= month d <= 12 -> 1 <= day d <= days_in_month (year d) (month d) ->
  1 <= month d' <= 12 -> 1 <= day d' <= days_in_month (year d') (month d') ->
  toordinal d' = toordinal d + 30 ->
  month_index d <= month_index d' <= month_index d + 2 /\
  (month_index d' = month_index d + 2 -> month d = 1 /\ month d' = 3).
Proof.
  intros Hm Hd Hm' Hd' E. unfold toordinal, ymd2ord, month_index in *.
  assert (Hlow : year d * 12 + month d <= year d' * 12 + month d').
  { destruct (Z_le_gt_dec (year d * 12 + month d) (year d' * 12 + month d'))
      as [Hle|Hgt]; [exact Hle|].
    pose proof (months_strictly_ordered (year d') (month d') (year d) (month d)
                  Hm' Hm ltac:(lia)). lia. }
  destruct (next_month_start (year d) (month d) Hm) as [ya [ma [Hma [Ia Ca]]]].
  destruct (next_month_start ya ma Hma) as [yb [mb [Hmb [Ib Cb]]]].
  pose proof (days_in_month_range ya ma Hma) as Ra.
  pose proof (days_in_month_range yb mb Hmb) as Rb.
  assert (Hup : year d' * 12 + month d' <= year d * 12 + month d + 2).
  { destruct (Z_le_gt_dec (year d' * 12 + month d') (year d * 12 + month d + 2))
      as [Hle|Hgt]; [exact Hle|].
    pose proof (months_strictly_ordered yb mb (year d') (month d')
                  Hmb Hm' ltac:(lia)). lia. }
  split; [lia|]. intros Etwo.
  pose proof (months_ordered yb mb (year d') (month d') Hmb Hm' ltac:(lia)) as Ob.
  assert (Hshort : days_in_month ya ma <= 29) by lia.
  assert (Hfeb : ma = 2).
  { unfold days_in_month in Hshort. clear - Hshort Hma.
    month_cases ma; try reflexivity; exfalso;
      cbn [Z.eqb Pos.eqb andb] in Hshort; simpl in Hshort; lia. }
  lia.
Qed.

(** Sixty days on, a date is in a later month. *)
Lemma sixty_days_on (d d' : date) :
  1 <= month d <= 12 -> 1 <= day d <= days_in_month (year d) (month d) ->
  1 <= month d' <= 12 -> 1 <= day d' <= days_in_month (year d') (month d') ->
  toordinal d' = toordinal d + 60 ->
  month_index d < month_index d'.
Proof.
  intros Hm Hd Hm' Hd' E. unfold toordinal, ymd2ord, month_index in *.
  pose proof (days_in_month_range (year d) (month d) Hm) as R.
  destruct (Z_lt_ge_dec (year d * 12 + month d) (year d' * 12 + month d'))
    as [Hlt|Hge]; [exact Hlt|]. exfalso.
  destruct (Z.eq_dec (year d * 12 + month d) (year d' * 12 + month d')) as [Eq|Hne].
  - assert (Ey : year d = year d') by lia. assert (Em : month d = month d') by lia.
    rewrite <- Ey, <- Em in *. lia.
  - pose proof (months_strictly_ordered (year d') (month d') (year d) (month d)
                  Hm' Hm ltac:(lia)). lia.
Qed.

(** X22. For a valid current date from year 2 on, the twelve dates that
    give the labels of the series are thirty days apart, so that two
    neighbouring labels name the same month, two consecutive months, or
    January and March with February left out; and no month is named by
    three labels in a row. *)
Theorem trend_labels_spacing (today : date) :
  valid_date today -> 2 <= year today ->
  exists ds,
    month_dates today RANGE12 = Some ds /\
    (forall i d d', nth_error ds i = Some d -> nth_error ds (S i) = Some d' ->
       toordinal d' = toordinal d + 30 /\
       month_index d <= month_index d' <= month_index d + 2 /\
       (month_index d' = month_index d + 2 -> month d = 1 /\ month d' = 3)) /\
    (forall i d d', nth_error ds i = Some d -> nth_error ds (S (S i)) = Some d' ->
       month_index d < month_index d').
Proof.
  intros Hv H2. pose proof (toordinal_range today Hv H2) as R.
  exists (map (fun i => ord2ymd (toordinal today - (11 - i) * 30)) RANGE12).
  split; [apply month_dates_some; auto using RANGE12_range|]. split.
  - intros i d d' Hi Hi'.
    apply nth_error_month_dates in Hi as [Ri ->].
    apply nth_error_month_dates in Hi' as [Ri' ->].
    destruct (ord2ymd_spec (toordinal today - (11 - Z.of_nat i) * 30) ltac:(lia))
      as [_ [Hm [Hd E]]].
    destruct (ord2ymd_spec (toordinal today - (11 - Z.of_nat (S i)) * 30) ltac:(lia))
      as [_ [Hm' [Hd' E']]].
    generalize dependent (ord2ymd (toordinal today - (11 - Z.of_nat (S i)) * 30)).
    generalize dependent (ord2ymd (toordinal today - (11 - Z.of_nat i) * 30)).
    intros d Hm Hd E d' Hm' Hd' E'.
    assert (E30 : toordinal d' = toordinal d + 30) by lia.
    split; [exact E30|]. now apply thirty_days_on.
  - intros i d d' Hi Hi'.
    apply nth_error_month_dates in Hi as [Ri ->].
    apply nth_error_month_dates in Hi' as [Ri' ->].
    destruct (ord2ymd_spec (toordinal today - (11 - Z.of_nat i) * 30) ltac:(lia))
      as [_ [Hm [Hd E]]].
    destruct (ord2ymd_spec (toordinal today - (11 - Z.of_nat (S (S i))) * 30) ltac:(lia))
      as [_ [Hm' [Hd' E']]].
    generalize dependent (ord2ymd (toordinal today - (11 - Z.of_nat (S (S i))) * 30)).
    generalize dependent (ord2ymd (toordinal today - (11 - Z.of_nat i) * 30)).
    intros d Hm Hd E d' Hm' Hd' E'.
    apply sixty_days_on; try assumption. lia.
Qed.

Lemma trend_labels_spacing_witness :
  valid_date (mkdate 2023 3 2) /\ 2 <= year (mkdate 2023 3 2) /\
  exists ds,
    month_dates (mkdate 2023 3 2) RANGE12 = Some ds /\
    map strftime_ym ds
    = ["2022-04"; "2022-05"; "2022-06"; "2022-07"; "2022-08"; "2022-09";
       "2022-10"; "2022-11"; "2022-12"; "2023-01"; "2023-01"; "2023-03"]%string /\
    (forall i d d', nth_error ds i = Some d -> nth_error ds (S i) = Some d' ->
       toordinal d' = toordinal d + 30 /\
       month_index d <= month_index d' <= month_index d + 2 /\
       (month_index d' = month_index d + 2 -> month d = 1 /\ month d' = 3)) /\
    (forall i d d', nth_error ds i = Some d -> nth_error ds (S (S i)) = Some d' ->
       month_index d < month_index d').
Proof.
  assert (Hv : valid_date (mkdate 2023 3 2))
    by (repeat split; apply Z.leb_le; reflexivity).
  assert (H2 : 2 <= year (mkdate 2023 3 2)) by (apply Z.leb_le; reflexivity).
  split; [exact Hv|]. split; [exact H2|].
  destruct (trend_labels_spacing (mkdate 2023 3 2) Hv H2) as [ds [E [P1 P2]]].
  exists ds. split; [exact E|]. split; [|split; assumption].
  assert (E0 : month_dates (mkdate 2023 3 2) RANGE12
               = Some [mkdate 2022 4 6; mkdate 2022 5 6; mkdate 2022 6 5;
                       mkdate 2022 7 5; mkdate 2022 8 4; mkdate 2022 9 3;
                       mkdate 2022 10 3; mkdate 2022 11 2; mkdate 2022 12 2;
                       mkdate 2023 1 1; mkdate 2023 1 31; mkdate 2023 3 2])
    by (vm_compute; reflexivity).
  rewrite E0 in E. injection E as <-. vm_compute. reflexivity.
Defined.

(** ** Issue counts *)

Lemma filter_split_length {A : Type} (p q : A -> bool) (l : list A) :
  (forall x, p x = true -> q x = false) ->
  length (filter (fun x => p x || q x) l)
  = (length (filter p l) + length (filter q l))%nat.
Proof.
  intros Hpq. induction l as [|x l IH]; simpl; [reflexivity|].
  pose proof (Hpq x) as Hx.
  destruct (p x), (q x); simpl;
    first [specialize (Hx eq_refl); discriminate | lia].
Qed.

(** X23. The issue counts of pairwise different statuses count disjoint
    rows: over one window they add up to the number of issue rows dated
    in the window whose status is one of them, hence to no more than the
    number of issue rows. *)
Theorem issue_counts_partition (db : store) (since until : string)
  (statuses : list string) :
  NoDup statuses ->
  list_sum (map (fun s => get_issue_count db s since until) statuses)
  = length (filter (fun i => sql_between (i_event_date i) since until
                             && existsb (fun s => sql_eq (i_event_status i) (Some s))
                                        statuses)
                   (issues db)) /\
  (list_sum (map (fun s => get_issue_count db s since until) statuses)
   <= length (issues db))%nat.
Proof.
  intros Hnd.
  assert (Hsum : list_sum (map (fun s => get_issue_count db s since until) statuses)
                 = length (filter (fun i => sql_between (i_event_date i) since until
                             && existsb (fun s => sql_eq (i_event_status i) (Some s))
                                        statuses)
                   (issues db))).
  { unfold list_sum. induction Hnd as [|s ss Hnotin Hnd IH].
    - cbn [map fold_right existsb]. rewrite filter_none; [reflexivity|].
      intros i _. apply andb_false_r.
    - cbn [map fold_right]. rewrite IH. unfold get_issue_count.
      rewrite <- filter_split_length.
      + f_equal. apply filter_ext. intros i. cbn [existsb].
        destruct (sql_eq (i_event_status i) (Some s)),
          (sql_between (i_event_date i) since until); reflexivity.
      + intros i Hi. apply andb_true_iff in Hi as [Hs _].
        apply sql_eq_Some in Hs. rewrite Hs.
        destruct (existsb (fun s0 => sql_eq (Some s) (Some s0)) ss) eqn:Ex;
          [|apply andb_false_r].
        exfalso. apply existsb_exists in Ex as [s' [Hin Heq]].
        apply sql_eq_Some in Heq. injection Heq as ->. contradiction. }
  split; [exact Hsum|]. rewrite Hsum. apply filter_length_le.
Qed.

Lemma issue_counts_partition_witness :
  NoDup ["Cull"; "Sell"; "Dead"]%string /\
  (get_issue_count sold_then_dead_store "Cull" "2024-01-01" "2024-12-31"
   + (get_issue_count sold_then_dead_store "Sell" "2024-01-01" "2024-12-31"
      + (get_issue_count sold_then_dead_store "Dead" "2024-01-01" "2024-12-31" + 0))
   <= length (issues sold_then_dead_store))%nat.
Proof.
  assert (Hnd : NoDup ["Cull"; "Sell"; "Dead"]%string).
  { repeat constructor; simpl; intuition discriminate. }
  split; [exact Hnd|].
  exact (proj2 (issue_counts_partition sold_then_dead_store
                  "2024-01-01" "2024-12-31" _ Hnd)).
Defined.
